(** * The client-side cache of sp-aroma: [frontend/src/lib/cache.ts] and the
    caching wrappers of [frontend/src/lib/api.ts].

    The development is a shallow embedding.  JavaScript strings are lists of
    UTF-16 code units, JSON values are an inductive type, [localStorage] is a
    finite map from keys to strings, the IndexedDB object store is a list of
    records kept in key order, and the browser built-ins the cache calls
    ([JSON.stringify], [JSON.parse], [btoa], [atob]) are executable
    functions.  Exceptions are values of a small error monad; [try]/[catch]
    is [try_catch].  Asynchronous functions are split at their first
    [await initDB()]: what runs before it runs at the call, what runs after
    it is a task served in the order the database was asked for. *)

From Stdlib Require Import ZArith Lia List Bool String Ascii.
From Stdlib Require Import Decimal DecimalFacts DecimalPos DecimalN.
From Stdlib Require Import Permutation.
From stdpp Require Import base option list gmap strings.

Local Open Scope Z_scope.

(** ** JavaScript strings *)

(** A string is its sequence of UTF-16 code units. *)
Abbreviation jsstring := (list Z).

Definition code (a : ascii) : Z := Z.of_nat (nat_of_ascii a).

(** [str "abc"] is the JavaScript string literal ['abc']. *)
Definition str (s : string) : jsstring := map code (list_ascii_of_string s).

Definition code_unit (c : Z) : Prop := 0 <= c < 65536.

(** ** Exceptions *)

Inductive exn :=
| SyntaxError
| TypeError
| InvalidCharacterError
| DataError
| OpenError.

Inductive result (A : Type) :=
| Ok (a : A)
| Throw (e : exn).
Arguments Ok {A} a.
Arguments Throw {A} e.

#[global] Instance result_ret : MRet result := fun _ a => Ok a.
#[global] Instance result_bind : MBind result := fun _ _ f m =>
  match m with
  | Ok a => f a
  | Throw e => Throw e
  end.

(** [try { body } catch (error) { handler }] *)
Definition try_catch {A} (body : result A) (handler : exn -> A) : A :=
  match body with
  | Ok a => a
  | Throw e => handler e
  end.

(** ** JSON values *)

(** Numbers are integers: the cache only does arithmetic on timestamps,
    counts and ids. *)
#[local] Unset Elimination Schemes.
Inductive json :=
| JNull
| JBool (b : bool)
| JNum (z : Z)
| JStr (s : jsstring)
| JArr (l : list json)
| JObj (l : list (jsstring * json)).
#[local] Set Elimination Schemes.

(** A JavaScript value that may be [undefined] is an [option json]. *)
Abbreviation undefined := (@None json).

Section json_induction.
Variable P : json -> Prop.
Hypothesis Hnull : P JNull.
Hypothesis Hbool : forall b, P (JBool b).
Hypothesis Hnum : forall z, P (JNum z).
Hypothesis Hstr : forall s, P (JStr s).
Hypothesis Harr : forall l, Forall P l -> P (JArr l).
Hypothesis Hobj : forall l, Forall (fun kv => P (snd kv)) l -> P (JObj l).

Fixpoint json_ind' (v : json) : P v :=
  match v with
  | JNull => Hnull
  | JBool b => Hbool b
  | JNum z => Hnum z
  | JStr s => Hstr s
  | JArr l =>
      Harr l ((fix go (l : list json) : Forall P l :=
                 match l with
                 | [] => List.Forall_nil _
                 | x :: l' => List.Forall_cons _ x l' (json_ind' x) (go l')
                 end) l)
  | JObj l =>
      Hobj l ((fix go (l : list (jsstring * json))
                 : Forall (fun kv => P (snd kv)) l :=
                 match l with
                 | [] => List.Forall_nil _
                 | kv :: l' =>
                     List.Forall_cons (fun kv => P (snd kv)) kv l'
                       (json_ind' (snd kv)) (go l')
                 end) l)
  end.
End json_induction.

(** ** [JSON.stringify] *)

Definition digit_code (d : Z) : Z := 48 + d.

Fixpoint uint_codes (u : Decimal.uint) : jsstring :=
  match u with
  | Nil => []
  | D0 u => digit_code 0 :: uint_codes u
  | D1 u => digit_code 1 :: uint_codes u
  | D2 u => digit_code 2 :: uint_codes u
  | D3 u => digit_code 3 :: uint_codes u
  | D4 u => digit_code 4 :: uint_codes u
  | D5 u => digit_code 5 :: uint_codes u
  | D6 u => digit_code 6 :: uint_codes u
  | D7 u => digit_code 7 :: uint_codes u
  | D8 u => digit_code 8 :: uint_codes u
  | D9 u => digit_code 9 :: uint_codes u
  end.

(** [String(z)] for an integer [z]. *)
Definition number_to_string (z : Z) : jsstring :=
  if z <? 0 then 45 :: uint_codes (N.to_uint (Z.abs_N z))
  else uint_codes (N.to_uint (Z.abs_N z)).

Definition hex_code (d : Z) : Z := if d <? 10 then 48 + d else 87 + d.

(** [\uXXXX], four lower-case hexadecimal digits. *)
Definition u_escape (c : Z) : jsstring :=
  [92; 117; hex_code (c / 4096 mod 16); hex_code (c / 256 mod 16);
   hex_code (c / 16 mod 16); hex_code (c mod 16)].

Definition is_high_surrogate (c : Z) : bool := (55296 <=? c) && (c <=? 56319).
Definition is_low_surrogate (c : Z) : bool := (56320 <=? c) && (c <=? 57343).

(** One code unit inside a quoted string (surrogates apart). *)
Definition escape_char (c : Z) : jsstring :=
  if c =? 34 then [92; 34]
  else if c =? 92 then [92; 92]
  else if c =? 8 then [92; 98]
  else if c =? 12 then [92; 102]
  else if c =? 10 then [92; 110]
  else if c =? 13 then [92; 114]
  else if c =? 9 then [92; 116]
  else if c <? 32 then u_escape c
  else [c].

(** The characters of a quoted string and its closing quote.  A surrogate
    pair is copied, a lone surrogate is written as an escape. *)
Fixpoint quote_body (s : jsstring) : jsstring :=
  match s with
  | [] => [34]
  | c :: r =>
      if is_high_surrogate c then
        match r with
        | d :: r' =>
            if is_low_surrogate d then c :: d :: quote_body r'
            else u_escape c ++ quote_body r
        | [] => u_escape c ++ quote_body r
        end
      else if is_low_surrogate c then u_escape c ++ quote_body r
      else escape_char c ++ quote_body r
  end.

Definition quote (s : jsstring) : jsstring := 34 :: quote_body s.

Fixpoint JSON_stringify (v : json) : jsstring :=
  match v with
  | JNull => str "null"
  | JBool true => str "true"
  | JBool false => str "false"
  | JNum z => number_to_string z
  | JStr s => quote s
  | JArr l =>
      91 :: match l with
            | [] => [93]
            | x :: l' =>
                JSON_stringify x ++
                (fix elements (l : list json) : jsstring :=
                   match l with
                   | [] => [93]
                   | y :: l' => 44 :: JSON_stringify y ++ elements l'
                   end) l'
            end
  | JObj l =>
      123 :: match l with
             | [] => [125]
             | (k, x) :: l' =>
                 quote k ++ 58 :: JSON_stringify x ++
                 (fix members (l : list (jsstring * json)) : jsstring :=
                    match l with
                    | [] => [125]
                    | (k, y) :: l' =>
                        44 :: quote k ++ 58 :: JSON_stringify y ++ members l'
                    end) l'
             end
  end.

(** The elements of an array after the first, with the closing bracket. *)
Fixpoint stringify_elements (l : list json) : jsstring :=
  match l with
  | [] => [93]
  | y :: l' => 44 :: JSON_stringify y ++ stringify_elements l'
  end.

(** The members of an object after the first, with the closing brace. *)
Fixpoint stringify_members (l : list (jsstring * json)) : jsstring :=
  match l with
  | [] => [125]
  | (k, y) :: l' => 44 :: quote k ++ 58 :: JSON_stringify y ++ stringify_members l'
  end.

(** The values that stand for a JavaScript value: strings are made of code
    units and an object has each key once. *)
Fixpoint wf_json (v : json) : Prop :=
  match v with
  | JStr s => Forall code_unit s
  | JArr l => fold_right (fun x P => wf_json x /\ P) True l
  | JObj o =>
      NoDup (map fst o)
      /\ fold_right (fun kv P => Forall code_unit (fst kv) /\ wf_json (snd kv) /\ P)
           True o
  | _ => True
  end.

(** [wf_json] as a test. *)
Fixpoint wf_jsonb (v : json) : bool :=
  match v with
  | JStr s => forallb (fun c => (0 <=? c) && (c <? 65536)) s
  | JArr l => forallb wf_jsonb l
  | JObj o =>
      bool_decide (NoDup (map fst o))
      && forallb (fun kv => forallb (fun c => (0 <=? c) && (c <? 65536)) (fst kv)
                            && wf_jsonb (snd kv)) o
  | _ => true
  end.

(** The depth of recursion [JSON.parse] needs to read a value back. *)
Fixpoint size (v : json) : nat :=
  match v with
  | JArr l => S (fold_right (fun x n => S (size x + n)) O l)
  | JObj o => S (fold_right (fun kv n => S (size (snd kv) + n)) O o)
  | _ => 1
  end.

(** ** [generateHash] *)

(** ToInt32: the value modulo 2^32, read as a signed 32-bit integer. *)
Definition to_int32 (z : Z) : Z := (z + 2 ^ 31) mod 2 ^ 32 - 2 ^ 31.

(** [x << n] on a number. *)
Definition shl (x n : Z) : Z := to_int32 (Z.shiftl (to_int32 x) n).

(** [x & y] on numbers. *)
Definition band (x y : Z) : Z := to_int32 (Z.land (to_int32 x) (to_int32 y)).

(** The body of the [for] loop, for the code unit [char]. *)
Definition hash_step (hash char : Z) : Z :=
  let hash := (shl hash 5 - hash) + char in
  let hash := band hash hash in
  hash.

Definition digit36 (d : Z) : Z := if d <? 10 then 48 + d else 87 + d.

Fixpoint to_base36 (fuel : nat) (n : Z) (acc : jsstring) : jsstring :=
  match fuel with
  | O => acc
  | S fuel =>
      if n <? 36 then digit36 n :: acc
      else to_base36 fuel (n / 36) (digit36 (n mod 36) :: acc)
  end.

(** [n.toString(36)] for a non-negative integer [n]. *)
Definition toString36 (n : Z) : jsstring :=
  to_base36 (S (Z.to_nat (Z.log2 n))) n [].

Definition generateHash (data : json) : jsstring :=
  let s := JSON_stringify data in
  let hash := fold_left hash_step s 0 in
  toString36 (Z.abs hash).

(** For examples: the text [s] with every ['] read as a double quote. *)
Definition dq (s : string) : jsstring :=
  map (fun c => if c =? 39 then 34 else c) (str s).

(** ** [JSON.parse] *)

Definition is_ws (c : Z) : bool :=
  (c =? 32) || (c =? 9) || (c =? 10) || (c =? 13).

Fixpoint skip_ws (s : jsstring) : jsstring :=
  match s with
  | c :: r => if is_ws c then skip_ws r else s
  | [] => []
  end.

Definition hex_value (c : Z) : option Z :=
  if (48 <=? c) && (c <=? 57) then Some (c - 48)
  else if (97 <=? c) && (c <=? 102) then Some (c - 87)
  else if (65 <=? c) && (c <=? 70) then Some (c - 55)
  else None.

(** The character a one-letter escape stands for. *)
Definition unescape (e : Z) : option Z :=
  if e =? 34 then Some 34
  else if e =? 92 then Some 92
  else if e =? 47 then Some 47
  else if e =? 98 then Some 8
  else if e =? 102 then Some 12
  else if e =? 110 then Some 10
  else if e =? 114 then Some 13
  else if e =? 116 then Some 9
  else None.

(** A string after its opening quote: its characters and what follows the
    closing quote. *)
Fixpoint parse_string (s : jsstring) : option (jsstring * jsstring) :=
  match s with
  | [] => None
  | c :: r =>
      if c =? 34 then Some ([], r)
      else if c =? 92 then
        match r with
        | [] => None
        | e :: r1 =>
            if e =? 117 then
              match r1 with
              | h1 :: h2 :: h3 :: h4 :: r2 =>
                  x1 ← hex_value h1; x2 ← hex_value h2;
                  x3 ← hex_value h3; x4 ← hex_value h4;
                  '(t, rest) ← parse_string r2;
                  Some ((((x1 * 16 + x2) * 16 + x3) * 16 + x4) :: t, rest)
              | _ => None
              end
            else
              x ← unescape e;
              '(t, rest) ← parse_string r1;
              Some (x :: t, rest)
        end
      else if c <? 32 then None
      else '(t, rest) ← parse_string r; Some (c :: t, rest)
  end.

Definition digit_of (c : Z) : option (Decimal.uint -> Decimal.uint) :=
  if c =? 48 then Some D0 else if c =? 49 then Some D1
  else if c =? 50 then Some D2 else if c =? 51 then Some D3
  else if c =? 52 then Some D4 else if c =? 53 then Some D5
  else if c =? 54 then Some D6 else if c =? 55 then Some D7
  else if c =? 56 then Some D8 else if c =? 57 then Some D9
  else None.

(** The longest run of decimal digits at the head of [s]. *)
Fixpoint read_uint (s : jsstring) : Decimal.uint * jsstring :=
  match s with
  | c :: r =>
      match digit_of c with
      | Some d => let '(u, rest) := read_uint r in (d u, rest)
      | None => (Nil, s)
      end
  | [] => (Nil, [])
  end.

(** What may follow an integer literal: anything but a digit, a fraction or
    an exponent (a literal with a fraction or an exponent is not an integer
    and is refused). *)
Definition ends_number (rest : jsstring) : bool :=
  match rest with
  | [] => true
  | c :: _ =>
      negb (bool_decide (is_Some (digit_of c)))
      && negb ((c =? 46) || (c =? 101) || (c =? 69))
  end.

Definition parse_unsigned (s : jsstring) : option (Z * jsstring) :=
  let '(u, rest) := read_uint s in
  if Decimal.uint_beq (unorm u) u && ends_number rest
  then Some (Z.of_N (N.of_uint u), rest)
  else None.

Definition parse_number (s : jsstring) : option (Z * jsstring) :=
  match s with
  | c :: r =>
      if c =? 45 then '(n, rest) ← parse_unsigned r; Some (- n, rest)
      else parse_unsigned s
  | [] => None
  end.

Fixpoint expect (word s : jsstring) : option jsstring :=
  match word with
  | [] => Some s
  | w :: word' =>
      match s with
      | c :: r => if c =? w then expect word' r else None
      | [] => None
      end
  end.

(** ** Objects *)

Fixpoint obj_get (k : jsstring) (o : list (jsstring * json)) : option json :=
  match o with
  | [] => None
  | (k', v) :: o' => if bool_decide (k' = k) then Some v else obj_get k o'
  end.

(** [o[k] = v]: an existing property keeps its place. *)
Fixpoint obj_set (k : jsstring) (v : json) (o : list (jsstring * json))
  : list (jsstring * json) :=
  match o with
  | [] => [(k, v)]
  | (k', v') :: o' =>
      if bool_decide (k' = k) then (k, v) :: o' else (k', v') :: obj_set k v o'
  end.

Definition obj_remove (k : jsstring) (o : list (jsstring * json))
  : list (jsstring * json) :=
  filter (fun kv => fst kv ≠ k) o.

(** The object a list of parsed members denotes: a repeated key keeps its
    first place and its last value. *)
Definition obj_of (members : list (jsstring * json)) : list (jsstring * json) :=
  fold_left (fun o kv => obj_set (fst kv) (snd kv) o) members [].

(** One ["key": value] member, [pv] parsing the value. *)
Definition parse_member (pv : jsstring -> option (json * jsstring)) (s : jsstring)
  : option ((jsstring * json) * jsstring) :=
  match skip_ws s with
  | c :: r =>
      if c =? 34 then
        '(k, r1) ← parse_string r;
        match skip_ws r1 with
        | d :: r2 =>
            if d =? 58 then '(x, r3) ← pv r2; Some ((k, x), r3) else None
        | [] => None
        end
      else None
  | [] => None
  end.

Fixpoint parse_value (fuel : nat) (s : jsstring) : option (json * jsstring) :=
  match fuel with
  | O => None
  | S fuel =>
      match skip_ws s with
      | [] => None
      | c :: r =>
          if c =? 110 then r' ← expect (str "ull") r; Some (JNull, r')
          else if c =? 116 then r' ← expect (str "rue") r; Some (JBool true, r')
          else if c =? 102 then r' ← expect (str "alse") r; Some (JBool false, r')
          else if c =? 34 then '(t, r') ← parse_string r; Some (JStr t, r')
          else if c =? 91 then
            match skip_ws r with
            | d :: r' =>
                if d =? 93 then Some (JArr [], r')
                else
                  '(x, r1) ← parse_value fuel r;
                  '(xs, r2) ← parse_elements fuel r1;
                  Some (JArr (x :: xs), r2)
            | [] => None
            end
          else if c =? 123 then
            match skip_ws r with
            | d :: r' =>
                if d =? 125 then Some (JObj [], r')
                else
                  '(m, r1) ← parse_member (parse_value fuel) r;
                  '(ms, r2) ← parse_members fuel r1;
                  Some (JObj (obj_of (m :: ms)), r2)
            | [] => None
            end
          else '(z, r') ← parse_number (c :: r); Some (JNum z, r')
      end
  end
with parse_elements (fuel : nat) (s : jsstring) : option (list json * jsstring) :=
  match fuel with
  | O => None
  | S fuel =>
      match skip_ws s with
      | c :: r =>
          if c =? 93 then Some ([], r)
          else if c =? 44 then
            '(x, r1) ← parse_value fuel r;
            '(xs, r2) ← parse_elements fuel r1;
            Some (x :: xs, r2)
          else None
      | [] => None
      end
  end
with parse_members (fuel : nat) (s : jsstring)
  : option (list (jsstring * json) * jsstring) :=
  match fuel with
  | O => None
  | S fuel =>
      match skip_ws s with
      | c :: r =>
          if c =? 125 then Some ([], r)
          else if c =? 44 then
            '(m, r1) ← parse_member (parse_value fuel) r;
            '(ms, r2) ← parse_members fuel r1;
            Some (m :: ms, r2)
          else None
      | [] => None
      end
  end.

(** [JSON.parse(s)]: one value, then nothing but white space.  Numbers are
    integers: a literal with a fraction or an exponent is refused, and an
    integer literal is read as it is written, which is what JavaScript reads
    up to 2^53 and rounds beyond (the values of [exact_json] stay below). *)
Definition JSON_parse (s : jsstring) : result json :=
  match parse_value (length s) s with
  | Some (v, rest) =>
      match skip_ws rest with
      | [] => Ok v
      | _ :: _ => Throw SyntaxError
      end
  | None => Throw SyntaxError
  end.

(** ** [btoa] and [atob] *)

Definition b64_char (i : Z) : Z :=
  if i <? 26 then 65 + i
  else if i <? 52 then 71 + i
  else if i <? 62 then i - 4
  else if i =? 62 then 43
  else 47.

Definition b64_value (c : Z) : option Z :=
  if (65 <=? c) && (c <=? 90) then Some (c - 65)
  else if (97 <=? c) && (c <=? 122) then Some (c - 71)
  else if (48 <=? c) && (c <=? 57) then Some (c + 4)
  else if c =? 43 then Some 62
  else if c =? 47 then Some 63
  else None.

Fixpoint b64_encode (s : jsstring) : jsstring :=
  match s with
  | [] => []
  | [a] => [b64_char (a / 4); b64_char (a mod 4 * 16); 61; 61]
  | [a; b] =>
      [b64_char (a / 4); b64_char (a mod 4 * 16 + b / 16);
       b64_char (b mod 16 * 4); 61]
  | a :: b :: c :: r =>
      b64_char (a / 4) :: b64_char (a mod 4 * 16 + b / 16)
      :: b64_char (b mod 16 * 4 + c / 64) :: b64_char (c mod 64)
      :: b64_encode r
  end.

(** [btoa(s)] throws when [s] has a code unit above [0xFF]. *)
Definition btoa (s : jsstring) : result jsstring :=
  if forallb (fun c => c <=? 255) s then Ok (b64_encode s)
  else Throw InvalidCharacterError.

(** Groups of four characters; padding is accepted in the last group only,
    and a last group of two or three characters needs none. *)
Fixpoint b64_decode (s : jsstring) : option jsstring :=
  match s with
  | [] => Some []
  | a :: s1 =>
      match s1 with
      | [] => None
      | b :: s2 =>
          x ← b64_value a; y ← b64_value b;
          match s2 with
          | [] => Some [x * 4 + y / 16]
          | c :: s3 =>
              match s3 with
              | [] =>
                  z ← b64_value c;
                  Some [x * 4 + y / 16; y mod 16 * 16 + z / 4]
              | d :: r =>
                  if (d =? 61) && bool_decide (r = []) then
                    if c =? 61 then Some [x * 4 + y / 16]
                    else
                      z ← b64_value c;
                      Some [x * 4 + y / 16; y mod 16 * 16 + z / 4]
                  else
                    z ← b64_value c; w ← b64_value d;
                    t ← b64_decode r;
                    Some (x * 4 + y / 16 :: y mod 16 * 16 + z / 4
                          :: z mod 4 * 64 + w :: t)
              end
          end
      end
  end.

Definition is_ascii_ws (c : Z) : bool :=
  (c =? 9) || (c =? 10) || (c =? 12) || (c =? 13) || (c =? 32).

(** [atob(s)]: white space is dropped first. *)
Definition atob (s : jsstring) : result jsstring :=
  match b64_decode (filter (fun c => is_ascii_ws c = false) s) with
  | Some t => Ok t
  | None => Throw InvalidCharacterError
  end.

(** ** Coercions *)

(** [String(v)]; inside an array [null] prints as the empty string. *)
Fixpoint to_string (v : json) : jsstring :=
  match v with
  | JNull => str "null"
  | JBool true => str "true"
  | JBool false => str "false"
  | JNum z => number_to_string z
  | JStr s => s
  | JArr l =>
      (fix join (l : list json) : jsstring :=
         match l with
         | [] => []
         | x :: l' =>
             match x with JNull => [] | _ => to_string x end
             ++ match l' with [] => [] | _ :: _ => 44 :: join l' end
         end) l
  | JObj _ => str "[object Object]"
  end.

(** [Number(s)] for a string: an optionally signed run of decimal digits
    between white space, the empty string being 0.  [None] is [NaN].  (The
    other numeric literals are not integers and are read as [NaN].) *)
Definition string_to_number (s : jsstring) : option Z :=
  match rev (skip_ws (rev (skip_ws s))) with
  | [] => Some 0
  | c :: r =>
      let '(negative, digits) :=
        if c =? 45 then (true, r)
        else if c =? 43 then (false, r)
        else (false, c :: r) in
      match read_uint digits with
      | (Nil, _) => None
      | (u, []) =>
          Some (if negative then - Z.of_N (N.of_uint u) else Z.of_N (N.of_uint u))
      | (_, _ :: _) => None
      end
  end.

(** ToNumber; [None] is [NaN]. *)
Definition to_number (v : option json) : option Z :=
  match v with
  | None => None
  | Some JNull => Some 0
  | Some (JBool b) => Some (if b then 1 else 0)
  | Some (JNum z) => Some z
  | Some (JStr s) => string_to_number s
  | Some v => string_to_number (to_string v)
  end.

(** ToBoolean. *)
Definition truthy (v : option json) : bool :=
  match v with
  | None | Some JNull => false
  | Some (JBool b) => b
  | Some (JNum z) => negb (z =? 0)
  | Some (JStr s) => negb (bool_decide (s = []))
  | Some (JArr _) | Some (JObj _) => true
  end.

(** [v.k] for a name [k] that is neither [length] nor an index: a property of
    an object, [undefined] on the other values, a [TypeError] on [null]. *)
Definition get_prop (v : json) (k : jsstring) : result (option json) :=
  match v with
  | JNull => Throw TypeError
  | JObj o => Ok (obj_get k o)
  | _ => Ok None
  end.

(** [v?.k] *)
Definition get_prop_opt (v : json) (k : jsstring) : option json :=
  match v with
  | JObj o => obj_get k o
  | _ => None
  end.

(** [s !== v] for a string [s]. *)
Definition strict_ne (s : jsstring) (v : option json) : bool :=
  match v with
  | Some (JStr t) => negb (bool_decide (s = t))
  | _ => true
  end.

(** Structural equality of JSON values, as a boolean. *)
Fixpoint json_eqb (a b : json) : bool :=
  match a, b with
  | JNull, JNull => true
  | JBool x, JBool y => Bool.eqb x y
  | JNum x, JNum y => x =? y
  | JStr s, JStr t => bool_decide (s = t)
  | JArr l, JArr m =>
      (fix go (l m : list json) : bool :=
         match l, m with
         | [], [] => true
         | x :: l', y :: m' => json_eqb x y && go l' m'
         | _, _ => false
         end) l m
  | JObj l, JObj m =>
      (fix go (l m : list (jsstring * json)) : bool :=
         match l, m with
         | [], [] => true
         | (k, x) :: l', (k', y) :: m' =>
             bool_decide (k = k') && json_eqb x y && go l' m'
         | _, _ => false
         end) l m
  | _, _ => false
  end.

(** ** The cache *)

Definition DB_VERSION : Z := 1.
Definition CACHE_DURATION : Z := 30 * 60 * 1000.
Definition USER_CACHE_KEY : string := "sp_aroma_user".
Definition PRODUCTS_CACHE_KEY : string := "sp_aroma_products_meta".

(** [Date.now() - timestamp > CACHE_DURATION]; a comparison with [NaN] is
    false. *)
Definition expired (now : Z) (timestamp : option json) : bool :=
  match to_number timestamp with
  | Some t => CACHE_DURATION <? now - t
  | None => false
  end.

(** *** The object store [products], key path [id] *)

Definition record := list (jsstring * json).

Definition key_of (r : record) : option json := obj_get (str "id") r.

(** The values IndexedDB takes as keys. *)
Fixpoint valid_key (k : json) : bool :=
  match k with
  | JNum _ | JStr _ => true
  | JArr l => forallb valid_key l
  | _ => false
  end.

Fixpoint compare_strings (s t : jsstring) : comparison :=
  match s, t with
  | [], [] => Eq
  | [], _ :: _ => Lt
  | _ :: _, [] => Gt
  | c :: s', d :: t' =>
      match c ?= d with
      | Eq => compare_strings s' t'
      | o => o
      end
  end.

(** The order of keys: numbers, then strings, then arrays. *)
Fixpoint key_compare (a b : json) : comparison :=
  match a, b with
  | JNum x, JNum y => x ?= y
  | JNum _, _ => Lt
  | _, JNum _ => Gt
  | JStr s, JStr t => compare_strings s t
  | JStr _, _ => Lt
  | _, JStr _ => Gt
  | JArr l, JArr m =>
      (fix go (l m : list json) : comparison :=
         match l, m with
         | [], [] => Eq
         | [], _ :: _ => Lt
         | _ :: _, [] => Gt
         | x :: l', y :: m' =>
             match key_compare x y with
             | Eq => go l' m'
             | o => o
             end
         end) l m
  | _, _ => Eq
  end.

Definition has_key (k : json) (r : record) : bool :=
  match key_of r with
  | Some k' => json_eqb k k'
  | None => false
  end.

(** The records are kept in key order, which is the order of [getAll]. *)
Fixpoint insert_by_key (k : json) (r : record) (s : list record) : list record :=
  match s with
  | [] => [r]
  | r' :: s' =>
      match key_of r' with
      | Some k' =>
          match key_compare k k' with
          | Lt => r :: s
          | _ => r' :: insert_by_key k r s'
          end
      | None => r' :: insert_by_key k r s'
      end
  end.

(** A [readwrite] transaction: the store as its requests have left it, and
    whether one of them has failed, which aborts the transaction. *)
Record txn := Txn { written : list record; failed : bool }.

(** [store.add(r)].  A value without a valid key is refused at the call with
    a [DataError]; a key already present makes the request fail later. *)
Definition store_add (r : record) (t : txn) : result txn :=
  match key_of r with
  | Some k =>
      if valid_key k then
        if existsb (has_key k) (written t)
        then Ok (Txn (written t) true)
        else Ok (Txn (insert_by_key k r (written t)) (failed t))
      else Throw DataError
  | None => Throw DataError
  end.

(** [store.clear()] *)
Definition store_clear (t : txn) : txn := Txn [] (failed t).

(** [store.get(id)] for a number [id]; [NaN] is not a key. *)
Definition store_get (id : option Z) (s : list record) : result (option record) :=
  match id with
  | Some z => Ok (find (has_key (JNum z)) s)
  | None => Throw DataError
  end.

(** [{ ...product }]: the own enumerable properties of a value. *)
Definition spread (product : json) : list (jsstring * json) :=
  match product with
  | JObj o => o
  | JArr l => imap (fun i x => (number_to_string (Z.of_nat i), x)) l
  | JStr s => imap (fun i c => (number_to_string (Z.of_nat i), JStr [c])) s
  | _ => []
  end.

(** [const { _cached_at, _hash, ...product } = p] *)
Definition strip (p : record) : json :=
  JObj (obj_remove (str "_hash") (obj_remove (str "_cached_at") p)).

(** *** State *)

(** A call of [ProductCache.set] or [ProductCache.clear] that waits for the
    database to open. *)
Inductive task :=
| TSet (products : list json)
| TClear.

Record state := State {
  localStorage : gmap string jsstring;
  products_store : list record;
  db_ok : bool;          (* whether [indexedDB.open] succeeds *)
  now : Z;               (* [Date.now()] *)
  pending : list task    (* calls waiting for the database, oldest first *)
}.

Definition getItem (k : string) (σ : state) : option jsstring :=
  localStorage σ !! k.

Definition setItem (k : string) (v : jsstring) (σ : state) : state :=
  State (<[k := v]> (localStorage σ)) (products_store σ) (db_ok σ) (now σ) (pending σ).

Definition removeItem (k : string) (σ : state) : state :=
  State (delete k (localStorage σ)) (products_store σ) (db_ok σ) (now σ) (pending σ).

(** The end of a transaction: its writes are kept unless it was aborted. *)
Definition commit (t : txn) (σ : state) : state :=
  State (localStorage σ) (if failed t then products_store σ else written t)
    (db_ok σ) (now σ) (pending σ).

Definition enqueue (t : task) (σ : state) : state :=
  State (localStorage σ) (products_store σ) (db_ok σ) (now σ) (pending σ ++ [t]).

Definition initDB (σ : state) : result unit :=
  if db_ok σ then Ok () else Throw OpenError.

(** [!item] for what [getItem] returned: absent or empty. *)
Definition present (item : option jsstring) : option jsstring :=
  match item with
  | Some (c :: s) => Some (c :: s)
  | _ => None
  end.

(** *** [ProductCache] *)

(** [{ ...product, _cached_at: timestamp, _hash: generateHash(product) }] *)
Definition cached_record (timestamp : Z) (product : json) : record :=
  obj_set (str "_hash") (JStr (generateHash product))
    (obj_set (str "_cached_at") (JNum timestamp) (spread product)).

(** The [for] loop of [set]: the transaction as the loop leaves it, and
    whether [store.add] threw. *)
Fixpoint add_products (timestamp : Z) (products : list json) (t : txn)
  : txn * result unit :=
  match products with
  | [] => (t, Ok ())
  | product :: products' =>
      match store_add (cached_record timestamp product) t with
      | Ok t' => add_products timestamp products' t'
      | Throw e => (t, Throw e)
      end
  end.

(** [{ timestamp, count: products.length, hash }] *)
Definition products_meta (timestamp count : Z) (hash : jsstring) : json :=
  JObj [(str "timestamp", JNum timestamp); (str "count", JNum count);
        (str "hash", JStr hash)].

(** [ProductCache.set(products)] once the database has answered. *)
Definition set_task (products : list json) (σ : state) : state :=
  match initDB σ with
  | Throw _ => σ
  | Ok _ =>
      let timestamp := now σ in
      let hash := generateHash (JArr products) in
      let t := store_clear (Txn (products_store σ) false) in
      let '(t, added) := add_products timestamp products t in
      commit t
        (try_catch
           (_ ← added;
            Ok (setItem PRODUCTS_CACHE_KEY
                  (JSON_stringify
                     (products_meta timestamp (Z.of_nat (length products)) hash))
                  σ))
           (fun _ => σ))
  end.

(** [ProductCache.clear()] once the database has answered. *)
Definition clear_task (σ : state) : state :=
  match initDB σ with
  | Throw _ => σ
  | Ok _ =>
      removeItem PRODUCTS_CACHE_KEY
        (commit (store_clear (Txn (products_store σ) false)) σ)
  end.

Definition run_task (t : task) (σ : state) : state :=
  match t with
  | TSet products => set_task products σ
  | TClear => clear_task σ
  end.

(** The database serves the waiting calls, oldest first. *)
Definition flush (σ : state) : state :=
  fold_left (fun σ t => run_task t σ) (pending σ)
    (State (localStorage σ) (products_store σ) (db_ok σ) (now σ) []).

(** [ProductCache.set(products)]: the call, which returns a promise. *)
Definition ProductCache_set (products : list json) (σ : state) : state :=
  enqueue (TSet products) σ.

(** [ProductCache.clear()]: the call, which returns a promise. *)
Definition ProductCache_clear (σ : state) : state :=
  enqueue TClear σ.

(** [await call]: the promise of [call] is settled when the database has
    served it, after the calls that were waiting before it. *)
Definition await (call : state -> state) (σ : state) : state :=
  flush (call σ).

(** The database serves the [n] oldest of the waiting calls. *)
Definition serve (n : nat) (σ : state) : state :=
  fold_left (fun σ t => run_task t σ) (take n (pending σ))
    (State (localStorage σ) (products_store σ) (db_ok σ) (now σ)
       (drop n (pending σ))).

(** [products.length > 0 ? products : null] *)
Definition or_null (products : list json) : option (list json) :=
  match products with
  | [] => None
  | _ :: _ => Some products
  end.

(** [await ProductCache.get()]: the value and the state at that point. *)
Definition ProductCache_get (σ : state) : option (list json) * state :=
  match present (getItem PRODUCTS_CACHE_KEY σ) with
  | None => (None, σ)
  | Some meta =>
      match (v ← JSON_parse meta; get_prop v (str "timestamp")) with
      | Throw _ => (None, σ)
      | Ok timestamp =>
          if expired (now σ) timestamp then
            (None, await ProductCache_clear σ)
          else
            let σ := flush σ in
            match initDB σ with
            | Throw _ => (None, σ)
            | Ok _ =>
                let products := map strip (products_store σ) in
                (or_null products, σ)
            end
      end
  end.

(** [await ProductCache.getById(id)]: the value and the state at that
    point. *)
Definition ProductCache_getById (id : option Z) (σ : state) : option json * state :=
  let σ := flush σ in
  (try_catch
     (_ ← initDB σ;
      found ← store_get id (products_store σ);
      match found with
      | None => Ok None
      | Some product =>
          if expired (now σ) (obj_get (str "_cached_at") product) then Ok None
          else Ok (Some (strip product))
      end)
     (fun _ => None),
   σ).

Definition ProductCache_isExpired (σ : state) : result bool :=
  match present (getItem PRODUCTS_CACHE_KEY σ) with
  | None => Ok true
  | Some meta =>
      v ← JSON_parse meta;
      timestamp ← get_prop v (str "timestamp");
      Ok (expired (now σ) timestamp)
  end.

(** *** [UserCache] *)

(** [{ data: user, timestamp, hash, _version: DB_VERSION }] *)
Definition cache_data (user : json) (timestamp : Z) (hash : jsstring) : json :=
  JObj [(str "data", user); (str "timestamp", JNum timestamp);
        (str "hash", JStr hash); (str "_version", JNum DB_VERSION)].

Definition UserCache_set (user : json) (σ : state) : state :=
  try_catch
    (let timestamp := now σ in
     let hash := generateHash user in
     let cacheData := cache_data user timestamp hash in
     encoded ← btoa (JSON_stringify cacheData);
     Ok (setItem USER_CACHE_KEY encoded σ))
    (fun _ => σ).

Definition UserCache_clear (σ : state) : state :=
  removeItem USER_CACHE_KEY σ.

(** [UserCache.get()]; its [null] is [JNull]. *)
Definition UserCache_get (σ : state) : json * state :=
  match present (getItem USER_CACHE_KEY σ) with
  | None => (JNull, σ)
  | Some encoded =>
      try_catch
        (decoded ← atob encoded;
         cacheData ← JSON_parse decoded;
         timestamp ← get_prop cacheData (str "timestamp");
         if expired (now σ) timestamp then Ok (JNull, UserCache_clear σ)
         else
           data ← get_prop cacheData (str "data");
           match data with
           | None => Throw TypeError   (* [str.length] of [undefined] *)
           | Some data =>
               let currentHash := generateHash data in
               hash ← get_prop cacheData (str "hash");
               if strict_ne currentHash hash then Ok (JNull, UserCache_clear σ)
               else Ok (data, σ)
           end)
        (fun _ => (JNull, UserCache_clear σ))
  end.

Definition UserCache_isExpired (σ : state) : bool :=
  try_catch
    (match present (getItem USER_CACHE_KEY σ) with
     | None => Ok true
     | Some encoded =>
         decoded ← atob encoded;
         cacheData ← JSON_parse decoded;
         timestamp ← get_prop cacheData (str "timestamp");
         Ok (expired (now σ) timestamp)
     end)
    (fun _ => true).

(** *** [invalidateCache] *)

Inductive scope := Products | User | All.

(** The promise of [ProductCache.clear()] is dropped: the function returns
    nothing to wait for. *)
Definition invalidateCache (type : option scope) (σ : state) : state :=
  match type with
  | None | Some All => UserCache_clear (ProductCache_clear σ)
  | Some Products => ProductCache_clear σ
  | Some User => UserCache_clear σ
  end.

(** ** The wrappers of [api.ts] *)

(** Each takes what its request to the back end settles to: a parsed
    response, or the exception [parseResponse] throws. *)

Definition apiLogout (response : result json) (σ : state) : result json * state :=
  match response with
  | Throw e => (Throw e, σ)
  | Ok response => (Ok response, invalidateCache (Some All) σ)
  end.

Definition apiCheckout (response : result json) (σ : state) : result json * state :=
  match response with
  | Throw e => (Throw e, σ)
  | Ok response =>
      if truthy (get_prop_opt response (str "order"))
         || truthy (get_prop_opt response (str "success"))
      then (Ok response, invalidateCache (Some Products) σ)
      else (Ok response, σ)
  end.

Definition apiGetProduct (productId : json) (response : result json) (σ : state)
  : result json * state :=
  let '(cached, σ) := ProductCache_getById (to_number (Some productId)) σ in
  match cached with
  | Some cached => (Ok (JObj [(str "product", cached)]), σ)
  | None => (response, σ)
  end.

(** The clock moves on by [d] milliseconds. *)
Definition elapse (d : Z) (σ : state) : state :=
  State (localStorage σ) (products_store σ) (db_ok σ) (now σ + d) (pending σ).

(** ** Reading the persisted entries *)

(** The field [k] of the metadata entry, when the entry parses. *)
Definition products_meta_field (k : jsstring) (σ : state) : option json :=
  match getItem PRODUCTS_CACHE_KEY σ with
  | Some meta =>
      match JSON_parse meta with
      | Ok v => get_prop_opt v k
      | Throw _ => None
      end
  | None => None
  end.

(** What the user slot decodes to, when it does. *)
Definition user_blob (σ : state) : option json :=
  match getItem USER_CACHE_KEY σ with
  | Some encoded =>
      match atob encoded with
      | Ok decoded =>
          match JSON_parse decoded with
          | Ok cacheData => Some cacheData
          | Throw _ => None
          end
      | Throw _ => None
      end
  | None => None
  end.

(** [p.id] of a product. *)
Definition product_id (p : json) : option json := get_prop_opt p (str "id").

Definition absent (k : jsstring) (o : list (jsstring * json)) : bool :=
  match obj_get k o with
  | None => true
  | Some _ => false
  end.

(** A product record: an object with a numeric [id] and without the two
    fields the cache adds to what it stores. *)
Definition is_product_record (p : json) : bool :=
  match p with
  | JObj o =>
      match obj_get (str "id") o with
      | Some (JNum _) => true
      | _ => false
      end
      && absent (str "_cached_at") o && absent (str "_hash") o
  | _ => false
  end.

(** ** Sample data *)

Definition rose : json :=
  JObj [(str "id", JNum 1); (str "name", JStr (str "Rose")); (str "stock", JNum 4)].

Definition oud : json :=
  JObj [(str "id", JNum 2); (str "name", JStr (str "Oud")); (str "stock", JNum 9)].

(** Nothing cached, the database available, the clock at 1000. *)
Definition empty_state : state := State ∅ [] true 1000 [].

(** The catalog cached at 1000. *)
Definition catalog_state : state :=
  await (ProductCache_set [rose; oud]) empty_state.

(** Fresh metadata that counts two records over a store that holds one. *)
Definition torn_state : state :=
  State {[ PRODUCTS_CACHE_KEY :=
             JSON_stringify (products_meta 1000 2 (generateHash (JArr [rose; oud]))) ]}
    [cached_record 1000 rose] true 1500 [].

(** The store with the [_hash] of every record replaced by what [h] gives. *)
Definition rehash (h : record -> json) (σ : state) : state :=
  State (localStorage σ)
    (map (fun r => obj_set (str "_hash") (h r) r) (products_store σ))
    (db_ok σ) (now σ) (pending σ).

Definition asha : json :=
  JObj [(str "email", JStr (str "asha@example.com")); (str "first_name", JStr (str "Aa"))].

(** [asha] with another first name, which hashes to the same value. *)
Definition asha_renamed : json :=
  JObj [(str "email", JStr (str "asha@example.com")); (str "first_name", JStr (str "BB"))].

(** The profile cached at 1000. *)
Definition signed_in_state : state := UserCache_set asha empty_state.

(** The slot of [signed_in_state] with the payload replaced and the stored
    timestamp and hash kept. *)
Definition tampered_state : state :=
  setItem USER_CACHE_KEY
    (try_catch
       (btoa (JSON_stringify
                (JObj [(str "data", asha_renamed); (str "timestamp", JNum 1000);
                       (str "hash", JStr (generateHash asha));
                       (str "_version", JNum DB_VERSION)])))
       (fun _ => []))
    signed_in_state.

(** The catalog and the profile cached at 1000, read one millisecond after
    the freshness window. *)
Definition stale_state : state :=
  elapse (CACHE_DURATION + 1) (UserCache_set asha catalog_state).

(** * More of the code *)

(** ** [generateHash], arithmetically *)

(** The hash the loop computes without the 32-bit wrap: each code unit adds
    to 31 times what came before. *)
Definition poly31 (s : jsstring) : Z := fold_left (fun h c => 31 * h + c) s 0.

(** The digit a character of [toString(36)] stands for. *)
Definition digit36_value (c : Z) : Z := if c <? 58 then c - 48 else c - 87.

(** [parseInt(s, 36)] on digits. *)
Definition of_base36 (s : jsstring) : Z :=
  fold_left (fun v c => v * 36 + digit36_value c) s 0.

(** A character of [0-9a-z]. *)
Definition base36_char (c : Z) : Prop := 48 <= c <= 57 \/ 97 <= c <= 122.

(** ** The key of what [ProductCache.set] stores *)

(** The [id] of [{ ...product, _cached_at, _hash }], which the store takes as
    the key of the record. *)
Definition product_key (product : json) : option json :=
  obj_get (str "id") (spread product).

(** Whether [store.add] takes the record made for [product]. *)
Definition storable (product : json) : bool :=
  match product_key product with
  | Some k => valid_key k
  | None => false
  end.

(** Whether [p.id === id] for a number [id]. *)
Definition has_id (id : Z) (p : json) : bool :=
  match product_id p with
  | Some (JNum z) => id =? z
  | _ => false
  end.

(** ** The wrappers of [api.ts] that read through the cache *)

(** Each takes what its request settles to, and after how long: [latency]
    milliseconds pass between the request and the response. *)

(** [apiGetCurrentUser()] *)
Definition apiGetCurrentUser (response : result json) (latency : Z) (σ : state)
  : result json * state :=
  let '(cached, σ) := UserCache_get σ in
  if truthy (Some cached) then (Ok (JObj [(str "user", cached)]), σ)
  else
    let σ := elapse latency σ in
    match response with
    | Throw e => (Throw e, σ)
    | Ok response =>
        let user := get_prop_opt response (str "user") in
        match user with
        | Some user' =>
            if truthy user then (Ok response, UserCache_set user' σ)
            else (Ok response, σ)
        | None => (Ok response, σ)
        end
    end.

(** [ProductCache.set(products)], once the database has answered, for a
    truthy value that is no array: [for (const product of products)] throws
    a [TypeError] on a value that cannot be iterated, and [store.add] a
    [DataError] on the first character of a string, which has no [id].  By
    then [store.clear()] has run, and the metadata is not reached. *)
Definition set_task_no_array (σ : state) : state :=
  match initDB σ with
  | Throw _ => σ
  | Ok _ => commit (store_clear (Txn (products_store σ) false)) σ
  end.

(** The part of [apiGetProducts] after the miss. *)
Definition fetch_products (response : result json) (latency : Z) (σ : state)
  : result json * state :=
  let σ := elapse latency σ in
  match response with
  | Throw e => (Throw e, σ)
  | Ok response =>
      let products := get_prop_opt response (str "products") in
      match products with
      | Some (JArr products) => (Ok response, await (ProductCache_set products) σ)
      | _ =>
          if truthy products then (Ok response, set_task_no_array (flush σ))
          else (Ok response, σ)
      end
  end.

(** [apiGetProducts()].  The clock is read twice on the way to a hit: by
    [ProductCache.get()] before it opens the database, and by
    [ProductCache.isExpired()] once [get()] has resolved, [wait]
    milliseconds later.  [ProductCache.isExpired()] may throw, and then the
    call is rejected. *)
Definition apiGetProducts (response : result json) (wait latency : Z) (σ : state)
  : result json * state :=
  let '(cached, σ) := ProductCache_get σ in
  let σ := elapse wait σ in
  match cached with
  | Some cached =>
      match ProductCache_isExpired σ with
      | Throw e => (Throw e, σ)
      | Ok false => (Ok (JObj [(str "products", JArr cached)]), σ)
      | Ok true => fetch_products response latency σ
      end
  | None => fetch_products response latency σ
  end.

(** ** The token ([api.ts]) and [logout] ([AuthContext.tsx]) *)

Definition TOKEN_KEY : string := "spAromaToken".

(** [setAuthToken(token)]; [None] is [null]. *)
Definition setAuthToken (token : option jsstring) (σ : state) : state :=
  match present token with
  | Some token => setItem TOKEN_KEY token σ
  | None => removeItem TOKEN_KEY σ
  end.

Definition getAuthToken (σ : state) : option jsstring :=
  getItem TOKEN_KEY σ.

(** [authHeaders(token)]; [None] is an argument left out. *)
Definition authHeaders (token : option jsstring) (σ : state)
  : list (jsstring * jsstring) :=
  let t := match token with Some t => Some t | None => getAuthToken σ end in
  match present t with
  | Some t => [(str "Authorization", str "Bearer " ++ t)]
  | None => []
  end.

(** What [logout()] of [AuthContext] does to [localStorage], whatever its
    request to the back end settles to. *)
Definition logout (σ : state) : state :=
  removeItem "spAromaIsSuper" (setAuthToken None σ).

(** ** Requests ([api.ts]) *)

(** [s.startsWith(searchString)] *)
Fixpoint startsWith (s searchString : jsstring) : bool :=
  match searchString, s with
  | [], _ => true
  | c :: searchString', d :: s' => (c =? d) && startsWith s' searchString'
  | _ :: _, [] => false
  end.

(** [s.includes(searchString)] *)
Fixpoint includes (s searchString : jsstring) : bool :=
  startsWith s searchString
  || match s with
     | [] => false
     | _ :: s' => includes s' searchString
     end.

(** [s.replace(/\/$/, '')]: without the [m] flag, [$] is the end of the
    string. *)
Fixpoint replace_trailing_slash (s : jsstring) : jsstring :=
  match s with
  | [] => []
  | c :: s' =>
      match s' with
      | [] => if c =? 47 then [] else [c]
      | _ :: _ => c :: replace_trailing_slash s'
      end
  end.

(** [resolveUrl(path)]; [API_BASE] is fixed when the bundle is built. *)
Definition resolveUrl (API_BASE path : jsstring) : jsstring :=
  let p := if startsWith path (str "/") then path else str "/" ++ path in
  match API_BASE with
  | [] => p
  | _ :: _ => replace_trailing_slash API_BASE ++ p
  end.

(** The values that [JSON.parse] gives back as they are from their text:
    every number is a safe integer, which a double holds exactly (beyond
    2^53 [JSON.parse] rounds), and no key begins with a digit, so that none
    is the text of an array index, which an object lists before its other
    keys. *)
Fixpoint exact_json (v : json) : bool :=
  match v with
  | JNum z => Z.abs z <? 2 ^ 53
  | JArr l => forallb exact_json l
  | JObj o =>
      forallb (fun kv =>
                 match fst kv with
                 | c :: _ => negb ((48 <=? c) && (c <=? 57))
                 | [] => true
                 end
                 && exact_json (snd kv)) o
  | _ => true
  end.

(** A [Response], as far as [parseResponse] reads it; [body] is the text of
    the body. *)
Record response := Response {
  status : Z;
  content_type : option jsstring;
  body : jsstring
}.

(** [res.ok] *)
Definition ok (res : response) : bool :=
  (200 <=? status res) && (status res <=? 299).

(** How [parseResponse(res)] settles: it resolves to a value, a text being
    the string [JStr text], or is rejected with [{ status, body }]. *)
Inductive settled :=
  | Resolved (value : json)
  | Rejected (status : Z) (body : json).

(** [ct.includes('application/json')] for the [ct] of [parseResponse] *)
Definition json_content (res : response) : bool :=
  let ct := default [] (present (content_type res)) in
  includes ct (str "application/json").

(** [parseResponse(res)].  In the second half the [catch] binds nothing: it
    catches the [{ status, body: json }] thrown in the [try] as it catches
    the [SyntaxError] of [JSON.parse]. *)
Definition parseResponse (res : response) : settled :=
  if json_content res then
    let json := try_catch (JSON_parse (body res)) (fun _ => JNull) in
    if negb (ok res) then Rejected (status res) json else Resolved json
  else
    let text := body res in
    let tried : option json :=
      match (match text with [] => Ok JNull | _ :: _ => JSON_parse text end) with
      | Ok json => if negb (ok res) then None else Some json
      | Throw _ => None
      end in
    match tried with
    | Some json => Resolved json
    | None =>
        if negb (ok res) then Rejected (status res) (JStr text)
        else Resolved (JStr text)
    end.

(** ** Verification of a product ([api.ts]) *)

(** [x > 0] and [x < y] for a number [y] *)
Definition gt_zero (x : option json) : bool :=
  match to_number x with
  | Some n => 0 <? n
  | None => false
  end.

Definition less_than (x : option json) (y : Z) : bool :=
  match to_number x with
  | Some n => n <? y
  | None => false
  end.

(** [variants.find((v) => v.id === variantId)] for an array [variants] *)
Fixpoint find_variant (variantId : Z) (variants : list json)
  : result (option json) :=
  match variants with
  | [] => Ok None
  | v :: variants' =>
      v_id ← get_prop v (str "id");
      match v_id with
      | Some (JNum z) =>
          if z =? variantId then Ok (Some v)
          else find_variant variantId variants'
      | _ => find_variant variantId variants'
      end
  end.

(** What [apiVerifyProductData] resolves to. *)
Record verification := Verification {
  available : bool;
  price : option json;
  stock : option json;
  product : json;
  variant : option json
}.

(** How [apiVerifyProductData] and [addToCart] fail: with one of their own
    errors, or with what the request or a built-in threw. *)
Inductive failure :=
  | ProductNotFound
  | VariantNotFound
  | OutOfStock
  | OnlyInStock (stock : option json)
  | Raised (e : exn).

(** [apiVerifyProductData(productId, variantId)]; [None] is a [variantId]
    left out. *)
Definition apiVerifyProductData
  (productId : Z) (variantId : option Z) (response : result json)
  : failure + verification :=
  match response with
  | Throw e => inl (Raised e)
  | Ok response =>
      match get_prop_opt response (str "product") with
      | Some product =>
          if truthy (Some product) then
            let variants := get_prop_opt product (str "variants") in
            let product_data :=
              inr (Verification
                     (gt_zero (get_prop_opt product (str "stock_quantity")))
                     (get_prop_opt product (str "price"))
                     (get_prop_opt product (str "stock_quantity"))
                     product None) in
            match variantId with
            | Some variantId =>
                if negb (variantId =? 0) && truthy variants then
                  match variants with
                  | Some (JArr variants) =>
                      match find_variant variantId variants with
                      | Throw e => inl (Raised e)
                      | Ok None => inl VariantNotFound
                      | Ok (Some variant) =>
                          inr (Verification
                                 (gt_zero (get_prop_opt variant (str "stock_quantity")))
                                 (get_prop_opt variant (str "price"))
                                 (get_prop_opt variant (str "stock_quantity"))
                                 product (Some variant))
                      end
                  | _ => inl (Raised TypeError)
                  end
                else product_data
            | None => product_data
            end
          else inl ProductNotFound
      | None => inl ProductNotFound
      end
  end.

(** ** The local cart ([CartContext.tsx]) *)

(** The cart of a visitor who is not signed in ([user] is [null]), which is
    also what the cart falls back to when the back end fails.  Items are as
    [types] declares them: a product, which has a numeric [id], and a
    numeric [quantity]. *)
Record Product := {
  id : Z;
  variantId : option Z;
  fields : list (jsstring * json)
}.

Record CartItem := {
  item : Product;
  quantity : Z
}.

(** The update of [addToCart] *)
Definition addToCart_update (product : Product) (quantity' : Z)
  (prevItems : list CartItem) : list CartItem :=
  match find (fun i => id (item i) =? id product) prevItems with
  | Some existingItem =>
      map (fun i =>
             if id (item i) =? id product
             then {| item := item i; quantity := quantity i + quantity' |}
             else i)
        prevItems
  | None => prevItems ++ [{| item := product; quantity := quantity' |}]
  end.

(** [addToCart(product, quantity)]: the cart that follows, or the error
    thrown. *)
Definition addToCart (product : Product) (quantity' : Z)
  (response : result json) (cartItems : list CartItem)
  : failure + list CartItem :=
  match apiVerifyProductData (id product) (variantId product) response with
  | inl e => inl e
  | inr verification =>
      if negb (available verification) then inl OutOfStock
      else if less_than (stock verification) quantity'
      then inl (OnlyInStock (stock verification))
      else inr (addToCart_update product quantity' cartItems)
  end.

(** [removeFromCart(productId)] *)
Definition removeFromCart (productId : Z) (prevItems : list CartItem)
  : list CartItem :=
  filter (fun i => id (item i) <> productId) prevItems.

(** [updateItemQuantity(productId, quantity)] *)
Definition updateItemQuantity (productId quantity' : Z)
  (prevItems : list CartItem) : list CartItem :=
  if quantity' <=? 0 then removeFromCart productId prevItems
  else
    filter (fun i => 0 < quantity i)
      (map (fun i =>
              if id (item i) =? productId
              then {| item := item i; quantity := Z.max 0 quantity' |}
              else i)
         prevItems).

(** The ids of the items, in the order of the cart. *)
Definition cart_ids (cartItems : list CartItem) : list Z :=
  map (fun i => id (item i)) cartItems.

(** [cartCount] *)
Definition cartCount (cartItems : list CartItem) : Z :=
  fold_left (fun count i => count + quantity i) cartItems 0.

(** ** [fetchMe] ([AuthContext.tsx]) *)

(** [a || b] *)
Definition js_or (a b : option json) : option json :=
  if truthy a then a else b.

(** [{ ...v, [k]: x }] *)
Definition with_field (k : jsstring) (x : json) (v : json) : json :=
  JObj (obj_set k x (spread v)).

(** [data?.profile || data?.user || null] *)
Definition fetched_user (data : json) : json :=
  default JNull
    (js_or (js_or (get_prop_opt data (str "profile"))
                  (get_prop_opt data (str "user")))
       (Some JNull)).

(** [fetchMe()]: the [user] it sets, [JNull] being [null], and what it
    leaves in [localStorage].  [request] is how [getJson('/accounts/me')]
    settles, [None] when [fetch] itself fails. *)
Definition fetchMe (request : option settled) (σ : state) : json * state :=
  match present (getItem TOKEN_KEY σ) with
  | None => (JNull, σ)
  | Some token =>
      match request with
      | Some (Resolved data) =>
          let fetchedUser := fetched_user data in
          let fetchedUser :=
            match present (getItem "spAromaIsSuper" σ) with
            | Some su =>
                if truthy (Some fetchedUser)
                then with_field (str "is_superuser")
                       (JBool (bool_decide (su = str "true"))) fetchedUser
                else fetchedUser
            | None => fetchedUser
            end in
          let fetchedUser :=
            match get_prop_opt fetchedUser (str "is_superuser") with
            | Some is_superuser =>
                if truthy (Some fetchedUser) && truthy (Some is_superuser)
                then with_field (str "is_admin") is_superuser fetchedUser
                else fetchedUser
            | None => fetchedUser
            end in
          (fetchedUser, σ)
      | Some (Rejected status body) =>
          if status =? 401
          then (JNull, removeItem "spAromaIsSuper" (removeItem TOKEN_KEY σ))
          else (JNull, σ)
      | None => (JNull, σ)
      end
  end.

(** * Properties *)

(** ** The built-ins on sample inputs *)

Example stringify_ex :
  JSON_stringify (JObj [(str "id", JNum 7); (str "tags", JArr [JStr (str "a"); JNull])])
  = dq "{'id':7,'tags':['a',null]}".
Proof. vm_compute. reflexivity. Qed.

Example generateHash_ex : generateHash (JStr (str "Aa")) = str "n43k".
Proof. vm_compute. reflexivity. Qed.

Example parse_ex :
  JSON_parse (dq " {'id': 7, 'tags':['a\u0041',null], 'id':-8}")
  = Ok (JObj [(str "id", JNum (-8)); (str "tags", JArr [JStr (str "aA"); JNull])]).
Proof. vm_compute. reflexivity. Qed.

Example parse_truncated : JSON_parse (dq "{'timestamp':17") = Throw SyntaxError.
Proof. vm_compute. reflexivity. Qed.

Example parse_leading_zero : JSON_parse (str "017") = Throw SyntaxError.
Proof. vm_compute. reflexivity. Qed.

Example btoa_ex : btoa (str "Hello!!") = Ok (str "SGVsbG8hIQ==").
Proof. vm_compute. reflexivity. Qed.

Example atob_ex : atob (str "SGVsbG8hIQ==") = Ok (str "Hello!!").
Proof. vm_compute. reflexivity. Qed.

Example btoa_omega : btoa [937] = Throw InvalidCharacterError.
Proof. vm_compute. reflexivity. Qed.

(** ** [JSON.parse] reads back what [JSON.stringify] writes *)

Lemma hex_value_code d : 0 <= d < 16 -> hex_value (hex_code d) = Some d.
Proof.
  intros Hd.
  assert (Hn : d = Z.of_nat (Z.to_nat d)) by lia.
  rewrite Hn.
  assert (Hlt : (Z.to_nat d < 16)%nat) by lia.
  revert Hlt. generalize (Z.to_nat d). intros n Hlt.
  do 16 (destruct n as [|n]; [reflexivity|]). lia.
Qed.

Lemma parse_string_u_escape c r :
  code_unit c ->
  parse_string (u_escape c ++ r)
  = '(t, rest) ← parse_string r; Some (c :: t, rest).
Proof.
  intros Hc. unfold code_unit in Hc. unfold u_escape.
  cbn [app parse_string]. change (92 =? 34) with false.
  change (92 =? 92) with true. change (117 =? 117) with true. cbv iota.
  rewrite !hex_value_code by (apply Z.mod_pos_bound; lia).
  cbn [mbind option_bind].
  assert (Heq : ((c / 4096 mod 16 * 16 + c / 256 mod 16) * 16 + c / 16 mod 16) * 16
                + c mod 16 = c).
  { clear r. Z.div_mod_to_equations. lia. }
  rewrite Heq. reflexivity.
Qed.

Lemma parse_string_plain c r :
  32 <= c -> c <> 34 -> c <> 92 ->
  parse_string (c :: r) = '(t, rest) ← parse_string r; Some (c :: t, rest).
Proof.
  intros H1 H2 H3. cbn [parse_string].
  destruct (Z.eqb_spec c 34); [lia|].
  destruct (Z.eqb_spec c 92); [lia|].
  destruct (Z.ltb_spec c 32); [lia|]. reflexivity.
Qed.

Lemma parse_string_escape_char c r :
  code_unit c ->
  parse_string (escape_char c ++ r)
  = '(t, rest) ← parse_string r; Some (c :: t, rest).
Proof.
  intros Hc. unfold escape_char.
  destruct (Z.eqb_spec c 34) as [->|]; [reflexivity|].
  destruct (Z.eqb_spec c 92) as [->|]; [reflexivity|].
  destruct (Z.eqb_spec c 8) as [->|]; [reflexivity|].
  destruct (Z.eqb_spec c 12) as [->|]; [reflexivity|].
  destruct (Z.eqb_spec c 10) as [->|]; [reflexivity|].
  destruct (Z.eqb_spec c 13) as [->|]; [reflexivity|].
  destruct (Z.eqb_spec c 9) as [->|]; [reflexivity|].
  destruct (Z.ltb_spec c 32).
  - by apply parse_string_u_escape.
  - by apply parse_string_plain.
Qed.

Lemma parse_string_quote_body s rest :
  Forall code_unit s -> parse_string (quote_body s ++ rest) = Some (s, rest).
Proof.
  remember (length s) as n eqn:Hn.
  assert (Hle : (length s <= n)%nat) by lia. clear Hn.
  revert s Hle. induction n as [|n IH]; intros s Hle Hs.
  { destruct s; [reflexivity | simpl in Hle; lia]. }
  destruct s as [|c r]; [reflexivity|].
  apply Forall_cons in Hs as [Hc Hr]. simpl in Hle.
  assert (IHr : parse_string (quote_body r ++ rest) = Some (r, rest))
    by (apply IH; [lia | done]).
  cbn [quote_body].
  destruct (is_high_surrogate c) eqn:Hhigh.
  - unfold is_high_surrogate in Hhigh. apply andb_true_iff in Hhigh as [H1 H2].
    apply Z.leb_le in H1, H2.
    destruct r as [|d r'].
    + rewrite <- app_assoc, parse_string_u_escape by done. by rewrite IHr.
    + destruct (is_low_surrogate d) eqn:Hlow.
      * unfold is_low_surrogate in Hlow. apply andb_true_iff in Hlow as [H3 H4].
        apply Z.leb_le in H3, H4.
        apply Forall_cons in Hr as [Hd Hr']. simpl in Hle.
        rewrite <- !app_comm_cons.
        rewrite parse_string_plain by lia. rewrite parse_string_plain by lia.
        rewrite IH by (done || lia). reflexivity.
      * rewrite <- app_assoc, parse_string_u_escape by done. by rewrite IHr.
  - destruct (is_low_surrogate c).
    + rewrite <- app_assoc, parse_string_u_escape by done. by rewrite IHr.
    + rewrite <- app_assoc, parse_string_escape_char by done. by rewrite IHr.
Qed.

Lemma digit_of_ends_number c r : ends_number (c :: r) = true -> digit_of c = None.
Proof.
  unfold ends_number. intros H. apply andb_true_iff in H as [H _].
  apply negb_true_iff, bool_decide_eq_false in H.
  destruct (digit_of c); [|done]. destruct H. by eexists.
Qed.

Lemma read_uint_codes u rest :
  ends_number rest = true -> read_uint (uint_codes u ++ rest) = (u, rest).
Proof.
  intros Hrest. induction u; cbn [uint_codes app read_uint];
    try (change (digit_of (digit_code _)) with (Some D0)
         || change (digit_of (digit_code _)) with (Some D1)
         || change (digit_of (digit_code _)) with (Some D2)
         || change (digit_of (digit_code _)) with (Some D3)
         || change (digit_of (digit_code _)) with (Some D4)
         || change (digit_of (digit_code _)) with (Some D5)
         || change (digit_of (digit_code _)) with (Some D6)
         || change (digit_of (digit_code _)) with (Some D7)
         || change (digit_of (digit_code _)) with (Some D8)
         || change (digit_of (digit_code _)) with (Some D9));
    try (rewrite IHu; reflexivity).
  destruct rest as [|c r]; [reflexivity|].
  cbn [read_uint]. by rewrite (digit_of_ends_number c r).
Qed.

Lemma to_uint_normal n : unorm (N.to_uint n) = N.to_uint n.
Proof.
  rewrite <- DecimalN.Unsigned.to_of, DecimalN.Unsigned.of_to. reflexivity.
Qed.

Lemma parse_unsigned_codes n rest :
  ends_number rest = true ->
  parse_unsigned (uint_codes (N.to_uint n) ++ rest) = Some (Z.of_N n, rest).
Proof.
  intros Hrest. unfold parse_unsigned.
  rewrite read_uint_codes by done.
  rewrite to_uint_normal, Decimal.internal_uint_dec_lb by done.
  rewrite Hrest. cbn [andb]. by rewrite DecimalN.Unsigned.of_to.
Qed.

(** A number starts with a digit or a minus sign. *)
Definition number_start (c : Z) : Prop := c = 45 \/ 48 <= c <= 57.

Lemma uint_codes_head u :
  u <> Nil -> exists c t, uint_codes u = c :: t /\ 48 <= c <= 57.
Proof.
  destruct u; [done|..]; intros _; cbn [uint_codes]; unfold digit_code;
    eexists _, _; (split; [reflexivity | lia]).
Qed.

Lemma number_to_string_head z :
  exists c t, number_to_string z = c :: t /\ number_start c.
Proof.
  unfold number_to_string, number_start.
  destruct (z <? 0); [by eexists _, _; split; [reflexivity | left]|].
  destruct (uint_codes_head (N.to_uint (Z.abs_N z))) as (c & t & -> & Hc).
  { rewrite <- to_uint_normal. apply unorm_nonnil. }
  eexists _, _. split; [reflexivity | by right].
Qed.

Lemma parse_number_to_string z rest :
  ends_number rest = true ->
  parse_number (number_to_string z ++ rest) = Some (z, rest).
Proof.
  intros Hrest. unfold number_to_string.
  destruct (Z.ltb_spec z 0) as [Hneg | Hpos].
  - cbn [app parse_number]. change (45 =? 45) with true. cbv iota.
    rewrite parse_unsigned_codes by done. cbn [mbind option_bind].
    f_equal. f_equal. lia.
  - destruct (uint_codes_head (N.to_uint (Z.abs_N z))) as (c & t & Heq & Hc).
    { rewrite <- to_uint_normal. apply unorm_nonnil. }
    pose proof (parse_unsigned_codes (Z.abs_N z) rest Hrest) as Hp.
    rewrite Heq in *. cbn [app parse_number].
    destruct (Z.eqb_spec c 45); [lia|].
    cbn [app] in Hp. rewrite Hp. f_equal. f_equal. lia.
Qed.

(** The first character of a value. *)
Definition value_start (c : Z) : Prop :=
  c = 110 \/ c = 116 \/ c = 102 \/ c = 34 \/ c = 91 \/ c = 123 \/ number_start c.

Lemma stringify_arr_cons x l :
  JSON_stringify (JArr (x :: l)) = 91 :: JSON_stringify x ++ stringify_elements l.
Proof. reflexivity. Qed.

Lemma stringify_obj_cons k x o :
  JSON_stringify (JObj ((k, x) :: o))
  = 123 :: quote k ++ 58 :: JSON_stringify x ++ stringify_members o.
Proof. reflexivity. Qed.

Lemma stringify_head v :
  exists c t, JSON_stringify v = c :: t /\ value_start c.
Proof.
  unfold value_start. destruct v as [|[]|z|s|l|o].
  - eexists _, _. split; [reflexivity | tauto].
  - eexists _, _. split; [reflexivity | tauto].
  - eexists _, _. split; [reflexivity | tauto].
  - destruct (number_to_string_head z) as (c & t & Heq & Hc).
    exists c, t. cbn [JSON_stringify]. tauto.
  - eexists _, _. split; [reflexivity | tauto].
  - eexists _, _. split; [reflexivity | tauto].
  - eexists _, _. split; [reflexivity | tauto].
Qed.

Ltac z_neq :=
  repeat match goal with
         | |- context [Z.eqb ?a ?b] => destruct (Z.eqb_spec a b); [lia|]
         end.

Lemma parse_value_number f c t :
  number_start c ->
  parse_value (S f) (c :: t) = '(z, r') ← parse_number (c :: t); Some (JNum z, r').
Proof.
  intros [-> | Hc]; [reflexivity|].
  cbn [parse_value skip_ws]. unfold is_ws. z_neq. cbn [orb]. z_neq. reflexivity.
Qed.

Lemma parse_value_string f s rest :
  Forall code_unit s ->
  parse_value (S f) (quote s ++ rest) = Some (JStr s, rest).
Proof.
  intros Hs.
  change (parse_value (S f) (quote s ++ rest))
    with ('(t, r') ← parse_string (quote_body s ++ rest); Some (JStr t, r')).
  by rewrite parse_string_quote_body.
Qed.

Lemma parse_value_array f c t :
  value_start c ->
  parse_value (S f) (91 :: c :: t)
  = '(x, r1) ← parse_value f (c :: t);
    '(xs, r2) ← parse_elements f r1;
    Some (JArr (x :: xs), r2).
Proof.
  intros Hc.
  change (parse_value (S f) (91 :: c :: t))
    with (match skip_ws (c :: t) with
          | d :: r' =>
              if d =? 93 then Some (JArr [], r')
              else
                '(x, r1) ← parse_value f (c :: t);
                '(xs, r2) ← parse_elements f r1;
                Some (JArr (x :: xs), r2)
          | [] => None
          end).
  unfold value_start, number_start in Hc.
  cbn [skip_ws]. unfold is_ws. z_neq. cbn [orb]. z_neq. reflexivity.
Qed.

Lemma parse_member_quote pv k s :
  Forall code_unit k ->
  parse_member pv (quote k ++ 58 :: s) = '(x, r3) ← pv s; Some ((k, x), r3).
Proof.
  intros Hk.
  change (parse_member pv (quote k ++ 58 :: s))
    with ('(k', r1) ← parse_string (quote_body k ++ 58 :: s);
          match skip_ws r1 with
          | d :: r2 =>
              if d =? 58 then '(x, r3) ← pv r2; Some ((k', x), r3) else None
          | [] => None
          end).
  by rewrite parse_string_quote_body.
Qed.

Lemma ends_number_elements l rest :
  ends_number (stringify_elements l ++ rest) = true.
Proof. by destruct l. Qed.

Lemma ends_number_members o rest :
  ends_number (stringify_members o ++ rest) = true.
Proof. by destruct o as [|[]]. Qed.

Lemma obj_set_fresh k v o :
  k ∉ map fst o -> obj_set k v o = o ++ [(k, v)].
Proof.
  induction o as [|[k' v'] o IH]; intros Hk; [reflexivity|].
  cbn [map fst] in Hk. apply not_elem_of_cons in Hk as [Hne Hk].
  cbn [obj_set]. rewrite bool_decide_eq_false_2 by congruence.
  by rewrite IH.
Qed.

Lemma obj_of_app acc o :
  NoDup (map fst (acc ++ o)) ->
  fold_left (fun o kv => obj_set (fst kv) (snd kv) o) o acc = acc ++ o.
Proof.
  revert acc. induction o as [|[k v] o IH]; intros acc Hnd.
  - by rewrite app_nil_r.
  - cbn [fold_left fst snd].
    rewrite obj_set_fresh.
    + rewrite IH; rewrite <- app_assoc; done.
    + rewrite map_app in Hnd. apply NoDup_app in Hnd as (_ & Hdisj & _).
      intros Hin. apply (Hdisj k Hin). cbn. left.
Qed.

Lemma obj_of_NoDup o : NoDup (map fst o) -> obj_of o = o.
Proof. intros H. unfold obj_of. by rewrite obj_of_app. Qed.

(** The statement proved by induction on the value. *)
Definition reads_back (v : json) : Prop :=
  wf_json v -> forall fuel rest,
    (size v <= fuel)%nat -> ends_number rest = true ->
    parse_value fuel (JSON_stringify v ++ rest) = Some (v, rest).

Lemma parse_elements_stringify l :
  Forall reads_back l ->
  fold_right (fun x P => wf_json x /\ P) True l ->
  forall fuel rest,
    (S (fold_right (fun x n => S (size x + n)) O l) <= fuel)%nat ->
    ends_number rest = true ->
    parse_elements fuel (stringify_elements l ++ rest) = Some (l, rest).
Proof.
  induction 1 as [|x l Hx _ IH]; intros Hwf fuel rest Hfuel Hrest;
    (destruct fuel as [|f]; [lia|]).
  - reflexivity.
  - cbn [fold_right] in Hwf, Hfuel. destruct Hwf as [Hwx Hwl].
    cbn [stringify_elements]. rewrite <- app_comm_cons, <- app_assoc.
    change (parse_elements (S f) (44 :: ?s))
      with ('(x, r1) ← parse_value f s;
            '(xs, r2) ← parse_elements f r1; Some (x :: xs, r2)).
    rewrite (Hx Hwx) by (lia || apply ends_number_elements).
    cbn [mbind option_bind]. rewrite IH by (done || lia). reflexivity.
Qed.

Lemma parse_members_stringify o :
  Forall (fun kv => reads_back (snd kv)) o ->
  fold_right (fun kv P => Forall code_unit (fst kv) /\ wf_json (snd kv) /\ P) True o ->
  forall fuel rest,
    (S (fold_right (fun kv n => S (size (snd kv) + n)) O o) <= fuel)%nat ->
    ends_number rest = true ->
    parse_members fuel (stringify_members o ++ rest) = Some (o, rest).
Proof.
  induction 1 as [|[k x] o Hx _ IH]; intros Hwf fuel rest Hfuel Hrest;
    (destruct fuel as [|f]; [lia|]).
  - reflexivity.
  - cbn [fold_right fst snd] in Hwf, Hfuel, Hx. destruct Hwf as (Hk & Hwx & Hwo).
    cbn [stringify_members]. rewrite <- app_comm_cons.
    change (parse_members (S f) (44 :: ?s))
      with ('(m, r1) ← parse_member (parse_value f) s;
            '(ms, r2) ← parse_members f r1; Some (m :: ms, r2)).
    rewrite <- !app_assoc, <- app_comm_cons, parse_member_quote by done.
    rewrite <- app_assoc.
    rewrite (Hx Hwx) by (lia || apply ends_number_members).
    cbn [mbind option_bind]. rewrite IH by (done || lia). reflexivity.
Qed.

Lemma parse_value_stringify v : reads_back v.
Proof.
  induction v as [|b|z|s|l IH|o IH] using json_ind'; intros Hwf fuel rest Hfuel Hrest;
    (destruct fuel as [|f]; [cbn in Hfuel; lia|]).
  - reflexivity.
  - by destruct b.
  - cbn [JSON_stringify].
    destruct (number_to_string_head z) as (c & t & Heq & Hc).
    pose proof (parse_number_to_string z rest Hrest) as Hp.
    rewrite Heq in *. rewrite <- app_comm_cons, parse_value_number by done.
    rewrite <- app_comm_cons in Hp. by rewrite Hp.
  - by apply parse_value_string.
  - destruct l as [|x l]; [reflexivity|].
    apply Forall_cons in IH as [Hx Hl].
    cbn [wf_json fold_right] in Hwf. destruct Hwf as [Hwx Hwl].
    cbn [size fold_right] in Hfuel.
    rewrite stringify_arr_cons, <- app_comm_cons, <- app_assoc.
    pose proof (Hx Hwx f (stringify_elements l ++ rest)) as Hpx.
    destruct (stringify_head x) as (c & t & Heq & Hc).
    rewrite Heq in *. rewrite <- app_comm_cons in *.
    rewrite parse_value_array by done.
    rewrite Hpx by (lia || apply ends_number_elements).
    cbn [mbind option_bind].
    rewrite parse_elements_stringify by (done || lia). reflexivity.
  - destruct o as [|[k x] o]; [reflexivity|].
    apply Forall_cons in IH as [Hx Ho].
    cbn [wf_json fold_right fst snd] in Hwf, Hx.
    destruct Hwf as (Hnd & Hk & Hwx & Hwo).
    cbn [size fold_right snd] in Hfuel.
    rewrite stringify_obj_cons, <- app_comm_cons.
    change (parse_value (S f) (123 :: ?s))
      with (match skip_ws s with
            | d :: r' =>
                if d =? 125 then Some (JObj [], r')
                else
                  '(m, r1) ← parse_member (parse_value f) s;
                  '(ms, r2) ← parse_members f r1;
                  Some (JObj (obj_of (m :: ms)), r2)
            | [] => None
            end).
    change (skip_ws ((quote k ++ ?s) ++ rest)) with ((quote k ++ s) ++ rest).
    change (match (quote k ++ ?s) ++ rest with
            | d :: r' => if d =? 125 then ?a else ?b
            | [] => ?c
            end) with b.
    rewrite <- !app_assoc, <- app_comm_cons, parse_member_quote by done.
    rewrite <- app_assoc.
    rewrite (Hx Hwx) by (lia || apply ends_number_members).
    cbn [mbind option_bind].
    rewrite parse_members_stringify by (done || lia).
    cbn [mbind option_bind]. by rewrite obj_of_NoDup.
Qed.

Lemma length_stringify v : (size v <= length (JSON_stringify v))%nat.
Proof.
  induction v as [|b|z|s|l IH|o IH] using json_ind'.
  - cbn. lia.
  - destruct b; cbn; lia.
  - cbn [JSON_stringify size].
    destruct (number_to_string_head z) as (c & t & -> & _). cbn. lia.
  - cbn. lia.
  - destruct l as [|x l]; [cbn; lia|].
    apply Forall_cons in IH as [Hx Hl].
    rewrite stringify_arr_cons. cbn [size fold_right length].
    rewrite length_app.
    assert (S (fold_right (fun x n => S (size x + n)) O l)
            <= length (stringify_elements l))%nat; [|lia].
    clear Hx. induction Hl as [|y l Hy _ IHl]; [cbn; lia|].
    cbn [fold_right stringify_elements length]. rewrite length_app. lia.
  - destruct o as [|[k x] o]; [cbn; lia|].
    apply Forall_cons in IH as [Hx Ho]. cbn [snd] in Hx.
    rewrite stringify_obj_cons. cbn [size fold_right length snd].
    rewrite length_app. cbn [length]. rewrite length_app.
    assert (S (fold_right (fun kv : jsstring * json => fun n => S (size (snd kv) + n)) O o)
            <= length (stringify_members o))%nat; [|lia].
    clear Hx. induction Ho as [|[k' y] o Hy _ IHo]; [cbn; lia|].
    cbn [fold_right stringify_members length snd] in *.
    rewrite length_app. cbn [length]. rewrite length_app. lia.
Qed.

(** [JSON.parse(JSON.stringify(v))] is [v]. *)
Lemma JSON_parse_stringify v :
  wf_json v -> JSON_parse (JSON_stringify v) = Ok v.
Proof.
  intros Hwf. unfold JSON_parse.
  pose proof (parse_value_stringify v Hwf (length (JSON_stringify v)) []
                (length_stringify v) eq_refl) as Hp.
  rewrite app_nil_r in Hp. by rewrite Hp.
Qed.

Lemma forallb_code_unit s :
  forallb (fun c => (0 <=? c) && (c <? 65536)) s = true -> Forall code_unit s.
Proof.
  intros H. apply Forall_forall. intros c Hc.
  rewrite List.forallb_forall in H. apply list_elem_of_In, H in Hc.
  unfold code_unit. lia.
Qed.

Lemma wf_jsonb_correct v : wf_jsonb v = true -> wf_json v.
Proof.
  induction v as [|b|z|s|l IH|o IH] using json_ind'; cbn [wf_jsonb wf_json]; try done.
  - apply forallb_code_unit.
  - induction IH as [|x l Hx _ IHl]; [done|].
    cbn [forallb fold_right]. intros [H1 H2]%andb_true_iff. auto.
  - intros [Hnd Hall]%andb_true_iff. split; [by apply bool_decide_eq_true in Hnd|].
    clear Hnd. induction IH as [|[k x] o Hx _ IHo]; [done|].
    cbn [forallb fold_right fst snd] in *.
    apply andb_true_iff in Hall as [[Hk Hwx]%andb_true_iff Hall].
    auto using forallb_code_unit.
Qed.

(** ** The calls waiting for the database *)

Lemma run_task_db_ok t σ : db_ok (run_task t σ) = db_ok σ.
Proof.
  destruct t as [products|]; cbn [run_task]; unfold set_task, clear_task.
  - destruct (initDB σ); [|reflexivity].
    destruct (add_products _ _ _) as [t [[]|e]]; reflexivity.
  - destruct (initDB σ); reflexivity.
Qed.

Lemma run_task_now t σ : now (run_task t σ) = now σ.
Proof.
  destruct t as [products|]; cbn [run_task]; unfold set_task, clear_task.
  - destruct (initDB σ); [|reflexivity].
    destruct (add_products _ _ _) as [t [[]|e]]; reflexivity.
  - destruct (initDB σ); reflexivity.
Qed.

Lemma run_task_pending t σ : pending (run_task t σ) = pending σ.
Proof.
  destruct t as [products|]; cbn [run_task]; unfold set_task, clear_task.
  - destruct (initDB σ); [|reflexivity].
    destruct (add_products _ _ _) as [t [[]|e]]; reflexivity.
  - destruct (initDB σ); reflexivity.
Qed.

Lemma serve_invariant ts σ :
  let σ' := fold_left (fun σ t => run_task t σ) ts σ in
  db_ok σ' = db_ok σ /\ now σ' = now σ /\ pending σ' = pending σ.
Proof.
  revert σ. induction ts as [|t ts IH]; intros σ; [done|].
  cbn [fold_left]. destruct (IH (run_task t σ)) as (H1 & H2 & H3).
  cbn zeta. rewrite H1, H2, H3.
  by rewrite run_task_db_ok, run_task_now, run_task_pending.
Qed.

Lemma flush_db_ok σ : db_ok (flush σ) = db_ok σ.
Proof. unfold flush. by rewrite (proj1 (serve_invariant _ _)). Qed.

Lemma flush_now σ : now (flush σ) = now σ.
Proof. unfold flush. by rewrite (proj1 (proj2 (serve_invariant _ _))). Qed.

Lemma flush_pending σ : pending (flush σ) = [].
Proof. unfold flush. by rewrite (proj2 (proj2 (serve_invariant _ _))). Qed.

(** With no call waiting there is nothing to serve. *)
Lemma flush_quiescent σ : pending σ = [] -> flush σ = σ.
Proof. destruct σ. cbn. by intros ->. Qed.

Lemma flush_enqueue t σ : flush (enqueue t σ) = run_task t (flush σ).
Proof. unfold flush, enqueue. cbn. by rewrite fold_left_app. Qed.

Lemma clear_task_store σ :
  db_ok σ = true ->
  products_store (clear_task σ) = []
  /\ getItem PRODUCTS_CACHE_KEY (clear_task σ) = None.
Proof.
  intros Hok. unfold clear_task, initDB. rewrite Hok. cbn.
  split; [reflexivity|]. unfold getItem. cbn [localStorage]. apply lookup_delete_eq.
Qed.

(** [ProductCache.get()] resolves to [null] when the store it reads is empty
    or cannot be opened. *)
Lemma ProductCache_get_null σ :
  (db_ok σ = true -> products_store (flush σ) = []) ->
  fst (ProductCache_get σ) = None.
Proof.
  intros Hempty. unfold ProductCache_get.
  destruct (present _) as [meta|]; [|reflexivity].
  destruct (_ ≫= _) as [timestamp|e]; [|reflexivity].
  destruct (expired _ _); [reflexivity|].
  cbn zeta. unfold initDB. rewrite flush_db_ok.
  destruct (db_ok σ); [|reflexivity].
  by rewrite Hempty.
Qed.

Lemma JSON_parse_nil : JSON_parse [] = Throw SyntaxError.
Proof. reflexivity. Qed.

(** With fresh metadata, [ProductCache.get()] resolves to the records of the
    store, or to [null] when there is none. *)
Lemma ProductCache_get_fresh σ ts :
  products_meta_field (str "timestamp") σ = Some (JNum ts) ->
  now σ - ts <= CACHE_DURATION ->
  db_ok σ = true ->
  ProductCache_get σ
  = (or_null (map strip (products_store (flush σ))), flush σ).
Proof.
  unfold products_meta_field, ProductCache_get. intros Hmeta Hfresh Hok.
  destruct (getItem PRODUCTS_CACHE_KEY σ) as [meta|]; [|done].
  destruct meta as [|c meta]; [done|]. cbn [present].
  destruct (JSON_parse (c :: meta)) as [v|e]; [|done].
  destruct v as [| | | | |o]; try done.
  cbn [mbind result_bind get_prop]. cbn [get_prop_opt] in Hmeta. rewrite Hmeta.
  unfold expired. cbn [to_number].
  destruct (Z.ltb_spec CACHE_DURATION (now σ - ts)); [lia|].
  cbn zeta. unfold initDB. by rewrite flush_db_ok, Hok.
Qed.

(** *** When a clearing of the product cache has been started *)

Lemma flush_ends_with_clear σ l :
  pending σ = l ++ [TClear] ->
  db_ok σ = true ->
  products_store (flush σ) = [].
Proof.
  intros Hp Hok. unfold flush. rewrite Hp, fold_left_app. cbn [fold_left run_task].
  apply clear_task_store.
  by rewrite (proj1 (serve_invariant _ _)).
Qed.

Lemma serve_db_ok n σ : db_ok (serve n σ) = db_ok σ.
Proof. unfold serve. by rewrite (proj1 (serve_invariant _ _)). Qed.

Lemma serve_pending n σ : pending (serve n σ) = drop n (pending σ).
Proof. unfold serve. by rewrite (proj2 (proj2 (serve_invariant _ _))). Qed.

(** The calls on the product cache leave the user slot alone. *)
Lemma run_task_user_slot t σ :
  getItem USER_CACHE_KEY (run_task t σ) = getItem USER_CACHE_KEY σ.
Proof.
  destruct t as [products|]; cbn [run_task]; unfold set_task, clear_task.
  - destruct (initDB σ); [|reflexivity].
    destruct (add_products _ _ _) as [t [[]|e]]; [|reflexivity].
    cbn [mbind result_bind try_catch]. unfold getItem, commit, setItem.
    cbn [localStorage]. by apply lookup_insert_ne.
  - destruct (initDB σ); [|reflexivity].
    unfold getItem, commit, removeItem, store_clear. cbn [localStorage].
    by apply lookup_delete_ne.
Qed.

Lemma serve_user_slot n σ :
  getItem USER_CACHE_KEY (serve n σ) = getItem USER_CACHE_KEY σ.
Proof.
  unfold serve.
  change (getItem USER_CACHE_KEY σ)
    with (getItem USER_CACHE_KEY
            (State (localStorage σ) (products_store σ) (db_ok σ) (now σ)
               (drop n (pending σ)))).
  generalize (State (localStorage σ) (products_store σ) (db_ok σ) (now σ)
                (drop n (pending σ))).
  induction (take n (pending σ)) as [|t ts IH]; intros s; [done|].
  cbn [fold_left]. by rewrite IH, run_task_user_slot.
Qed.

(** Once [ProductCache.clear()] has been called, a [ProductCache.get()] made
    at any later moment, however many of the waiting calls the database has
    served in between, resolves to [null]. *)
Lemma ProductCache_get_after_clear σ l n d :
  pending σ = l ++ [TClear] ->
  fst (ProductCache_get (elapse d (serve n σ))) = None.
Proof.
  intros Hp. apply ProductCache_get_null.
  cbn [elapse db_ok]. rewrite serve_db_ok. intros Hok.
  destruct (decide (n <= length l)%nat) as [Hn | Hn].
  - apply (flush_ends_with_clear _ (drop n l)); [|by cbn; rewrite serve_db_ok].
    cbn [elapse pending]. rewrite serve_pending, Hp. by apply drop_app_le.
  - assert (Hserved : products_store (serve n σ) = []).
    { unfold serve. rewrite Hp, take_ge by (rewrite length_app; cbn; lia).
      rewrite fold_left_app. cbn [fold_left run_task].
      apply clear_task_store. by rewrite (proj1 (serve_invariant _ _)). }
    rewrite flush_quiescent; [done|].
    cbn [elapse pending]. rewrite serve_pending, Hp.
    apply drop_ge. rewrite length_app. cbn. lia.
Qed.

(** ** C7: invalidation of everything *)

(** C7.  In every state, once [invalidateCache('all')] has returned, at any
    later moment ([d] milliseconds later, the database having served [n] of
    the waiting calls), [ProductCache.get()] resolves to [null] and
    [UserCache.get()] returns [null]: the user slot is removed at once, and
    the clearing of the product store, which is only started, is served
    before the read that follows. *)
Theorem invalidateCache_all_then_gets_null (σ : state) (n : nat) (d : Z) :
  let σ' := elapse d (serve n (invalidateCache (Some All) σ)) in
  fst (ProductCache_get σ') = None /\ fst (UserCache_get σ') = JNull.
Proof.
  cbn zeta. split.
  - by apply (ProductCache_get_after_clear _ (pending σ)).
  - unfold UserCache_get.
    change (getItem USER_CACHE_KEY (elapse d ?s)) with (getItem USER_CACHE_KEY s).
    rewrite serve_user_slot.
    unfold invalidateCache, UserCache_clear, getItem, removeItem.
    cbn [localStorage]. by rewrite lookup_delete_eq.
Qed.

(** ** C6: checkout *)

(** When [apiCheckout] resolves after a successful order, the clearing of the
    product cache has been started and nothing else has happened: the
    metadata entry and the stored records are still there. *)
Lemma apiCheckout_starts_clear response σ :
  truthy (get_prop_opt response (str "order"))
  || truthy (get_prop_opt response (str "success")) = true ->
  apiCheckout (Ok response) σ = (Ok response, enqueue TClear σ).
Proof. intros H. unfold apiCheckout. by rewrite H. Qed.

(** C6, as amended.  When the response of the checkout has a truthy [order]
    or [success] field, [apiCheckout] resolves to that response and a
    [ProductCache.get()] made at any moment after it ([d] milliseconds later,
    the database having served [n] of the waiting calls) resolves to
    [null]. *)
Theorem apiCheckout_then_get_null (response : json) (σ : state) (n : nat) (d : Z) :
  truthy (get_prop_opt response (str "order"))
  || truthy (get_prop_opt response (str "success")) = true ->
  fst (apiCheckout (Ok response) σ) = Ok response
  /\ fst (ProductCache_get
            (elapse d (serve n (snd (apiCheckout (Ok response) σ))))) = None.
Proof.
  intros H. rewrite apiCheckout_starts_clear by done. cbn [fst snd].
  split; [reflexivity|].
  by apply (ProductCache_get_after_clear _ (pending σ)).
Qed.

Lemma apiCheckout_then_get_null_witness :
  fst (apiCheckout (Ok (JObj [(str "order", JObj [(str "id", JNum 31)])])) catalog_state)
  = Ok (JObj [(str "order", JObj [(str "id", JNum 31)])])
  /\ fst (ProductCache_get
            (elapse 0
               (serve 0
                  (snd (apiCheckout
                          (Ok (JObj [(str "order", JObj [(str "id", JNum 31)])]))
                          catalog_state))))) = None.
Proof.
  apply (apiCheckout_then_get_null
           (JObj [(str "order", JObj [(str "id", JNum 31)])]) catalog_state 0 0).
  reflexivity.
Defined.

(** At that moment the cache is still populated: the metadata is there and
    fresh, and the store holds the catalog. *)
Example apiCheckout_resolves_before_clear :
  let σ := snd (apiCheckout (Ok (JObj [(str "order", JObj [(str "id", JNum 31)])]))
                  catalog_state) in
  pending σ = [TClear]
  /\ ProductCache_isExpired σ = Ok false
  /\ map strip (products_store σ) = [rose; oud].
Proof. vm_compute. done. Qed.

(** C6, as stated, fails: a response with a [success] field that is [false]
    leaves the populated cache as it is, and [ProductCache.get()] still
    resolves to the catalog. *)
Lemma apiCheckout_success_false_keeps_cache :
  let response := JObj [(str "success", JBool false)] in
  get_prop_opt response (str "success") = Some (JBool false)
  /\ fst (ProductCache_get catalog_state) = Some [rose; oud]
  /\ snd (apiCheckout (Ok response) catalog_state) = catalog_state
  /\ fst (ProductCache_get (snd (apiCheckout (Ok response) catalog_state)))
     = Some [rose; oud].
Proof. vm_compute. done. Qed.

(** ** C1: the count of the metadata *)

(** C1, as stated, fails: the metadata is fresh and counts two records, the
    store holds one, and [ProductCache.get()] resolves to that record. *)
Lemma torn_cache_is_served :
  products_meta_field (str "timestamp") torn_state = Some (JNum 1000)
  /\ now torn_state - 1000 <= CACHE_DURATION
  /\ products_meta_field (str "count") torn_state = Some (JNum 2)
  /\ length (products_store torn_state) = 1%nat
  /\ fst (ProductCache_get torn_state) = Some [rose].
Proof. vm_compute. intuition discriminate. Qed.

(** Such a state is what [set] leaves when a record of the list has no
    [id]: [store.add] throws on it, the records added before it are kept and
    the metadata of the previous catalog stays. *)
Example torn_state_arises :
  let σ := await (ProductCache_set [rose; JObj [(str "name", JStr (str "Sample"))]])
             catalog_state in
  products_meta_field (str "count") σ = Some (JNum 2)
  /\ map strip (products_store σ) = [rose]
  /\ fst (ProductCache_get σ) = Some [rose].
Proof. vm_compute. done. Qed.

(** C1, as amended.  When the metadata is fresh and its count differs from
    the number of stored records, [ProductCache.get()] does not look at the
    count: it resolves to the stored records, their cache fields removed, and
    to [null] only when the store is empty. *)
Theorem ProductCache_get_ignores_count (σ : state) (ts count : Z) :
  products_meta_field (str "timestamp") σ = Some (JNum ts) ->
  now σ - ts <= CACHE_DURATION ->
  products_meta_field (str "count") σ = Some (JNum count) ->
  count <> Z.of_nat (length (products_store (flush σ))) ->
  db_ok σ = true ->
  fst (ProductCache_get σ) = or_null (map strip (products_store (flush σ))).
Proof.
  intros Hts Hfresh _ _ Hok. by rewrite (ProductCache_get_fresh σ ts).
Qed.

Lemma ProductCache_get_ignores_count_witness :
  fst (ProductCache_get torn_state)
  = or_null (map strip (products_store (flush torn_state))).
Proof.
  apply (ProductCache_get_ignores_count torn_state 1000 2);
    vm_compute; congruence.
Defined.

(** ** C9: a single product is never written to the cache *)

(** C9.  When [ProductCache.getById] misses, [apiGetProduct] settles to what
    the request to the back end settles to, and the state it leaves is the
    one the calls that were already waiting for the database leave: the state
    it was called in when none was waiting.  The metadata entry and the
    stored records are not written. *)
Theorem apiGetProduct_miss_leaves_cache
  (productId : json) (response : result json) (σ : state) :
  fst (ProductCache_getById (to_number (Some productId)) σ) = None ->
  apiGetProduct productId response σ = (response, flush σ)
  /\ (pending σ = [] -> apiGetProduct productId response σ = (response, σ)).
Proof.
  intros Hmiss. unfold apiGetProduct.
  destruct (ProductCache_getById _ σ) as [cached σ'] eqn:Hget.
  cbn [fst] in Hmiss. subst cached.
  assert (σ' = flush σ) as -> by (unfold ProductCache_getById in Hget; congruence).
  split; [reflexivity|]. intros Hq. by rewrite flush_quiescent.
Qed.

Lemma apiGetProduct_miss_leaves_cache_witness :
  apiGetProduct (JStr (str "7")) (Ok (JObj [(str "product", JNull)])) catalog_state
  = (Ok (JObj [(str "product", JNull)]), flush catalog_state)
  /\ (pending catalog_state = [] ->
      apiGetProduct (JStr (str "7")) (Ok (JObj [(str "product", JNull)])) catalog_state
      = (Ok (JObj [(str "product", JNull)]), catalog_state)).
Proof.
  apply (apiGetProduct_miss_leaves_cache (JStr (str "7"))
           (Ok (JObj [(str "product", JNull)])) catalog_state).
  reflexivity.
Defined.

(** ** Objects *)

Lemma obj_get_set_ne k k' v o :
  k <> k' -> obj_get k (obj_set k' v o) = obj_get k o.
Proof.
  intros Hne. induction o as [|[k0 v0] o IH]; cbn [obj_set obj_get].
  - by rewrite bool_decide_eq_false_2 by congruence.
  - destruct (decide (k0 = k')) as [->|Hk0].
    + rewrite bool_decide_eq_true_2 by done. cbn [obj_get].
      by rewrite !bool_decide_eq_false_2 by congruence.
    + rewrite (bool_decide_eq_false_2 (k0 = k')) by done. cbn [obj_get].
      by rewrite IH.
Qed.

Lemma obj_remove_cons k k0 v0 o :
  obj_remove k ((k0, v0) :: o)
  = if decide (k0 = k) then obj_remove k o else (k0, v0) :: obj_remove k o.
Proof.
  unfold obj_remove. rewrite filter_cons. cbn [fst].
  destruct (decide (k0 = k)), (decide (k0 ≠ k)); done.
Qed.

Lemma obj_remove_set_eq k v o : obj_remove k (obj_set k v o) = obj_remove k o.
Proof.
  induction o as [|[k0 v0] o IH]; cbn [obj_set].
  - rewrite obj_remove_cons. by rewrite decide_True.
  - destruct (decide (k0 = k)) as [->|Hk0].
    + rewrite bool_decide_eq_true_2 by done.
      rewrite !obj_remove_cons. by rewrite !decide_True.
    + rewrite bool_decide_eq_false_2 by done.
      rewrite !obj_remove_cons, !decide_False by done. by rewrite IH.
Qed.

Lemma obj_remove_set_ne k k' v o :
  k <> k' -> obj_remove k' (obj_set k v o) = obj_set k v (obj_remove k' o).
Proof.
  intros Hne. induction o as [|[k0 v0] o IH]; cbn [obj_set].
  - rewrite obj_remove_cons. by rewrite decide_False.
  - destruct (decide (k0 = k)) as [->|Hk0].
    + rewrite bool_decide_eq_true_2 by done.
      rewrite !obj_remove_cons, !decide_False by done.
      cbn [obj_set]. by rewrite bool_decide_eq_true_2.
    + rewrite bool_decide_eq_false_2 by done.
      rewrite !obj_remove_cons. destruct (decide (k0 = k')); [done|].
      cbn [obj_set]. rewrite bool_decide_eq_false_2 by done. by rewrite IH.
Qed.

Lemma obj_remove_absent k o : k ∉ map fst o -> obj_remove k o = o.
Proof.
  induction o as [|[k0 v0] o IH]; [done|]. cbn [map fst].
  intros [Hne Hk]%not_elem_of_cons.
  rewrite obj_remove_cons, decide_False by congruence. by rewrite IH.
Qed.

Lemma str_cached_at_ne_hash : str "_cached_at" <> str "_hash".
Proof. done. Qed.

Lemma str_id_ne_hash : str "id" <> str "_hash".
Proof. done. Qed.

(** The record returned does not depend on the hash stored with it. *)
Lemma strip_set_hash h r : strip (obj_set (str "_hash") h r) = strip r.
Proof.
  unfold strip.
  rewrite obj_remove_set_ne by (intros H; by apply str_cached_at_ne_hash).
  by rewrite obj_remove_set_eq.
Qed.

Lemma has_key_set_hash k h r : has_key k (obj_set (str "_hash") h r) = has_key k r.
Proof.
  unfold has_key, key_of. by rewrite obj_get_set_ne by apply str_id_ne_hash.
Qed.

Lemma find_has_key_rehash k (h : record -> json) s :
  find (has_key k) (map (fun r => obj_set (str "_hash") (h r) r) s)
  = (fun r => obj_set (str "_hash") (h r) r) <$> find (has_key k) s.
Proof.
  induction s as [|r s IH]; [done|]. cbn [map find].
  rewrite has_key_set_hash. by destruct (has_key k r).
Qed.

(** ** C3: expiry *)

Lemma user_blob_present σ cacheData :
  user_blob σ = Some cacheData ->
  exists encoded decoded,
    present (getItem USER_CACHE_KEY σ) = Some encoded
    /\ atob encoded = Ok decoded
    /\ JSON_parse decoded = Ok cacheData.
Proof.
  unfold user_blob. intros H.
  destruct (getItem USER_CACHE_KEY σ) as [encoded|]; [|done].
  destruct encoded as [|c encoded]; [done|].
  destruct (atob (c :: encoded)) as [decoded|e] eqn:Hatob; [|done].
  destruct (JSON_parse decoded) as [v|e] eqn:Hparse; [|done].
  exists (c :: encoded), decoded. by simplify_eq.
Qed.

Lemma UserCache_get_expired σ cacheData ts :
  user_blob σ = Some cacheData ->
  get_prop_opt cacheData (str "timestamp") = Some (JNum ts) ->
  CACHE_DURATION < now σ - ts ->
  UserCache_get σ = (JNull, UserCache_clear σ).
Proof.
  intros (encoded & decoded & Hitem & Hatob & Hparse)%user_blob_present Hts Hold.
  unfold UserCache_get. rewrite Hitem, Hatob. cbn [mbind result_bind].
  rewrite Hparse. destruct cacheData as [| | | | |o]; try done.
  cbn [get_prop_opt] in Hts. cbn [mbind result_bind get_prop]. rewrite Hts.
  unfold expired. cbn [to_number].
  by destruct (Z.ltb_spec CACHE_DURATION (now σ - ts)); [|lia].
Qed.

Lemma ProductCache_get_expired σ ts :
  products_meta_field (str "timestamp") σ = Some (JNum ts) ->
  CACHE_DURATION < now σ - ts ->
  ProductCache_get σ = (None, clear_task (flush σ)).
Proof.
  unfold products_meta_field, ProductCache_get. intros Hmeta Hold.
  destruct (getItem PRODUCTS_CACHE_KEY σ) as [meta|]; [|done].
  destruct meta as [|c meta]; [done|]. cbn [present].
  destruct (JSON_parse (c :: meta)) as [v|e]; [|done].
  destruct v as [| | | | |o]; try done.
  cbn [mbind result_bind get_prop]. cbn [get_prop_opt] in Hmeta. rewrite Hmeta.
  unfold expired. cbn [to_number].
  destruct (Z.ltb_spec CACHE_DURATION (now σ - ts)); [|lia].
  unfold await, ProductCache_clear. by rewrite flush_enqueue.
Qed.

Lemma ProductCache_getById_expired σ id product ts :
  find (has_key (JNum id)) (products_store (flush σ)) = Some product ->
  obj_get (str "_cached_at") product = Some (JNum ts) ->
  CACHE_DURATION < now σ - ts ->
  ProductCache_getById (Some id) σ = (None, flush σ).
Proof.
  intros Hfind Hts Hold. unfold ProductCache_getById.
  destruct (initDB (flush σ)); [|done].
  cbn [mbind result_bind store_get]. rewrite Hfind, Hts.
  unfold expired. cbn [to_number]. rewrite flush_now.
  by destruct (Z.ltb_spec CACHE_DURATION (now σ - ts)); [|lia].
Qed.

(** C3, as stated, fails for [ProductCache.getById]: the record of key 1 is
    older than the freshness window, the lookup resolves to [null], and the
    record is still in the store afterwards. *)
Lemma expired_record_is_not_evicted :
  find (has_key (JNum 1)) (products_store stale_state)
  = Some (cached_record 1000 rose)
  /\ CACHE_DURATION < now stale_state - 1000
  /\ fst (ProductCache_getById (Some 1) stale_state) = None
  /\ products_store (snd (ProductCache_getById (Some 1) stale_state))
     = [cached_record 1000 rose; cached_record 1000 oud].
Proof. vm_compute. done. Qed.

(** C3, as amended.  An entry older than the freshness window is a miss for
    each of the three reads.  [UserCache.get()] removes the user slot.
    [ProductCache.get()], which goes by the timestamp of the metadata, clears
    the store and removes the metadata when the database opens.
    [ProductCache.getById(id)], which goes by the [_cached_at] of the record,
    writes nothing: the record stays in the store. *)
Theorem expired_entries_miss (σ : state) :
  (forall cacheData ts,
      user_blob σ = Some cacheData ->
      get_prop_opt cacheData (str "timestamp") = Some (JNum ts) ->
      CACHE_DURATION < now σ - ts ->
      fst (UserCache_get σ) = JNull
      /\ getItem USER_CACHE_KEY (snd (UserCache_get σ)) = None)
  /\ (forall ts,
         products_meta_field (str "timestamp") σ = Some (JNum ts) ->
         CACHE_DURATION < now σ - ts ->
         fst (ProductCache_get σ) = None
         /\ (db_ok σ = true ->
             products_store (snd (ProductCache_get σ)) = []
             /\ getItem PRODUCTS_CACHE_KEY (snd (ProductCache_get σ)) = None))
  /\ (forall id product ts,
         find (has_key (JNum id)) (products_store (flush σ)) = Some product ->
         obj_get (str "_cached_at") product = Some (JNum ts) ->
         CACHE_DURATION < now σ - ts ->
         fst (ProductCache_getById (Some id) σ) = None
         /\ snd (ProductCache_getById (Some id) σ) = flush σ
         /\ product ∈ products_store (snd (ProductCache_getById (Some id) σ))).
Proof.
  split; [|split].
  - intros cacheData ts Hblob Hts Hold.
    rewrite (UserCache_get_expired σ cacheData ts) by done.
    split; [done|]. unfold UserCache_clear, getItem, removeItem. cbn [localStorage].
    apply lookup_delete_eq.
  - intros ts Hts Hold.
    rewrite (ProductCache_get_expired σ ts) by done.
    split; [done|]. intros Hok. cbn [snd].
    apply clear_task_store. by rewrite flush_db_ok.
  - intros id product ts Hfind Hts Hold.
    rewrite (ProductCache_getById_expired σ id product ts) by done.
    split; [done|]. split; [done|]. cbn [snd].
    apply find_some in Hfind as [Hin _]. by apply list_elem_of_In.
Qed.

Lemma expired_entries_miss_witness :
  (fst (UserCache_get stale_state) = JNull
   /\ getItem USER_CACHE_KEY (snd (UserCache_get stale_state)) = None)
  /\ (fst (ProductCache_get stale_state) = None
      /\ (db_ok stale_state = true ->
          products_store (snd (ProductCache_get stale_state)) = []
          /\ getItem PRODUCTS_CACHE_KEY (snd (ProductCache_get stale_state)) = None))
  /\ (fst (ProductCache_getById (Some 1) stale_state) = None
      /\ snd (ProductCache_getById (Some 1) stale_state) = flush stale_state
      /\ cached_record 1000 rose
         ∈ products_store (snd (ProductCache_getById (Some 1) stale_state))).
Proof.
  destruct (expired_entries_miss stale_state) as (Huser & Hget & Hbyid).
  split; [|split].
  - eapply (Huser _ 1000); [vm_compute; reflexivity | reflexivity | vm_compute; reflexivity].
  - apply (Hget 1000); [vm_compute; reflexivity | vm_compute; reflexivity].
  - apply (Hbyid 1 (cached_record 1000 rose) 1000);
      [vm_compute; reflexivity | vm_compute; reflexivity | vm_compute; reflexivity].
Defined.

(** ** C4: tampering with the user slot *)

(** C4, as stated, fails: the payload of the slot is replaced by another
    profile, the stored hash is kept, and [UserCache.get()] returns the
    replaced profile, the two having the same hash. *)
Lemma colliding_payload_is_served :
  user_blob signed_in_state
  = Some (JObj [(str "data", asha); (str "timestamp", JNum 1000);
                (str "hash", JStr (generateHash asha)); (str "_version", JNum 1)])
  /\ user_blob tampered_state
     = Some (JObj [(str "data", asha_renamed); (str "timestamp", JNum 1000);
                   (str "hash", JStr (generateHash asha)); (str "_version", JNum 1)])
  /\ asha_renamed <> asha
  /\ UserCache_get tampered_state = (asha_renamed, tampered_state).
Proof. vm_compute. intuition congruence. Qed.

(** C4, as amended.  When the slot decodes to a payload whose hash differs
    from the stored one, which is the hash of the original payload,
    [UserCache.get()] returns [null] and removes the slot. *)
Theorem tampered_payload_is_rejected (σ : state) (cacheData original data : json) :
  user_blob σ = Some cacheData ->
  get_prop_opt cacheData (str "hash") = Some (JStr (generateHash original)) ->
  get_prop_opt cacheData (str "data") = Some data ->
  generateHash data <> generateHash original ->
  fst (UserCache_get σ) = JNull
  /\ getItem USER_CACHE_KEY (snd (UserCache_get σ)) = None.
Proof.
  intros (encoded & decoded & Hitem & Hatob & Hparse)%user_blob_present
         Hhash Hdata Hne.
  assert (Hget : UserCache_get σ = (JNull, UserCache_clear σ)).
  { unfold UserCache_get. rewrite Hitem, Hatob. cbn [mbind result_bind].
    rewrite Hparse. destruct cacheData as [| | | | |o]; try done.
    cbn [get_prop_opt] in Hhash, Hdata.
    cbn [mbind result_bind get_prop]. rewrite Hdata, Hhash.
    destruct (expired _ _); [done|].
    unfold strict_ne. by rewrite bool_decide_eq_false_2. }
  rewrite Hget. split; [done|].
  unfold UserCache_clear, getItem, removeItem. cbn [localStorage]. apply lookup_delete_eq.
Qed.

Lemma tampered_payload_is_rejected_witness :
  fst (UserCache_get
         (setItem USER_CACHE_KEY
            (try_catch
               (btoa (JSON_stringify
                        (JObj [(str "data", rose); (str "timestamp", JNum 1000);
                               (str "hash", JStr (generateHash asha))])))
               (fun _ => []))
            signed_in_state)) = JNull
  /\ getItem USER_CACHE_KEY
       (snd (UserCache_get
               (setItem USER_CACHE_KEY
                  (try_catch
                     (btoa (JSON_stringify
                              (JObj [(str "data", rose); (str "timestamp", JNum 1000);
                                     (str "hash", JStr (generateHash asha))])))
                     (fun _ => []))
                  signed_in_state))) = None.
Proof.
  eapply (tampered_payload_is_rejected _ _ asha rose);
    [vm_compute; reflexivity | reflexivity | reflexivity | vm_compute; congruence].
Defined.

(** ** C5: exceptions *)

(** C5 fails for [ProductCache.isExpired], which has no [try]: with a
    truncated metadata entry it throws the [SyntaxError] of [JSON.parse], and
    with the entry [null] the [TypeError] of the destructuring.
    [UserCache.isExpired] returns [true] on the same contents. *)
Theorem ProductCache_isExpired_throws :
  ProductCache_isExpired
    (setItem PRODUCTS_CACHE_KEY (dq "{'timestamp':1000,'count':2,") empty_state)
  = Throw SyntaxError
  /\ ProductCache_isExpired (setItem PRODUCTS_CACHE_KEY (str "null") empty_state)
     = Throw TypeError
  /\ UserCache_isExpired
       (setItem USER_CACHE_KEY (dq "{'timestamp':1000,'count':2,") empty_state)
     = true.
Proof. vm_compute. done. Qed.

(** ** C2: the profile is read back *)

(** C2 fails for a profile with a character above [0xFF]: [btoa] throws,
    [set] catches the exception and writes nothing, and [get] returns [null]
    on an empty slot, or the profile cached before. *)
Theorem non_latin1_profile_is_not_cached :
  let user :=
    JObj [(str "email", JStr (str "asha@example.com"));
          (str "first_name", JStr [2310; 2358; 2366])] in
  wf_json user
  /\ UserCache_set user empty_state = empty_state
  /\ fst (UserCache_get (UserCache_set user empty_state)) = JNull
  /\ fst (UserCache_get (UserCache_set user (UserCache_set asha empty_state))) = asha.
Proof.
  cbn zeta. split.
  - by apply wf_jsonb_correct.
  - vm_compute. done.
Qed.

(** ** C8: a catalog is read back *)

Lemma digit36_code_unit d : 0 <= d < 36 -> code_unit (digit36 d).
Proof. unfold digit36, code_unit. destruct (d <? 10); lia. Qed.

Lemma to_base36_code_units fuel n acc :
  0 <= n -> Forall code_unit acc -> Forall code_unit (to_base36 fuel n acc).
Proof.
  revert n acc. induction fuel as [|fuel IH]; intros n acc Hn Hacc; [done|].
  cbn [to_base36]. destruct (Z.ltb_spec n 36).
  - constructor; [apply digit36_code_unit; lia | done].
  - apply IH; [apply Z.div_pos; lia|].
    constructor; [apply digit36_code_unit, Z.mod_pos_bound; lia | done].
Qed.

Lemma generateHash_code_units data : Forall code_unit (generateHash data).
Proof. apply to_base36_code_units; [lia | constructor]. Qed.

Lemma wf_products_meta timestamp count hash :
  Forall code_unit hash -> wf_json (products_meta timestamp count hash).
Proof.
  intros Hhash. cbn [products_meta wf_json map fst snd fold_right].
  split; [by apply (bool_decide_unpack _)|].
  repeat split; first [done | by apply forallb_code_unit].
Qed.

Lemma insert_by_key_Permutation k r s : insert_by_key k r s ≡ₚ r :: s.
Proof.
  induction s as [|r' s IH]; [done|]. cbn [insert_by_key].
  destruct (key_of r'); [destruct (key_compare k _)|];
    (done || (rewrite IH; apply Permutation_swap)).
Qed.

Lemma absent_not_elem k o : absent k o = true -> k ∉ map fst o.
Proof.
  unfold absent. induction o as [|[k0 v0] o IH]; [intros _; apply not_elem_of_nil|].
  cbn [obj_get map fst]. destruct (decide (k0 = k)) as [->|Hne].
  - by rewrite bool_decide_eq_true_2.
  - rewrite bool_decide_eq_false_2 by done. intros H.
    apply not_elem_of_cons. split; [congruence | by apply IH].
Qed.

Lemma product_record_id p :
  is_product_record p = true -> exists z, product_id p = Some (JNum z).
Proof.
  unfold is_product_record, product_id. destruct p as [| | | | |o]; try done.
  cbn [get_prop_opt]. destruct (obj_get (str "id") o) as [[| |z| | |]|]; try done.
  by exists z.
Qed.

Lemma key_of_cached_record p timestamp :
  is_product_record p = true ->
  key_of (cached_record timestamp p) = product_id p.
Proof.
  unfold is_product_record, product_id. destruct p as [| | | | |o]; try done.
  intros _. unfold key_of, cached_record. cbn [spread get_prop_opt].
  by rewrite !obj_get_set_ne by done.
Qed.

(** What [get] returns for a stored product record is the record. *)
Lemma strip_cached_record p timestamp :
  is_product_record p = true -> strip (cached_record timestamp p) = p.
Proof.
  unfold is_product_record. destruct p as [| | | | |o]; try done.
  intros [[_ Hc%absent_not_elem]%andb_true_iff Hh%absent_not_elem]%andb_true_iff.
  unfold cached_record. rewrite strip_set_hash. unfold strip. cbn [spread].
  rewrite obj_remove_set_eq.
  rewrite (obj_remove_absent (str "_cached_at")) by done.
  by rewrite obj_remove_absent.
Qed.

(** The loop of [set] over records with distinct numeric ids adds every one
    of them: no request fails and none is refused. *)
Lemma add_products_distinct timestamp products :
  forall added w,
    Forall (fun p => is_product_record p = true) (added ++ products) ->
    NoDup (map product_id (added ++ products)) ->
    w ≡ₚ map (cached_record timestamp) added ->
    exists l,
      add_products timestamp products (Txn w false) = (Txn l false, Ok ())
      /\ l ≡ₚ map (cached_record timestamp) (added ++ products).
Proof.
  induction products as [|p products IH]; intros added w Hrec Hnd Hw.
  { exists w. by rewrite app_nil_r. }
  assert (Hp : is_product_record p = true).
  { apply Forall_app in Hrec as [_ Hrec]. by apply Forall_cons in Hrec as [? _]. }
  destruct (product_record_id p Hp) as [z Hz].
  cbn [add_products]. unfold store_add.
  rewrite key_of_cached_record, Hz by done. cbn [valid_key written failed].
  assert (Hfresh : existsb (has_key (JNum z)) w = false).
  { apply not_true_is_false. intros (r & Hin & Hkey)%existsb_exists.
    apply list_elem_of_In in Hin. rewrite Hw in Hin.
    apply list_elem_of_fmap in Hin as (q & -> & Hq).
    assert (Hq' : is_product_record q = true).
    { apply Forall_app in Hrec as [Hrec _].
      by apply (proj1 (Forall_forall _ _) Hrec). }
    unfold has_key in Hkey. rewrite key_of_cached_record in Hkey by done.
    destruct (product_record_id q Hq') as [z' Hz']. rewrite Hz' in Hkey.
    cbn [json_eqb] in Hkey. apply Z.eqb_eq in Hkey as <-.
    rewrite map_app in Hnd. apply NoDup_app in Hnd as (_ & Hdisj & _).
    apply (Hdisj (Some (JNum z))).
    - rewrite <- Hz'. by apply list_elem_of_fmap_2.
    - cbn [map]. rewrite Hz. left. }
  rewrite Hfresh.
  destruct (IH (added ++ [p])
              (insert_by_key (JNum z) (cached_record timestamp p) w)) as (l & Hl & Hperm).
  - by rewrite <- app_assoc.
  - by rewrite <- app_assoc.
  - rewrite insert_by_key_Permutation, Hw, map_app. cbn [map].
    by rewrite Permutation_app_comm.
  - exists l. split; [done|]. by rewrite <- app_assoc in Hperm.
Qed.

(** C8, as stated, fails on the empty list, for which [get] resolves to
    [null] and not to an empty array, and on a record that has a [_hash]
    field of its own, which is not returned. *)
Lemma empty_catalog_reads_null :
  fst (ProductCache_get (await (ProductCache_set []) catalog_state)) = None
  /\ fst (ProductCache_get
            (await (ProductCache_set
                      [JObj [(str "id", JNum 5); (str "_hash", JStr (str "own"))]])
               catalog_state))
     = Some [JObj [(str "id", JNum 5)]].
Proof. vm_compute. done. Qed.

(** C8, as amended.  For a list of product records that is not empty, with
    pairwise distinct numeric ids, [await ProductCache.set(products)] followed
    within the freshness window by [ProductCache.get()] resolves to a
    permutation of [products], whatever was stored before and whatever calls
    were waiting. *)
Theorem ProductCache_set_then_get (products : list json) (σ : state) (d : Z) :
  products <> [] ->
  Forall (fun p => is_product_record p = true) products ->
  NoDup (map product_id products) ->
  db_ok σ = true ->
  0 <= d <= CACHE_DURATION ->
  exists got,
    fst (ProductCache_get (elapse d (await (ProductCache_set products) σ))) = Some got
    /\ got ≡ₚ products.
Proof.
  intros Hne Hrec Hnd Hok Hd.
  destruct (add_products_distinct (now σ) products [] [] Hrec Hnd) as (l & Hl & Hperm);
    [done|]. cbn [app] in Hperm.
  set (meta := products_meta (now σ) (Z.of_nat (length products))
                 (generateHash (JArr products))).
  assert (Hset : await (ProductCache_set products) σ
                 = State (<[PRODUCTS_CACHE_KEY := JSON_stringify meta]>
                            (localStorage (flush σ)))
                     l true (now σ) []).
  { unfold await, ProductCache_set. rewrite flush_enqueue. cbn [run_task].
    unfold set_task, initDB. rewrite flush_db_ok, Hok, flush_now.
    unfold store_clear. cbn [failed]. rewrite Hl. cbn [mbind result_bind try_catch].
    unfold commit, setItem.
    cbn [localStorage products_store db_ok now pending failed written fst snd].
    by rewrite flush_db_ok, Hok, flush_now, flush_pending. }
  rewrite Hset.
  rewrite (ProductCache_get_fresh _ (now σ)).
  - rewrite flush_quiescent by done. cbn [fst elapse products_store].
    exists (map strip l). split.
    + destruct l as [|r l]; [|done].
      apply Permutation_nil_l in Hperm. destruct products; done.
    + rewrite Hperm, map_map.
      clear -Hrec. induction Hrec as [|p ps Hp _ IH]; [done|].
      cbn [map]. by rewrite strip_cached_record, IH.
  - unfold products_meta_field, getItem. cbn [elapse localStorage].
    rewrite lookup_insert_eq.
    rewrite JSON_parse_stringify
      by apply wf_products_meta, generateHash_code_units.
    reflexivity.
  - cbn [elapse now]. lia.
  - reflexivity.
Qed.

Lemma ProductCache_set_then_get_witness :
  exists got,
    fst (ProductCache_get
           (elapse CACHE_DURATION (await (ProductCache_set [oud; rose]) catalog_state)))
    = Some got
    /\ got ≡ₚ [oud; rose].
Proof.
  apply (ProductCache_set_then_get [oud; rose] catalog_state CACHE_DURATION).
  - discriminate.
  - repeat constructor.
  - apply NoDup_cons. split; [|apply NoDup_singleton].
    intros H%list_elem_of_singleton. discriminate H.
  - reflexivity.
  - vm_compute. split; discriminate.
Defined.

(** ** [atob] reads back what [btoa] writes *)

Definition byte (c : Z) : Prop := 0 <= c <= 255.

Lemma b64_value_char i : 0 <= i < 64 -> b64_value (b64_char i) = Some i.
Proof.
  intros Hi.
  assert (Hn : i = Z.of_nat (Z.to_nat i)) by lia.
  rewrite Hn.
  assert (Hlt : (Z.to_nat i < 64)%nat) by lia.
  revert Hlt. generalize (Z.to_nat i). intros n Hlt.
  do 64 (destruct n as [|n]; [reflexivity|]). lia.
Qed.

Lemma b64_char_not_pad i : 0 <= i < 64 -> (b64_char i =? 61) = false.
Proof.
  intros Hi. unfold b64_char.
  destruct (i <? 26) eqn:?, (i <? 52) eqn:?, (i <? 62) eqn:?, (i =? 62) eqn:?; lia.
Qed.

Lemma b64_char_not_ws i : 0 <= i < 64 -> is_ascii_ws (b64_char i) = false.
Proof.
  intros Hi. unfold b64_char, is_ascii_ws.
  destruct (i <? 26) eqn:?, (i <? 52) eqn:?, (i <? 62) eqn:?, (i =? 62) eqn:?; lia.
Qed.

Ltac b64_bounds :=
  match goal with
  | |- 0 <= _ < 64 => Z.div_mod_to_equations; lia
  end.

Ltac b64_values :=
  repeat (rewrite b64_value_char by b64_bounds; cbn [mbind option_bind]).

Lemma b64_decode_encode s :
  Forall byte s -> b64_decode (b64_encode s) = Some s.
Proof.
  remember (length s) as n eqn:Hn.
  assert (Hle : (length s <= n)%nat) by lia. clear Hn.
  revert s Hle. induction n as [|n IH]; intros s Hle Hs.
  { destruct s; [reflexivity | simpl in Hle; lia]. }
  destruct s as [|a [|b [|c r]]]; [reflexivity|..].
  - apply Forall_cons in Hs as [Ha _]. unfold byte in Ha.
    cbn [b64_encode b64_decode].
    b64_values.
    change (61 =? 61) with true. cbn [andb]. rewrite bool_decide_eq_true_2 by done.
    do 2 f_equal. Z.div_mod_to_equations. lia.
  - apply Forall_cons in Hs as [Ha [Hb _]%Forall_cons]. unfold byte in Ha, Hb.
    cbn [b64_encode b64_decode].
    b64_values.
    change (61 =? 61) with true. cbn [andb]. rewrite bool_decide_eq_true_2 by done.
    rewrite b64_char_not_pad by b64_bounds.
    b64_values.
    f_equal. f_equal; [|f_equal]; Z.div_mod_to_equations; lia.
  - apply Forall_cons in Hs as [Ha [Hb [Hc Hr]%Forall_cons]%Forall_cons].
    unfold byte in Ha, Hb, Hc. simpl in Hle.
    cbn [b64_encode b64_decode].
    b64_values.
    rewrite b64_char_not_pad by b64_bounds. cbn [andb].
    b64_values.
    rewrite IH by (done || lia). cbn [mbind option_bind].
    f_equal. f_equal; [|f_equal; [|f_equal]]; Z.div_mod_to_equations; lia.
Qed.

Lemma filter_all {A} (P : A -> Prop) `{!forall x, Decision (P x)} (l : list A) :
  Forall P l -> filter P l = l.
Proof.
  induction 1 as [|x l Hx _ IH]; [done|].
  by rewrite filter_cons, decide_True, IH.
Qed.

Lemma b64_encode_no_ws s :
  Forall byte s -> Forall (fun c => is_ascii_ws c = false) (b64_encode s).
Proof.
  remember (length s) as n eqn:Hn.
  assert (Hle : (length s <= n)%nat) by lia. clear Hn.
  revert s Hle. induction n as [|n IH]; intros s Hle Hs.
  { destruct s; [constructor | simpl in Hle; lia]. }
  destruct s as [|a [|b [|c r]]]; [constructor|..].
  - apply Forall_cons in Hs as [Ha _]. unfold byte in Ha.
    cbn [b64_encode].
    repeat (constructor; [first [done | apply b64_char_not_ws; b64_bounds]|]).
    constructor.
  - apply Forall_cons in Hs as [Ha [Hb _]%Forall_cons]. unfold byte in Ha, Hb.
    cbn [b64_encode].
    repeat (constructor; [first [done | apply b64_char_not_ws; b64_bounds]|]).
    constructor.
  - apply Forall_cons in Hs as [Ha [Hb [Hc Hr]%Forall_cons]%Forall_cons].
    unfold byte in Ha, Hb, Hc. simpl in Hle.
    cbn [b64_encode].
    do 4 (constructor; [apply b64_char_not_ws; b64_bounds|]).
    apply IH; [lia | done].
Qed.

(** [atob(btoa(s))] is [s] for a string of bytes. *)
Lemma atob_btoa s :
  Forall byte s -> btoa s = Ok (b64_encode s) /\ atob (b64_encode s) = Ok s.
Proof.
  intros Hs. split.
  - unfold btoa. replace (forallb _ s) with true; [done|].
    symmetry. apply List.forallb_forall. intros c Hc%list_elem_of_In.
    apply (proj1 (Forall_forall _ _) Hs) in Hc. unfold byte in Hc. lia.
  - unfold atob. rewrite filter_all by by apply b64_encode_no_ws.
    by rewrite b64_decode_encode.
Qed.

(** ** The profile is read back when its text is Latin-1 *)

Lemma b64_encode_cons a r : exists c t, b64_encode (a :: r) = c :: t.
Proof. destruct r as [|b [|c r]]; by eexists _, _. Qed.

Lemma wf_cache_data user timestamp :
  wf_json user -> wf_json (cache_data user timestamp (generateHash user)).
Proof.
  intros Huser. cbn [cache_data wf_json map fst snd fold_right].
  split; [by apply (bool_decide_unpack _)|].
  repeat split;
    first [done | by apply forallb_code_unit | apply generateHash_code_units].
Qed.

(** For every profile whose cached text has no code unit above [0xFF],
    [UserCache.set(user)] followed within the freshness window by
    [UserCache.get()] returns [user] and leaves the slot as it is. *)
Theorem UserCache_set_then_get (user : json) (σ : state) (d : Z) :
  wf_json user ->
  Forall byte (JSON_stringify (cache_data user (now σ) (generateHash user))) ->
  0 <= d <= CACHE_DURATION ->
  UserCache_get (elapse d (UserCache_set user σ))
  = (user, elapse d (UserCache_set user σ)).
Proof.
  intros Hwf Hbytes Hd.
  set (text := JSON_stringify (cache_data user (now σ) (generateHash user))) in *.
  destruct (atob_btoa text Hbytes) as [Hbtoa Hatob].
  assert (Hset : UserCache_set user σ = setItem USER_CACHE_KEY (b64_encode text) σ).
  { unfold UserCache_set. cbn zeta. fold text. by rewrite Hbtoa. }
  rewrite Hset. unfold UserCache_get, getItem.
  cbn [elapse setItem localStorage now]. rewrite lookup_insert_eq.
  destruct (b64_encode_cons 123 (tl text)) as (c & t & Hcons).
  change (123 :: tl text) with text in Hcons. rewrite Hcons in *. cbn [present].
  rewrite Hatob. cbn [mbind result_bind].
  unfold text. rewrite JSON_parse_stringify by by apply wf_cache_data.
  cbn [mbind result_bind].
  change (get_prop (cache_data ?u ?ts ?h) (str "timestamp")) with (Ok (Some (JNum ts))).
  cbn [mbind result_bind]. unfold expired. cbn [to_number].
  destruct (Z.ltb_spec CACHE_DURATION (now σ + d - now σ)); [lia|].
  change (get_prop (cache_data ?u ?ts ?h) (str "data")) with (Ok (Some u)).
  cbn [mbind result_bind].
  change (get_prop (cache_data ?u ?ts ?h) (str "hash")) with (Ok (Some (JStr h))).
  cbn [mbind result_bind]. unfold strict_ne.
  by rewrite bool_decide_eq_true_2.
Qed.

Example UserCache_set_then_get_asha :
  fst (UserCache_get (elapse CACHE_DURATION (UserCache_set asha empty_state))) = asha.
Proof. vm_compute. reflexivity. Qed.

(** ** C10: the hashes of the product cache *)

Lemma obj_get_set_eq k v o : obj_get k (obj_set k v o) = Some v.
Proof.
  induction o as [|[k0 v0] o IH]; cbn [obj_set obj_get].
  - by rewrite bool_decide_eq_true_2.
  - destruct (decide (k0 = k)) as [->|Hk0].
    + rewrite bool_decide_eq_true_2 by done. cbn [obj_get].
      by rewrite bool_decide_eq_true_2.
    + rewrite bool_decide_eq_false_2 by done. cbn [obj_get].
      by rewrite bool_decide_eq_false_2.
Qed.

Lemma cached_at_of_cached_record timestamp product :
  obj_get (str "_cached_at") (cached_record timestamp product) = Some (JNum timestamp).
Proof.
  unfold cached_record. rewrite obj_get_set_ne by done. apply obj_get_set_eq.
Qed.

Lemma has_key_cached_record z timestamp p :
  is_product_record p = true ->
  has_key (JNum z) (cached_record timestamp p) = has_id z p.
Proof.
  intros Hp. unfold has_key, has_id. rewrite key_of_cached_record by done.
  destruct (product_record_id p Hp) as [z' ->]. reflexivity.
Qed.

Lemma find_cached_records z timestamp products :
  Forall (fun p => is_product_record p = true) products ->
  find (has_key (JNum z)) (map (cached_record timestamp) products)
  = cached_record timestamp <$> find (has_id z) products.
Proof.
  induction 1 as [|p ps Hp _ IH]; [done|]. cbn [map find].
  rewrite has_key_cached_record by done. by destruct (has_id z p).
Qed.

Lemma strip_cached_records timestamp products :
  Forall (fun p => is_product_record p = true) products ->
  map strip (map (cached_record timestamp) products) = products.
Proof.
  induction 1 as [|p ps Hp _ IH]; [done|].
  cbn [map]. by rewrite strip_cached_record, IH.
Qed.

(** C10.  The reads compare no hash.  Let the store hold the records that
    [ProductCache.set] made of [products] at [cached_at], with anything
    written in place of the [_hash] of each ([h] is arbitrary), under
    metadata whose [hash] and [count] are whatever they are.  Within the
    freshness window, [ProductCache.get()] resolves to [products], each
    record as it was given and a hit, and [ProductCache.getById(id)] to the
    one of them whose [id] is [id]. *)
Theorem stored_hashes_are_not_checked
  (σ : state) (h : record -> json) (products : list json)
  (cached_at ts id : Z) (product : json) :
  pending σ = [] ->
  db_ok σ = true ->
  products <> [] ->
  Forall (fun p => is_product_record p = true) products ->
  products_store σ = map (cached_record cached_at) products ->
  products_meta_field (str "timestamp") σ = Some (JNum ts) ->
  now σ - ts <= CACHE_DURATION ->
  now σ - cached_at <= CACHE_DURATION ->
  find (has_id id) products = Some product ->
  fst (ProductCache_get (rehash h σ)) = Some products
  /\ fst (ProductCache_getById (Some id) (rehash h σ)) = Some product.
Proof.
  intros Hq Hok Hne Hrec Hstore Hts Hfresh Hfresh' Hfind.
  assert (Hflush : flush (rehash h σ) = rehash h σ) by by apply flush_quiescent.
  split.
  - rewrite (ProductCache_get_fresh (rehash h σ) ts) by done.
    rewrite Hflush. cbn [fst rehash products_store]. rewrite Hstore, map_map.
    rewrite (map_ext _ strip) by (intros r; apply strip_set_hash).
    rewrite strip_cached_records by done. by destruct products.
  - unfold ProductCache_getById. rewrite Hflush. cbn [fst].
    unfold initDB. cbn [rehash db_ok products_store now store_get]. rewrite Hok.
    cbn [mbind result_bind].
    rewrite find_has_key_rehash, Hstore, find_cached_records, Hfind by done.
    cbn [fmap option_fmap option_map].
    rewrite obj_get_set_ne, cached_at_of_cached_record by done.
    unfold expired. cbn [to_number].
    destruct (Z.ltb_spec CACHE_DURATION (now σ - cached_at)); [lia|].
    cbn [try_catch]. rewrite strip_set_hash, strip_cached_record; [done|].
    apply find_some in Hfind as [Hin _].
    by apply (proj1 (List.Forall_forall _ _) Hrec).
Qed.

Lemma stored_hashes_are_not_checked_witness :
  fst (ProductCache_get (rehash (fun _ => JStr (str "forged")) catalog_state))
  = Some [rose; oud]
  /\ fst (ProductCache_getById (Some 2)
            (rehash (fun _ => JStr (str "forged")) catalog_state))
     = Some oud.
Proof.
  apply (stored_hashes_are_not_checked catalog_state
           (fun _ => JStr (str "forged")) [rose; oud] 1000 1000 2 oud).
  - reflexivity.
  - reflexivity.
  - discriminate.
  - repeat constructor.
  - reflexivity.
  - vm_compute. reflexivity.
  - vm_compute. discriminate.
  - vm_compute. discriminate.
  - reflexivity.
Defined.

(** * Further properties *)

(** ** [generateHash] *)

Lemma to_int32_range z : - 2 ^ 31 <= to_int32 z < 2 ^ 31.
Proof.
  unfold to_int32. pose proof (Z.mod_pos_bound (z + 2 ^ 31) (2 ^ 32)). lia.
Qed.

Lemma to_int32_congruent z : exists k, to_int32 z = z + 2 ^ 32 * k.
Proof.
  unfold to_int32. exists (- ((z + 2 ^ 31) / 2 ^ 32)).
  pose proof (Z.div_mod (z + 2 ^ 31) (2 ^ 32)). lia.
Qed.

Lemma to_int32_shift a k : to_int32 (a + 2 ^ 32 * k) = to_int32 a.
Proof.
  unfold to_int32. f_equal.
  replace (a + 2 ^ 32 * k + 2 ^ 31) with (a + 2 ^ 31 + k * 2 ^ 32) by lia.
  apply Z_mod_plus_full.
Qed.

Lemma to_int32_idempotent z : to_int32 (to_int32 z) = to_int32 z.
Proof.
  destruct (to_int32_congruent z) as [k Hk].
  transitivity (to_int32 (z + 2 ^ 32 * k)); [by rewrite <- Hk | apply to_int32_shift].
Qed.

(** One turn of the loop multiplies by 31 and adds the code unit, modulo
    2^32. *)
Lemma hash_step_31 h h' char :
  h = to_int32 h' -> hash_step h char = to_int32 (31 * h' + char).
Proof.
  intros ->. unfold hash_step, band, shl. cbn zeta.
  rewrite Z.land_diag, !to_int32_idempotent, Z.shiftl_mul_pow2 by lia.
  destruct (to_int32_congruent h') as [k Hk].
  destruct (to_int32_congruent (to_int32 h' * 2 ^ 5)) as [k' Hk'].
  rewrite Hk', Hk.
  replace ((h' + 2 ^ 32 * k) * 2 ^ 5 + 2 ^ 32 * k' - (h' + 2 ^ 32 * k) + char)
    with (31 * h' + char + 2 ^ 32 * (31 * k + k')) by lia.
  apply to_int32_shift.
Qed.

Lemma fold_left_step {A B} (f : A -> B -> A) (x : B) (l : list B) (a : A) :
  fold_left f (x :: l) a = fold_left f l (f a x).
Proof. reflexivity. Qed.

Lemma hash_loop_31 s h h' :
  h = to_int32 h' ->
  fold_left hash_step s h = to_int32 (fold_left (fun h c => 31 * h + c) s h').
Proof.
  revert h h'. induction s as [|c s IH]; intros h h' Hh; [exact Hh|].
  rewrite !fold_left_step. apply IH, hash_step_31, Hh.
Qed.

Lemma generateHash_poly31 data :
  generateHash data
  = toString36 (Z.abs (to_int32 (poly31 (JSON_stringify data)))).
Proof.
  unfold generateHash, poly31. cbn zeta. by rewrite (hash_loop_31 _ 0 0).
Qed.

(** X1.  [generateHash(data)] is the number [toString(36)] prints for the
    absolute value of the 31-polynomial of the code units of
    [JSON.stringify(data)], wrapped to a signed 32-bit integer: the
    [(hash << 5) - hash] of the loop is a multiplication by 31 modulo 2^32,
    and the loop never leaves the signed 32-bit range. *)
Theorem generateHash_is_polynomial (data : json) :
  generateHash data
  = toString36 (Z.abs (to_int32 (poly31 (JSON_stringify data))))
  /\ - 2 ^ 31 <= fold_left hash_step (JSON_stringify data) 0 < 2 ^ 31.
Proof.
  split; [apply generateHash_poly31|].
  rewrite (hash_loop_31 _ 0 0) by done. apply to_int32_range.
Qed.

Lemma digit36_base36_char d : 0 <= d < 36 -> base36_char (digit36 d).
Proof. unfold digit36, base36_char. destruct (Z.ltb_spec d 10); lia. Qed.

Lemma digit36_value_digit d : 0 <= d < 36 -> digit36_value (digit36 d) = d.
Proof.
  unfold digit36, digit36_value. intros Hd.
  destruct (Z.ltb_spec d 10); [destruct (Z.ltb_spec (48 + d) 58)
                               | destruct (Z.ltb_spec (87 + d) 58)]; lia.
Qed.

(** The digits [to_base36] puts before [acc]: they are digits of [0-9a-z],
    there are at most [k] of them when [n < 36^k], and they stand for [n]
    when the fuel is enough. *)
Lemma to_base36_digits fuel n acc :
  0 <= n ->
  exists ds,
    to_base36 fuel n acc = ds ++ acc
    /\ Forall base36_char ds
    /\ (forall k : nat, (1 <= k)%nat -> n < 36 ^ Z.of_nat k -> (length ds <= k)%nat)
    /\ (fuel <> O -> ds <> [])
    /\ (n < 2 ^ Z.of_nat fuel -> of_base36 ds = n).
Proof.
  revert n acc. induction fuel as [|fuel IH]; intros n acc Hn.
  { exists []. repeat split; try done.
    - cbn. lia.
    - cbn. lia. }
  cbn [to_base36]. destruct (Z.ltb_spec n 36) as [Hlt | Hge].
  - exists [digit36 n]. repeat split; try done.
    + constructor; [apply digit36_base36_char; lia | constructor].
    + unfold of_base36. cbn [fold_left]. rewrite digit36_value_digit; lia.
  - destruct (IH (n / 36) (digit36 (n mod 36) :: acc)) as (ds & Heq & Hchars & Hlen & _ & Hval).
    { apply Z.div_pos; lia. }
    exists (ds ++ [digit36 (n mod 36)]). repeat split.
    + by rewrite Heq, <- app_assoc.
    + apply Forall_app. split; [done|].
      constructor; [apply digit36_base36_char, Z.mod_pos_bound; lia | constructor].
    + intros k Hk Hnk. rewrite length_app. cbn [length].
      destruct k as [|[|k]]; [lia | cbn in Hnk; lia |].
      assert (length ds <= S k)%nat; [|lia].
      apply Hlen; [lia|].
      replace (Z.of_nat (S (S k))) with (Z.of_nat (S k) + 1) in Hnk by lia.
      rewrite Z.pow_add_r, Z.pow_1_r in Hnk by lia.
      apply Z.div_lt_upper_bound; lia.
    + intros _. by destruct ds.
    + intros Hfuel. unfold of_base36 in *. rewrite fold_left_app. cbn [fold_left].
      rewrite Hval.
      * rewrite digit36_value_digit by (apply Z.mod_pos_bound; lia).
        pose proof (Z.div_mod n 36). lia.
      * replace (Z.of_nat (S fuel)) with (Z.of_nat fuel + 1) in Hfuel by lia.
        rewrite Z.pow_add_r, Z.pow_1_r in Hfuel by lia.
        apply Z.div_lt_upper_bound; lia.
Qed.

Lemma toString36_digits n :
  0 <= n ->
  Forall base36_char (toString36 n)
  /\ toString36 n <> []
  /\ (forall k : nat, (1 <= k)%nat -> n < 36 ^ Z.of_nat k -> (length (toString36 n) <= k)%nat)
  /\ of_base36 (toString36 n) = n.
Proof.
  intros Hn. unfold toString36.
  destruct (to_base36_digits (S (Z.to_nat (Z.log2 n))) n [] Hn)
    as (ds & Heq & Hchars & Hlen & Hne & Hval).
  rewrite Heq, app_nil_r. repeat split; try done; [by apply Hne|].
  apply Hval.
  destruct (decide (n = 0)) as [->|Hpos]; [done|].
  replace (Z.of_nat (S (Z.to_nat (Z.log2 n)))) with (Z.succ (Z.log2 n))
    by (pose proof (Z.log2_nonneg n); lia).
  apply Z.log2_spec. lia.
Qed.

(** X2.  A digest is never empty, has at most seven characters, and every
    one of them is a digit or a lower-case letter. *)
Theorem generateHash_shape (data : json) :
  (1 <= length (generateHash data) <= 7)%nat
  /\ Forall base36_char (generateHash data).
Proof.
  rewrite generateHash_poly31.
  set (h := to_int32 _). pose proof (to_int32_range (poly31 (JSON_stringify data))).
  fold h in H.
  destruct (toString36_digits (Z.abs h)) as (Hchars & Hne & Hlen & _); [lia|].
  split; [|done]. split.
  - destruct (toString36 (Z.abs h)); [done | cbn; lia].
  - apply Hlen; [lia|]. change (36 ^ Z.of_nat 7) with 78364164096.
    change (2 ^ 31) with 2147483648 in H. lia.
Qed.

(** X3.  Two values have the same digest exactly when their 32-bit hashes
    are equal or opposite: the base-36 text loses nothing but the sign. *)
Theorem generateHash_eq_iff (a b : json) :
  generateHash a = generateHash b
  <-> Z.abs (to_int32 (poly31 (JSON_stringify a)))
      = Z.abs (to_int32 (poly31 (JSON_stringify b))).
Proof.
  rewrite !generateHash_poly31. split; [|by intros ->].
  intros Heq.
  destruct (toString36_digits (Z.abs (to_int32 (poly31 (JSON_stringify a)))))
    as (_ & _ & _ & Ha); [lia|].
  destruct (toString36_digits (Z.abs (to_int32 (poly31 (JSON_stringify b)))))
    as (_ & _ & _ & Hb); [lia|].
  rewrite <- Ha, <- Hb. by rewrite Heq.
Qed.

(** ** [UserCache] *)

Lemma UserCache_get_state σ :
  snd (UserCache_get σ) = σ \/ snd (UserCache_get σ) = UserCache_clear σ.
Proof.
  unfold UserCache_get.
  destruct (present _) as [encoded|]; [|by left].
  destruct (atob encoded) as [decoded|]; [|by right]. cbn [mbind result_bind].
  destruct (JSON_parse decoded) as [cacheData|]; [|by right]. cbn [mbind result_bind].
  destruct (get_prop cacheData (str "timestamp")) as [timestamp|]; [|by right].
  cbn [mbind result_bind]. destruct (expired _ _); [by right|].
  destruct (get_prop cacheData (str "data")) as [[data|]|]; try by right.
  cbn [mbind result_bind].
  destruct (get_prop cacheData (str "hash")) as [hash|]; [|by right].
  cbn [mbind result_bind]. destruct (strict_ne _ _); [by right | by left].
Qed.

Lemma UserCache_get_hit σ :
  fst (UserCache_get σ) <> JNull -> snd (UserCache_get σ) = σ.
Proof.
  unfold UserCache_get.
  destruct (present _) as [encoded|]; [|done].
  destruct (atob encoded) as [decoded|]; [|done]. cbn [mbind result_bind].
  destruct (JSON_parse decoded) as [cacheData|]; [|done]. cbn [mbind result_bind].
  destruct (get_prop cacheData (str "timestamp")) as [timestamp|]; [|done].
  cbn [mbind result_bind]. destruct (expired _ _); [done|].
  destruct (get_prop cacheData (str "data")) as [[data|]|]; try done.
  cbn [mbind result_bind].
  destruct (get_prop cacheData (str "hash")) as [hash|]; [|done].
  cbn [mbind result_bind]. by destruct (strict_ne _ _).
Qed.

(** X4.  When [UserCache.get()] returns a value other than [null], it has
    changed nothing in storage, and [UserCache.isExpired()] is [false]. *)
Theorem UserCache_hit_is_fresh (σ : state) :
  fst (UserCache_get σ) <> JNull ->
  snd (UserCache_get σ) = σ /\ UserCache_isExpired σ = false.
Proof.
  unfold UserCache_get, UserCache_isExpired.
  destruct (present _) as [encoded|]; [|done].
  destruct (atob encoded) as [decoded|]; [|done]. cbn [mbind result_bind].
  destruct (JSON_parse decoded) as [cacheData|]; [|done]. cbn [mbind result_bind].
  destruct (get_prop cacheData (str "timestamp")) as [timestamp|]; [|done].
  cbn [mbind result_bind]. destruct (expired _ _); [done|].
  destruct (get_prop cacheData (str "data")) as [[data|]|]; try done.
  cbn [mbind result_bind].
  destruct (get_prop cacheData (str "hash")) as [hash|]; [|done].
  cbn [mbind result_bind]. by destruct (strict_ne _ _).
Qed.

Lemma UserCache_hit_is_fresh_witness :
  snd (UserCache_get signed_in_state) = signed_in_state
  /\ UserCache_isExpired signed_in_state = false.
Proof.
  apply (UserCache_hit_is_fresh signed_in_state). vm_compute. discriminate.
Defined.

Lemma forallb_byte s :
  forallb (fun c => (0 <=? c) && (c <=? 255)) s = true -> Forall byte s.
Proof.
  intros H. apply Forall_forall. intros c Hc.
  rewrite List.forallb_forall in H. apply list_elem_of_In, H in Hc.
  unfold byte. lia.
Qed.

(** What [set] writes for a profile whose text is made of bytes. *)
Lemma UserCache_set_bytes user σ :
  Forall byte (JSON_stringify (cache_data user (now σ) (generateHash user))) ->
  UserCache_set user σ
  = setItem USER_CACHE_KEY
      (b64_encode (JSON_stringify (cache_data user (now σ) (generateHash user)))) σ.
Proof.
  intros Hbytes. unfold UserCache_set. cbn zeta.
  by rewrite (proj1 (atob_btoa _ Hbytes)).
Qed.

(** The reads of a slot that holds what [set] wrote at [timestamp]. *)
Lemma UserCache_reads_of_slot user timestamp σ :
  wf_json user ->
  Forall byte (JSON_stringify (cache_data user timestamp (generateHash user))) ->
  getItem USER_CACHE_KEY σ
  = Some (b64_encode (JSON_stringify (cache_data user timestamp (generateHash user)))) ->
  UserCache_get σ
  = (if CACHE_DURATION <? now σ - timestamp
     then (JNull, UserCache_clear σ) else (user, σ))
  /\ UserCache_isExpired σ = (CACHE_DURATION <? now σ - timestamp).
Proof.
  intros Hwf Hbytes Hslot.
  set (text := JSON_stringify (cache_data user timestamp (generateHash user))) in *.
  destruct (atob_btoa text Hbytes) as [_ Hatob].
  destruct (b64_encode_cons 123 (tl text)) as (c & t & Hcons).
  change (123 :: tl text) with text in Hcons.
  assert (Hparse : JSON_parse text
                   = Ok (cache_data user timestamp (generateHash user)))
    by by apply JSON_parse_stringify, wf_cache_data.
  unfold UserCache_get, UserCache_isExpired. rewrite Hslot, Hcons. cbn [present].
  rewrite <- Hcons, Hatob. cbn [mbind result_bind]. rewrite Hparse.
  cbn [mbind result_bind].
  change (get_prop (cache_data ?u ?ts ?h) (str "timestamp")) with (Ok (Some (JNum ts))).
  cbn [mbind result_bind]. unfold expired. cbn [to_number].
  destruct (CACHE_DURATION <? now σ - timestamp); [done|].
  change (get_prop (cache_data ?u ?ts ?h) (str "data")) with (Ok (Some u)).
  cbn [mbind result_bind].
  change (get_prop (cache_data ?u ?ts ?h) (str "hash")) with (Ok (Some (JStr h))).
  cbn [mbind result_bind]. unfold strict_ne.
  by rewrite bool_decide_eq_true_2.
Qed.

(** X5.  For a profile whose cached text has no code unit above [0xFF],
    [UserCache.get()] made [d] milliseconds after [UserCache.set(user)]
    returns [user] up to and including 30 minutes and [null] from one
    millisecond later, when it also removes the slot; [isExpired()] turns
    [true] at the same millisecond. *)
Theorem UserCache_expiry_boundary (user : json) (σ : state) (d : Z) :
  wf_json user ->
  Forall byte (JSON_stringify (cache_data user (now σ) (generateHash user))) ->
  let σ' := elapse d (UserCache_set user σ) in
  fst (UserCache_get σ') = (if CACHE_DURATION <? d then JNull else user)
  /\ getItem USER_CACHE_KEY (snd (UserCache_get σ'))
     = (if CACHE_DURATION <? d then None else getItem USER_CACHE_KEY σ')
  /\ UserCache_isExpired σ' = (CACHE_DURATION <? d).
Proof.
  intros Hwf Hbytes. cbn zeta. rewrite UserCache_set_bytes by done.
  destruct (UserCache_reads_of_slot user (now σ)
              (elapse d (setItem USER_CACHE_KEY
                           (b64_encode (JSON_stringify
                                          (cache_data user (now σ) (generateHash user))))
                           σ)) Hwf Hbytes) as [Hget Hexp].
  { unfold getItem. cbn [localStorage]. apply lookup_insert_eq. }
  rewrite Hget, Hexp. cbn [elapse setItem now].
  replace (now σ + d - now σ) with d by lia.
  destruct (CACHE_DURATION <? d); cbn [fst snd]; repeat split.
  unfold UserCache_clear, getItem, removeItem. cbn [localStorage]. apply lookup_delete_eq.
Qed.

Lemma UserCache_expiry_boundary_witness :
  fst (UserCache_get (elapse (CACHE_DURATION + 1) (UserCache_set asha empty_state)))
  = (if CACHE_DURATION <? CACHE_DURATION + 1 then JNull else asha)
  /\ getItem USER_CACHE_KEY
       (snd (UserCache_get (elapse (CACHE_DURATION + 1) (UserCache_set asha empty_state))))
     = (if CACHE_DURATION <? CACHE_DURATION + 1 then None
        else getItem USER_CACHE_KEY
               (elapse (CACHE_DURATION + 1) (UserCache_set asha empty_state)))
  /\ UserCache_isExpired (elapse (CACHE_DURATION + 1) (UserCache_set asha empty_state))
     = (CACHE_DURATION <? CACHE_DURATION + 1).
Proof.
  apply (UserCache_expiry_boundary asha empty_state (CACHE_DURATION + 1)).
  - by apply wf_jsonb_correct.
  - by apply forallb_byte.
Defined.

(** X6.  The operations of [UserCache] write nothing but their own slot:
    every other key of [localStorage], the product store and the calls
    waiting for the database are as before. *)
Theorem UserCache_touches_only_its_slot (σ : state) (user : json) (k : string) :
  k <> USER_CACHE_KEY ->
  let untouched σ' :=
    getItem k σ' = getItem k σ
    /\ products_store σ' = products_store σ
    /\ pending σ' = pending σ in
  untouched (UserCache_set user σ)
  /\ untouched (snd (UserCache_get σ))
  /\ untouched (UserCache_clear σ).
Proof.
  intros Hk. cbn zeta.
  assert (Hclear : getItem k (UserCache_clear σ) = getItem k σ).
  { unfold UserCache_clear, getItem, removeItem. cbn [localStorage]. by apply lookup_delete_ne. }
  repeat split; try done.
  - unfold UserCache_set.
    destruct (_ ≫= _) as [σ'|] eqn:Hset; cbn [try_catch]; [|done].
    destruct (btoa _); [|done]. cbn in Hset. injection Hset as <-.
    unfold getItem, setItem. cbn [localStorage]. by apply lookup_insert_ne.
  - unfold UserCache_set. by destruct (btoa _).
  - unfold UserCache_set. by destruct (btoa _).
  - by destruct (UserCache_get_state σ) as [-> | ->].
  - by destruct (UserCache_get_state σ) as [-> | ->].
  - by destruct (UserCache_get_state σ) as [-> | ->].
Qed.

Lemma UserCache_touches_only_its_slot_witness :
  (getItem PRODUCTS_CACHE_KEY (UserCache_set asha catalog_state)
   = getItem PRODUCTS_CACHE_KEY catalog_state
   /\ products_store (UserCache_set asha catalog_state) = products_store catalog_state
   /\ pending (UserCache_set asha catalog_state) = pending catalog_state)
  /\ (getItem PRODUCTS_CACHE_KEY (snd (UserCache_get catalog_state))
      = getItem PRODUCTS_CACHE_KEY catalog_state
      /\ products_store (snd (UserCache_get catalog_state)) = products_store catalog_state
      /\ pending (snd (UserCache_get catalog_state)) = pending catalog_state)
  /\ (getItem PRODUCTS_CACHE_KEY (UserCache_clear catalog_state)
      = getItem PRODUCTS_CACHE_KEY catalog_state
      /\ products_store (UserCache_clear catalog_state) = products_store catalog_state
      /\ pending (UserCache_clear catalog_state) = pending catalog_state).
Proof.
  apply (UserCache_touches_only_its_slot catalog_state asha PRODUCTS_CACHE_KEY).
  discriminate.
Defined.

(** ** [ProductCache] *)

Lemma key_of_cached_record_any timestamp product :
  key_of (cached_record timestamp product) = product_key product.
Proof.
  unfold key_of, cached_record, product_key. by rewrite !obj_get_set_ne by done.
Qed.

(** The state [await ProductCache.set(products)] leaves for product records
    with distinct ids. *)
Lemma await_set_distinct products σ :
  Forall (fun p => is_product_record p = true) products ->
  NoDup (map product_id products) ->
  db_ok σ = true ->
  exists l,
    l ≡ₚ map (cached_record (now σ)) products
    /\ await (ProductCache_set products) σ
       = State (<[PRODUCTS_CACHE_KEY :=
                    JSON_stringify
                      (products_meta (now σ) (Z.of_nat (length products))
                         (generateHash (JArr products)))]>
                  (localStorage (flush σ)))
           l true (now σ) [].
Proof.
  intros Hrec Hnd Hok.
  destruct (add_products_distinct (now σ) products [] [] Hrec Hnd) as (l & Hl & Hperm);
    [done|]. cbn [app] in Hperm.
  exists l. split; [done|].
  unfold await, ProductCache_set. rewrite flush_enqueue. cbn [run_task].
  unfold set_task, initDB. rewrite flush_db_ok, Hok, flush_now.
  unfold store_clear. cbn [failed]. rewrite Hl. cbn [mbind result_bind try_catch].
  unfold commit, setItem.
  cbn [localStorage products_store db_ok now pending failed written fst snd].
  by rewrite flush_db_ok, Hok, flush_now, flush_pending.
Qed.

Lemma find_perm_unique {A} (f : A -> bool) (l l' : list A) :
  l ≡ₚ l' ->
  (forall x y, In x l' -> In y l' -> f x = true -> f y = true -> x = y) ->
  find f l = find f l'.
Proof.
  intros Hperm Huniq.
  destruct (find f l') as [y|] eqn:Hl'.
  - apply find_some in Hl' as [Hy Hfy].
    destruct (find f l) as [x|] eqn:Hl.
    + apply find_some in Hl as [Hx Hfx]. f_equal.
      apply Huniq; try done. by apply (Permutation_in _ Hperm).
    + apply (Permutation_in _ (Permutation_sym Hperm)) in Hy.
      by rewrite (find_none _ _ Hl y Hy) in Hfy.
  - destruct (find f l) as [x|] eqn:Hl; [|done].
    apply find_some in Hl as [Hx Hfx].
    apply (Permutation_in _ Hperm) in Hx.
    by rewrite (find_none _ _ Hl' x Hx) in Hfx.
Qed.

Lemma NoDup_map_inj {A B} (f : A -> B) (l : list A) x y :
  NoDup (map f l) -> In x l -> In y l -> f x = f y -> x = y.
Proof.
  induction l as [|a l IH]; [done|]. cbn [map].
  intros [Ha Hnd]%NoDup_cons [<-|Hx] [<-|Hy] Heq; try done.
  - destruct Ha. rewrite Heq. apply list_elem_of_In. by apply in_map.
  - destruct Ha. rewrite <- Heq. apply list_elem_of_In. by apply in_map.
  - by apply IH.
Qed.

(** X7.  After [await ProductCache.set(products)] on product records with
    distinct ids, [ProductCache.getById(id)] made within the freshness window
    resolves to the record of [products] whose [id] is [id], and to [null]
    when there is none. *)
Theorem ProductCache_set_then_getById
  (products : list json) (σ : state) (d id : Z) :
  Forall (fun p => is_product_record p = true) products ->
  NoDup (map product_id products) ->
  db_ok σ = true ->
  d <= CACHE_DURATION ->
  fst (ProductCache_getById (Some id)
         (elapse d (await (ProductCache_set products) σ)))
  = find (has_id id) products.
Proof.
  intros Hrec Hnd Hok Hd.
  destruct (await_set_distinct products σ Hrec Hnd Hok) as (l & Hperm & ->).
  unfold ProductCache_getById. rewrite flush_quiescent by done.
  cbn [fst elapse initDB db_ok products_store now store_get mbind result_bind].
  rewrite (find_perm_unique _ _ _ Hperm).
  - rewrite find_cached_records by done.
    destruct (find (has_id id) products) as [p|] eqn:Hfind; [|reflexivity].
    cbn [fmap option_fmap option_map].
    rewrite cached_at_of_cached_record. unfold expired. cbn [to_number].
    destruct (Z.ltb_spec CACHE_DURATION (now σ + d - now σ)); [lia|].
    cbn [try_catch]. f_equal. apply strip_cached_record.
    apply find_some in Hfind as [Hin _].
    by apply (proj1 (List.Forall_forall _ _) Hrec).
  - intros x y (p & <- & Hp)%in_map_iff (q & <- & Hq)%in_map_iff Hx Hy.
    rewrite has_key_cached_record in Hx, Hy
      by by apply (proj1 (List.Forall_forall _ _) Hrec).
    f_equal. apply (NoDup_map_inj product_id products); try done.
    unfold has_id in Hx, Hy.
    destruct (product_id p) as [[| |zp| | |]|], (product_id q) as [[| |zq| | |]|];
      try done.
    apply Z.eqb_eq in Hx, Hy. by subst.
Qed.

Lemma ProductCache_set_then_getById_witness :
  fst (ProductCache_getById (Some 2)
         (elapse CACHE_DURATION (await (ProductCache_set [rose; oud]) empty_state)))
  = find (has_id 2) [rose; oud].
Proof.
  apply (ProductCache_set_then_getById [rose; oud] empty_state CACHE_DURATION 2).
  - repeat constructor.
  - apply NoDup_cons. split; [|apply NoDup_singleton].
    intros H%list_elem_of_singleton. discriminate H.
  - reflexivity.
  - reflexivity.
Defined.

(** X8.  When the first record of the list has no [id] that can be a key
    (the pages read their records by [product_id]), [store.add] throws on it:
    [await ProductCache.set] leaves the store empty and writes no metadata,
    so nothing of the list is cached. *)
Theorem ProductCache_set_without_id
  (product : json) (products : list json) (σ : state) :
  storable product = false ->
  db_ok σ = true ->
  let σ' := await (ProductCache_set (product :: products)) σ in
  products_store σ' = []
  /\ localStorage σ' = localStorage (flush σ)
  /\ forall id, fst (ProductCache_getById id σ') = None.
Proof.
  intros Hkey Hok. cbn zeta.
  assert (Hset : await (ProductCache_set (product :: products)) σ
                 = State (localStorage (flush σ)) [] true (now σ) []).
  { unfold await, ProductCache_set. rewrite flush_enqueue. cbn [run_task].
    unfold set_task, initDB. rewrite flush_db_ok, Hok.
    unfold store_clear. cbn [failed add_products]. unfold store_add.
    rewrite key_of_cached_record_any. unfold storable in Hkey.
    destruct (product_key product) as [k|];
      [rewrite Hkey|]; unfold commit;
      cbn [mbind result_bind try_catch localStorage products_store db_ok now
           pending failed written];
      by rewrite ?flush_db_ok, ?Hok, ?flush_now, ?flush_pending. }
  rewrite Hset. repeat split.
  intros [id|]; reflexivity.
Qed.

Lemma ProductCache_set_without_id_witness :
  products_store
    (await (ProductCache_set
              [JObj [(str "product_id", JNum 1); (str "product_name", JStr (str "Rose"))]])
       catalog_state) = []
  /\ localStorage
       (await (ProductCache_set
                 [JObj [(str "product_id", JNum 1); (str "product_name", JStr (str "Rose"))]])
          catalog_state)
     = localStorage (flush catalog_state)
  /\ forall id,
      fst (ProductCache_getById id
             (await (ProductCache_set
                       [JObj [(str "product_id", JNum 1);
                              (str "product_name", JStr (str "Rose"))]])
                catalog_state)) = None.
Proof.
  apply (ProductCache_set_without_id
           (JObj [(str "product_id", JNum 1); (str "product_name", JStr (str "Rose"))])
           [] catalog_state); reflexivity.
Defined.

Lemma run_task_unavailable t σ : db_ok σ = false -> run_task t σ = σ.
Proof.
  intros Hok. destruct t; cbn [run_task]; unfold set_task, clear_task, initDB;
    by rewrite Hok.
Qed.

Lemma serve_unavailable ts σ :
  db_ok σ = false -> fold_left (fun σ t => run_task t σ) ts σ = σ.
Proof.
  intros Hok. induction ts as [|t ts IH]; [done|].
  cbn [fold_left]. by rewrite run_task_unavailable.
Qed.

Lemma flush_unavailable σ :
  db_ok σ = false ->
  flush σ = State (localStorage σ) (products_store σ) false (now σ) [].
Proof.
  intros Hok. unfold flush. rewrite serve_unavailable by done. by rewrite Hok.
Qed.

(** X9.  When the database cannot be opened, [await ProductCache.set] and
    [await ProductCache.clear] change neither [localStorage] nor the store
    ([clear] does not remove the metadata either), and [get] and [getById]
    resolve to [null]. *)
Theorem ProductCache_when_database_unavailable
  (σ : state) (products : list json) (id : option Z) :
  db_ok σ = false ->
  (localStorage (await (ProductCache_set products) σ) = localStorage σ
   /\ products_store (await (ProductCache_set products) σ) = products_store σ)
  /\ (localStorage (await ProductCache_clear σ) = localStorage σ
      /\ products_store (await ProductCache_clear σ) = products_store σ)
  /\ fst (ProductCache_get σ) = None
  /\ fst (ProductCache_getById id σ) = None.
Proof.
  intros Hok. unfold await, ProductCache_set, ProductCache_clear.
  rewrite !flush_enqueue, !run_task_unavailable by by rewrite flush_db_ok.
  rewrite flush_unavailable by done. repeat split.
  - apply ProductCache_get_null. by rewrite Hok.
  - unfold ProductCache_getById. rewrite flush_unavailable by done. reflexivity.
Qed.

Lemma ProductCache_when_database_unavailable_witness :
  (localStorage
     (await (ProductCache_set [rose])
        (State (localStorage catalog_state) (products_store catalog_state)
           false 2000 []))
   = localStorage catalog_state
   /\ products_store
        (await (ProductCache_set [rose])
           (State (localStorage catalog_state) (products_store catalog_state)
              false 2000 []))
      = products_store catalog_state)
  /\ (localStorage
        (await ProductCache_clear
           (State (localStorage catalog_state) (products_store catalog_state)
              false 2000 []))
      = localStorage catalog_state
      /\ products_store
           (await ProductCache_clear
              (State (localStorage catalog_state) (products_store catalog_state)
                 false 2000 []))
         = products_store catalog_state)
  /\ fst (ProductCache_get
            (State (localStorage catalog_state) (products_store catalog_state)
               false 2000 [])) = None
  /\ fst (ProductCache_getById (Some 1)
            (State (localStorage catalog_state) (products_store catalog_state)
               false 2000 [])) = None.
Proof.
  apply (ProductCache_when_database_unavailable
           (State (localStorage catalog_state) (products_store catalog_state)
              false 2000 []) [rose] (Some 1)).
  reflexivity.
Defined.

Lemma flush_user_slot σ :
  getItem USER_CACHE_KEY (flush σ) = getItem USER_CACHE_KEY σ.
Proof.
  unfold flush.
  change (getItem USER_CACHE_KEY σ)
    with (getItem USER_CACHE_KEY
            (State (localStorage σ) (products_store σ) (db_ok σ) (now σ) [])).
  generalize (State (localStorage σ) (products_store σ) (db_ok σ) (now σ) []).
  induction (pending σ) as [|t ts IH]; intros s; [done|].
  cbn [fold_left]. by rewrite IH, run_task_user_slot.
Qed.

(** X10.  After [await ProductCache.clear()] with the database available,
    the store is empty, the metadata is gone, [isExpired()] is [true], and
    [get] and [getById] resolve to [null]; the user slot is as before. *)
Theorem ProductCache_clear_then_reads (σ : state) (id : option Z) :
  db_ok σ = true ->
  let σ' := await ProductCache_clear σ in
  products_store σ' = []
  /\ getItem PRODUCTS_CACHE_KEY σ' = None
  /\ ProductCache_isExpired σ' = Ok true
  /\ fst (ProductCache_get σ') = None
  /\ fst (ProductCache_getById id σ') = None
  /\ getItem USER_CACHE_KEY σ' = getItem USER_CACHE_KEY σ.
Proof.
  intros Hok. cbn zeta. unfold await, ProductCache_clear.
  rewrite flush_enqueue. cbn [run_task].
  destruct (clear_task_store (flush σ)) as [Hstore Hmeta]; [by rewrite flush_db_ok|].
  assert (Hq : pending (clear_task (flush σ)) = []).
  { change (clear_task ?s) with (run_task TClear s).
    by rewrite run_task_pending, flush_pending. }
  repeat split; try done.
  - unfold ProductCache_isExpired. by rewrite Hmeta.
  - unfold ProductCache_get. by rewrite Hmeta.
  - unfold ProductCache_getById. rewrite flush_quiescent by done. rewrite Hstore.
    destruct (initDB _); [|done]. by destruct id.
  - change (clear_task ?s) with (run_task TClear s).
    by rewrite run_task_user_slot, flush_user_slot.
Qed.

Lemma ProductCache_clear_then_reads_witness :
  products_store (await ProductCache_clear catalog_state) = []
  /\ getItem PRODUCTS_CACHE_KEY (await ProductCache_clear catalog_state) = None
  /\ ProductCache_isExpired (await ProductCache_clear catalog_state) = Ok true
  /\ fst (ProductCache_get (await ProductCache_clear catalog_state)) = None
  /\ fst (ProductCache_getById (Some 1) (await ProductCache_clear catalog_state)) = None
  /\ getItem USER_CACHE_KEY (await ProductCache_clear catalog_state)
     = getItem USER_CACHE_KEY catalog_state.
Proof.
  apply (ProductCache_clear_then_reads catalog_state (Some 1)). reflexivity.
Defined.

Lemma ProductCache_isExpired_of_meta σ ts :
  products_meta_field (str "timestamp") σ = Some (JNum ts) ->
  ProductCache_isExpired σ = Ok (expired (now σ) (Some (JNum ts))).
Proof.
  unfold products_meta_field, ProductCache_isExpired. intros Hmeta.
  destruct (getItem PRODUCTS_CACHE_KEY σ) as [meta|]; [|done].
  destruct meta as [|c meta]; [done|]. cbn [present].
  destruct (JSON_parse (c :: meta)) as [v|e]; [|done].
  destruct v as [| | | | |o]; try done.
  cbn [mbind result_bind get_prop]. cbn [get_prop_opt] in Hmeta. by rewrite Hmeta.
Qed.

(** X11.  After [await ProductCache.set(products)] on product records with
    distinct ids (the empty list included), [ProductCache.isExpired()] made
    [d] milliseconds later is [false] up to and including 30 minutes and
    [true] from one millisecond later, from when [ProductCache.get()]
    resolves to [null]. *)
Theorem ProductCache_expiry_boundary (products : list json) (σ : state) (d : Z) :
  Forall (fun p => is_product_record p = true) products ->
  NoDup (map product_id products) ->
  db_ok σ = true ->
  let σ' := elapse d (await (ProductCache_set products) σ) in
  ProductCache_isExpired σ' = Ok (CACHE_DURATION <? d)
  /\ (CACHE_DURATION < d -> fst (ProductCache_get σ') = None).
Proof.
  intros Hrec Hnd Hok. cbn zeta.
  destruct (await_set_distinct products σ Hrec Hnd Hok) as (l & _ & ->).
  assert (Hts : products_meta_field (str "timestamp")
                  (elapse d
                     (State (<[PRODUCTS_CACHE_KEY :=
                                 JSON_stringify
                                   (products_meta (now σ) (Z.of_nat (length products))
                                      (generateHash (JArr products)))]>
                               (localStorage (flush σ))) l true (now σ) []))
                = Some (JNum (now σ))).
  { unfold products_meta_field, getItem. cbn [elapse localStorage].
    rewrite lookup_insert_eq.
    by rewrite JSON_parse_stringify by apply wf_products_meta, generateHash_code_units. }
  split.
  - rewrite (ProductCache_isExpired_of_meta _ _ Hts). unfold expired.
    cbn [to_number elapse now]. by replace (now σ + d - now σ) with d by lia.
  - intros Hd. rewrite (ProductCache_get_expired _ (now σ)); [done | done |].
    cbn [elapse now]. lia.
Qed.

Lemma ProductCache_expiry_boundary_witness :
  ProductCache_isExpired
    (elapse (CACHE_DURATION + 1) (await (ProductCache_set [rose; oud]) empty_state))
  = Ok (CACHE_DURATION <? CACHE_DURATION + 1)
  /\ (CACHE_DURATION < CACHE_DURATION + 1 ->
      fst (ProductCache_get
             (elapse (CACHE_DURATION + 1)
                (await (ProductCache_set [rose; oud]) empty_state))) = None).
Proof.
  apply (ProductCache_expiry_boundary [rose; oud] empty_state (CACHE_DURATION + 1)).
  - repeat constructor.
  - apply NoDup_cons. split; [|apply NoDup_singleton].
    intros H%list_elem_of_singleton. discriminate H.
  - reflexivity.
Defined.

(** X12.  [getById] does not look at the metadata: when the metadata entry
    is missing and the store still holds a fresh record of key [id],
    [ProductCache.get()] resolves to [null] while
    [ProductCache.getById(id)] resolves to that record. *)
Theorem getById_without_metadata (σ : state) (id : Z) (product : record) :
  pending σ = [] ->
  db_ok σ = true ->
  getItem PRODUCTS_CACHE_KEY σ = None ->
  find (has_key (JNum id)) (products_store σ) = Some product ->
  expired (now σ) (obj_get (str "_cached_at") product) = false ->
  fst (ProductCache_get σ) = None
  /\ fst (ProductCache_getById (Some id) σ) = Some (strip product).
Proof.
  intros Hq Hok Hmeta Hfind Hfresh. split.
  - unfold ProductCache_get. by rewrite Hmeta.
  - unfold ProductCache_getById. rewrite flush_quiescent by done.
    unfold initDB. rewrite Hok. cbn [fst mbind result_bind store_get].
    by rewrite Hfind, Hfresh.
Qed.

Lemma getById_without_metadata_witness :
  fst (ProductCache_get (removeItem PRODUCTS_CACHE_KEY catalog_state)) = None
  /\ fst (ProductCache_getById (Some 1) (removeItem PRODUCTS_CACHE_KEY catalog_state))
     = Some (strip (cached_record 1000 rose)).
Proof.
  apply (getById_without_metadata (removeItem PRODUCTS_CACHE_KEY catalog_state) 1
           (cached_record 1000 rose)); reflexivity.
Defined.


Lemma existsb_Permutation {A} (g : A -> bool) (l l' : list A) :
  l ≡ₚ l' -> existsb g l = existsb g l'.
Proof.
  induction 1 as [|x l l' _ IH|x y l|l l' l'' _ IH1 _ IH2]; cbn [existsb].
  - reflexivity.
  - by rewrite IH.
  - by destruct (g x), (g y).
  - by rewrite IH1.
Qed.

Lemma add_products_duplicate timestamp products :
  forall added w f,
    Forall (fun p => is_product_record p = true) (added ++ products) ->
    (forall z, existsb (has_key (JNum z)) w = true
               <-> Some (JNum z) ∈ map product_id added) ->
    (f = false -> NoDup (map product_id added)) ->
    ~ NoDup (map product_id (added ++ products)) ->
    exists w', add_products timestamp products (Txn w f) = (Txn w' true, Ok ()).
Proof.
  induction products as [|p products IH]; intros added w f Hrec Hinv Hnd Hdup.
  { rewrite app_nil_r in Hdup. destruct f; [by exists w|]. exfalso. by apply Hdup, Hnd. }
  assert (Hp : is_product_record p = true).
  { apply Forall_app in Hrec as [_ Hrec]. by apply Forall_cons in Hrec as [? _]. }
  destruct (product_record_id p Hp) as [z Hz].
  cbn [add_products]. unfold store_add.
  rewrite key_of_cached_record, Hz by done. cbn [valid_key written failed].
  destruct (existsb (has_key (JNum z)) w) eqn:He.
  - apply (IH (added ++ [p]) w true).
    + by rewrite <- app_assoc.
    + intros z'. rewrite map_app, elem_of_app. cbn [map].
      rewrite list_elem_of_singleton, Hz. split.
      * intros H. left. by apply Hinv.
      * intros [H|H]; [by apply Hinv|]. by injection H as ->.
    + done.
    + by rewrite <- app_assoc.
  - apply (IH (added ++ [p])
             (insert_by_key (JNum z) (cached_record timestamp p) w) f).
    + by rewrite <- app_assoc.
    + intros z'. rewrite (existsb_Permutation _ _ _ (insert_by_key_Permutation _ _ _)).
      cbn [existsb]. rewrite map_app, elem_of_app. cbn [map].
      rewrite list_elem_of_singleton, Hz, orb_true_iff, Hinv.
      unfold has_key. rewrite key_of_cached_record, Hz by done. cbn [json_eqb].
      rewrite Z.eqb_eq. split; intros [H|H]; auto; [by right; rewrite H|].
      left. by injection H.
    + intros Hf. rewrite map_app. apply NoDup_app. repeat split.
      * by apply Hnd.
      * cbn [map]. intros x Hx ->%list_elem_of_singleton.
        rewrite Hz in Hx. apply Hinv in Hx. congruence.
      * apply NoDup_singleton.
    + by rewrite <- app_assoc.
Qed.

(** X13.  When two of the records given to [ProductCache.set] have the same
    id, the second [store.add] fails without throwing: the transaction is
    rolled back, so the store keeps the records it had, while the metadata is
    written with the present time and the length of the list.
    [ProductCache.get()] then resolves to the records stored before, as
    fresh ones. *)
Theorem ProductCache_set_duplicate_ids (products : list json) (σ : state) :
  Forall (fun p => is_product_record p = true) products ->
  ~ NoDup (map product_id products) ->
  db_ok σ = true ->
  let σ' := await (ProductCache_set products) σ in
  products_store σ' = products_store (flush σ)
  /\ products_meta_field (str "timestamp") σ' = Some (JNum (now σ))
  /\ products_meta_field (str "count") σ'
     = Some (JNum (Z.of_nat (length products)))
  /\ fst (ProductCache_get σ') = or_null (map strip (products_store (flush σ))).
Proof.
  intros Hrec Hdup Hok. cbn zeta.
  destruct (add_products_duplicate (now σ) products [] [] false) as [w Hw];
    [done | | intros _; apply NoDup_nil_2 | done |].
  { intros z. cbn [existsb map]. split; [done|]. by intros ?%elem_of_nil. }
  assert (Hset : await (ProductCache_set products) σ
                 = State (<[PRODUCTS_CACHE_KEY :=
                              JSON_stringify
                                (products_meta (now σ) (Z.of_nat (length products))
                                   (generateHash (JArr products)))]>
                            (localStorage (flush σ)))
                     (products_store (flush σ)) true (now σ) []).
  { unfold await, ProductCache_set. rewrite flush_enqueue. cbn [run_task].
    unfold set_task, initDB. rewrite flush_db_ok, Hok, flush_now.
    unfold store_clear. cbn [failed]. rewrite Hw.
    unfold commit, setItem.
    cbn [localStorage products_store db_ok now pending failed written fst snd].
    by rewrite ?flush_db_ok, ?Hok, ?flush_now, ?flush_pending. }
  rewrite Hset.
  assert (Hfield : forall k,
             products_meta_field k
               (State (<[PRODUCTS_CACHE_KEY :=
                            JSON_stringify
                              (products_meta (now σ) (Z.of_nat (length products))
                                 (generateHash (JArr products)))]>
                          (localStorage (flush σ)))
                  (products_store (flush σ)) true (now σ) [])
             = get_prop_opt
                 (products_meta (now σ) (Z.of_nat (length products))
                    (generateHash (JArr products))) k).
  { intros k. unfold products_meta_field, getItem. cbn [localStorage].
    rewrite lookup_insert_eq.
    by rewrite JSON_parse_stringify by apply wf_products_meta, generateHash_code_units. }
  repeat split.
  - by rewrite Hfield.
  - by rewrite Hfield.
  - rewrite (ProductCache_get_fresh _ (now σ)); [| by rewrite Hfield | | done].
    + by rewrite flush_quiescent.
    + cbn [now]. unfold CACHE_DURATION. lia.
Qed.

Lemma ProductCache_set_duplicate_ids_witness :
  products_store (await (ProductCache_set [rose; rose]) catalog_state)
  = products_store (flush catalog_state)
  /\ products_meta_field (str "timestamp")
       (await (ProductCache_set [rose; rose]) catalog_state)
     = Some (JNum (now catalog_state))
  /\ products_meta_field (str "count")
       (await (ProductCache_set [rose; rose]) catalog_state)
     = Some (JNum (Z.of_nat (length [rose; rose])))
  /\ fst (ProductCache_get (await (ProductCache_set [rose; rose]) catalog_state))
     = or_null (map strip (products_store (flush catalog_state))).
Proof.
  apply (ProductCache_set_duplicate_ids [rose; rose] catalog_state).
  - repeat constructor.
  - intros Hnd. apply NoDup_cons in Hnd as [Hnin _]. apply Hnin. left.
  - reflexivity.
Defined.


(** ** [apiGetProducts] and [apiGetCurrentUser] *)

Lemma products_meta_field_written k timestamp count hash ls st ok nw pd :
  Forall code_unit hash ->
  products_meta_field k
    (State (<[PRODUCTS_CACHE_KEY :=
                JSON_stringify (products_meta timestamp count hash)]> ls)
       st ok nw pd)
  = get_prop_opt (products_meta timestamp count hash) k.
Proof.
  intros Hhash. unfold products_meta_field, getItem. cbn [localStorage].
  rewrite lookup_insert_eq. by rewrite JSON_parse_stringify by by apply wf_products_meta.
Qed.

Lemma ProductCache_get_hit σ cached :
  pending σ = [] ->
  fst (ProductCache_get σ) = Some cached ->
  ProductCache_get σ = (Some cached, σ) /\ ProductCache_isExpired σ = Ok false.
Proof.
  intros Hq. unfold ProductCache_get, ProductCache_isExpired.
  destruct (present _) as [meta|]; [|done].
  destruct (JSON_parse meta) as [v|]; [|done]. cbn [mbind result_bind].
  destruct (get_prop v _) as [timestamp|]; [|done]. cbn [mbind result_bind].
  destruct (expired _ _); [done|]. cbn zeta.
  rewrite flush_quiescent by done. destruct (initDB σ); [|done].
  cbn [fst]. by intros ->.
Qed.

Lemma ProductCache_get_db_ok σ : db_ok (snd (ProductCache_get σ)) = db_ok σ.
Proof.
  unfold ProductCache_get.
  destruct (present _) as [meta|]; [|done].
  destruct (_ ← JSON_parse meta; _) as [timestamp|]; [|done].
  destruct (expired _ _).
  - cbn [snd]. unfold await. by rewrite flush_db_ok.
  - cbn zeta. destruct (initDB _); cbn [snd]; by rewrite flush_db_ok.
Qed.

Lemma fetch_products_value response latency σ :
  fst (fetch_products response latency σ) = response.
Proof.
  unfold fetch_products. destruct response as [response|e]; [|done]. cbn zeta.
  destruct (get_prop_opt response (str "products")) as [[| | | | |]|];
    try done; by destruct (truthy _).
Qed.

Lemma apiGetProducts_miss response wait latency σ :
  fst (ProductCache_get σ) = None ->
  fst (apiGetProducts response wait latency σ) = response.
Proof.
  unfold apiGetProducts. destruct (ProductCache_get σ) as [cached σ'].
  cbn [fst]. intros ->. apply fetch_products_value.
Qed.

Lemma apiGetProducts_miss_state response wait latency σ :
  fst (ProductCache_get σ) = None ->
  apiGetProducts response wait latency σ
  = fetch_products response latency (elapse wait (snd (ProductCache_get σ))).
Proof.
  unfold apiGetProducts. destruct (ProductCache_get σ) as [cached σ'].
  cbn [fst snd]. by intros ->.
Qed.

(** After a hit of [get()], [apiGetProducts] goes by the second reading of
    the clock. *)
Lemma apiGetProducts_second_reading σ cached ts response wait latency :
  pending σ = [] ->
  fst (ProductCache_get σ) = Some cached ->
  products_meta_field (str "timestamp") σ = Some (JNum ts) ->
  apiGetProducts response wait latency σ
  = if CACHE_DURATION <? now σ + wait - ts
    then fetch_products response latency (elapse wait σ)
    else (Ok (JObj [(str "products", JArr cached)]), elapse wait σ).
Proof.
  intros Hq Hget Hts.
  destruct (ProductCache_get_hit σ cached Hq Hget) as [Hg _].
  unfold apiGetProducts. rewrite Hg.
  rewrite (ProductCache_isExpired_of_meta (elapse wait σ) ts) by exact Hts.
  unfold expired. cbn [to_number elapse now].
  by destruct (CACHE_DURATION <? now σ + wait - ts).
Qed.

(** X14.  With no cache call in flight, when [ProductCache.get()] resolves
    to records under metadata stamped [ts], [apiGetProducts()] goes by the
    clock as [ProductCache.isExpired()] reads it, [wait] milliseconds after
    [get()] read it.  If that reading is no more than 30 minutes after
    [ts], it resolves to [{ products: cached }] whatever the back end would
    have answered, and writes nothing; if it is later, the records [get()]
    found are dropped and the call resolves to, or is rejected with, what
    the request settles to. *)
Theorem apiGetProducts_hit
  (σ : state) (cached : list json) (ts : Z) (response : result json)
  (wait latency : Z) :
  pending σ = [] ->
  fst (ProductCache_get σ) = Some cached ->
  products_meta_field (str "timestamp") σ = Some (JNum ts) ->
  (now σ + wait - ts <= CACHE_DURATION ->
   apiGetProducts response wait latency σ
   = (Ok (JObj [(str "products", JArr cached)]), elapse wait σ))
  /\ (CACHE_DURATION < now σ + wait - ts ->
      fst (apiGetProducts response wait latency σ) = response).
Proof.
  intros Hq Hget Hts.
  rewrite (apiGetProducts_second_reading σ cached ts) by done.
  destruct (Z.ltb_spec CACHE_DURATION (now σ + wait - ts)); split; intros Hw;
    try lia; [apply fetch_products_value | reflexivity].
Qed.

Lemma apiGetProducts_hit_witness :
  apiGetProducts (Throw OpenError) 40 250 (elapse 60000 catalog_state)
  = (Ok (JObj [(str "products", JArr [rose; oud])]),
     elapse 40 (elapse 60000 catalog_state))
  /\ fst (apiGetProducts (Ok JNull) 1 250 (elapse 1800000 catalog_state))
     = Ok JNull.
Proof.
  split.
  - apply (apiGetProducts_hit (elapse 60000 catalog_state) [rose; oud] 1000
             (Throw OpenError) 40 250);
      [reflexivity | vm_compute; reflexivity | vm_compute; reflexivity
      | vm_compute; discriminate].
  - apply (apiGetProducts_hit (elapse 1800000 catalog_state) [rose; oud] 1000
             (Ok JNull) 1 250);
      [reflexivity | vm_compute; reflexivity | vm_compute; reflexivity
      | vm_compute; reflexivity].
Defined.

(** X15.  Read-through.  On a miss, with the database available,
    [apiGetProducts()] resolves to the response of the back end.  When the
    [products] of that response is a non-empty array of product records with
    distinct ids, a later call, whose [get()] reads the clock [d]
    milliseconds after the timestamp [set] wrote and whose [isExpired()]
    reads it [wait'] milliseconds after that, resolves to [{ products }]
    with exactly those records when [d + wait'] is no more than 30 minutes,
    whatever the back end answers then; when [d + wait'] is more, it goes
    to the back end again. *)
Theorem apiGetProducts_read_through
  (products : list json) (response : json) (σ : state) (wait latency d : Z)
  (response' : result json) (wait' latency' : Z) :
  products <> [] ->
  Forall (fun p => is_product_record p = true) products ->
  NoDup (map product_id products) ->
  db_ok σ = true ->
  fst (ProductCache_get σ) = None ->
  get_prop_opt response (str "products") = Some (JArr products) ->
  0 <= wait' ->
  let first := apiGetProducts (Ok response) wait latency σ in
  fst first = Ok response
  /\ exists got,
       got ≡ₚ products
       /\ (d + wait' <= CACHE_DURATION ->
           apiGetProducts response' wait' latency' (elapse d (snd first))
           = (Ok (JObj [(str "products", JArr got)]),
              elapse wait' (elapse d (snd first))))
       /\ (CACHE_DURATION < d + wait' ->
           fst (apiGetProducts response' wait' latency' (elapse d (snd first)))
           = response').
Proof.
  intros Hne Hrec Hnd Hok Hmiss Hproducts Hwait. cbn zeta.
  rewrite apiGetProducts_miss_state by done.
  unfold fetch_products. cbn zeta. rewrite Hproducts. cbn [fst snd].
  split; [done|].
  set (σ0 := elapse wait (snd (ProductCache_get σ))).
  destruct (await_set_distinct products (elapse latency σ0) Hrec Hnd) as (l & Hperm & ->);
    [by cbn [elapse db_ok]; unfold σ0; cbn [elapse db_ok];
        rewrite ProductCache_get_db_ok|].
  set (ts := now (elapse latency σ0)).
  set (ls := localStorage (flush (elapse latency σ0))).
  set (S := State (<[PRODUCTS_CACHE_KEY :=
                       JSON_stringify
                         (products_meta ts (Z.of_nat (length products))
                            (generateHash (JArr products)))]> ls)
              l true ts []).
  assert (Hts : products_meta_field (str "timestamp") (elapse d S) = Some (JNum ts)).
  { unfold S, elapse. cbn [localStorage products_store db_ok now pending].
    by rewrite products_meta_field_written by apply generateHash_code_units. }
  assert (Hl : or_null (map strip l) = Some (map strip l)).
  { destruct l as [|r l]; [|done].
    apply Permutation_nil_l in Hperm. by destruct products. }
  assert (Hget : d <= CACHE_DURATION ->
                 fst (ProductCache_get (elapse d S)) = Some (map strip l)).
  { intros Hd. rewrite (ProductCache_get_fresh _ ts); [|done| |reflexivity].
    - by rewrite flush_quiescent.
    - unfold S. cbn [elapse now]. lia. }
  exists (map strip l). split; [by rewrite Hperm, strip_cached_records|]. split.
  - intros Hd.
    rewrite (apiGetProducts_second_reading (elapse d S) (map strip l) ts);
      [|reflexivity | apply Hget; lia | done].
    unfold S at 1. cbn [elapse now].
    by destruct (Z.ltb_spec CACHE_DURATION (ts + d + wait' - ts)); [lia|].
  - intros Hd. destruct (Z.le_gt_cases d CACHE_DURATION) as [Hfresh | Hold].
    + rewrite (apiGetProducts_second_reading (elapse d S) (map strip l) ts);
        [|reflexivity | by apply Hget | done].
      unfold S at 1. cbn [elapse now].
      destruct (Z.ltb_spec CACHE_DURATION (ts + d + wait' - ts)); [|lia].
      apply fetch_products_value.
    + apply apiGetProducts_miss.
      rewrite (ProductCache_get_expired _ ts); [done | done |].
      unfold S. cbn [elapse now]. lia.
Qed.

Lemma apiGetProducts_read_through_witness :
  fst (apiGetProducts
         (Ok (JObj [(str "products", JArr [rose; oud])])) 5 250 empty_state)
  = Ok (JObj [(str "products", JArr [rose; oud])])
  /\ exists got,
       got ≡ₚ [rose; oud]
       /\ apiGetProducts (Throw OpenError) 40 100
            (elapse 60000
               (snd (apiGetProducts
                       (Ok (JObj [(str "products", JArr [rose; oud])])) 5 250
                       empty_state)))
          = (Ok (JObj [(str "products", JArr got)]),
             elapse 40
               (elapse 60000
                  (snd (apiGetProducts
                          (Ok (JObj [(str "products", JArr [rose; oud])])) 5 250
                          empty_state)))).
Proof.
  destruct (apiGetProducts_read_through [rose; oud]
              (JObj [(str "products", JArr [rose; oud])]) empty_state 5 250 60000
              (Throw OpenError) 40 100)
    as (Hfirst & got & Hgot & Hhit & _).
  - discriminate.
  - repeat constructor.
  - apply NoDup_cons. split; [|apply NoDup_singleton].
    intros H%list_elem_of_singleton. discriminate H.
  - reflexivity.
  - reflexivity.
  - reflexivity.
  - lia.
  - split; [exact Hfirst|]. exists got. split; [exact Hgot|].
    apply Hhit. unfold CACHE_DURATION. lia.
Defined.

Lemma await_set_refused product products σ :
  storable product = false ->
  db_ok σ = true ->
  await (ProductCache_set (product :: products)) σ
  = State (localStorage (flush σ)) [] true (now σ) [].
Proof.
  intros Hkey Hok.
  unfold await, ProductCache_set. rewrite flush_enqueue. cbn [run_task].
  unfold set_task, initDB. rewrite flush_db_ok, Hok.
  unfold store_clear. cbn [failed add_products]. unfold store_add.
  rewrite key_of_cached_record_any. unfold storable in Hkey.
  destruct (product_key product) as [k|];
    [rewrite Hkey|]; unfold commit;
    cbn [mbind result_bind try_catch localStorage products_store db_ok now
         pending failed written];
    by rewrite ?flush_db_ok, ?Hok, ?flush_now, ?flush_pending.
Qed.

(** X16.  Records that [store.add] refuses are never served.  When the
    first of the [products] of the response has no [id] (or one that is no
    key), the call that fetched them leaves the store empty, and every later
    [apiGetProducts()] goes to the back end again: it resolves to, or is
    rejected with, what its own request settles to. *)
Theorem apiGetProducts_refused_records
  (product : json) (products : list json) (response : json) (σ : state)
  (wait latency d : Z) (response' : result json) (wait' latency' : Z) :
  storable product = false ->
  db_ok σ = true ->
  fst (ProductCache_get σ) = None ->
  get_prop_opt response (str "products") = Some (JArr (product :: products)) ->
  let first := apiGetProducts (Ok response) wait latency σ in
  products_store (snd first) = []
  /\ fst (apiGetProducts response' wait' latency' (elapse d (snd first)))
     = response'.
Proof.
  intros Hkey Hok Hmiss Hproducts. cbn zeta.
  rewrite apiGetProducts_miss_state by done.
  unfold fetch_products. cbn zeta. rewrite Hproducts. cbn [fst snd].
  rewrite await_set_refused
    by (by cbn [elapse db_ok]; rewrite ?ProductCache_get_db_ok).
  cbn [products_store].
  split; [done|].
  apply apiGetProducts_miss, ProductCache_get_null.
  intros _. by rewrite flush_quiescent.
Qed.

Lemma apiGetProducts_refused_records_witness :
  products_store
    (snd (apiGetProducts
            (Ok (JObj [(str "products",
                        JArr [JObj [(str "product_id", JNum 7)]; rose])]))
            5 250 (elapse 1800001 catalog_state))) = []
  /\ fst (apiGetProducts (Ok JNull) 5 100
            (elapse 5000
               (snd (apiGetProducts
                       (Ok (JObj [(str "products",
                                   JArr [JObj [(str "product_id", JNum 7)]; rose])]))
                       5 250 (elapse 1800001 catalog_state)))))
     = Ok JNull.
Proof.
  apply (apiGetProducts_refused_records
           (JObj [(str "product_id", JNum 7)]) [rose]
           (JObj [(str "products", JArr [JObj [(str "product_id", JNum 7)]; rose])])
           (elapse 1800001 catalog_state) 5 250 5000 (Ok JNull) 5 100).
  - reflexivity.
  - reflexivity.
  - vm_compute. reflexivity.
  - reflexivity.
Defined.


Lemma apiGetCurrentUser_value response latency σ :
  fst (apiGetCurrentUser response latency σ)
  = if truthy (Some (fst (UserCache_get σ)))
    then Ok (JObj [(str "user", fst (UserCache_get σ))])
    else response.
Proof.
  unfold apiGetCurrentUser. destruct (UserCache_get σ) as [cached σ'].
  cbn [fst]. destruct (truthy (Some cached)); [done|].
  destruct response as [response|e]; [|done]. cbn zeta.
  destruct (get_prop_opt response (str "user")) as [user|]; [|done].
  by destruct (truthy _).
Qed.

Lemma UserCache_get_now σ : now (snd (UserCache_get σ)) = now σ.
Proof. by destruct (UserCache_get_state σ) as [-> | ->]. Qed.

Lemma apiGetCurrentUser_cached σ cached response latency :
  UserCache_get σ = (cached, σ) ->
  truthy (Some cached) = true ->
  apiGetCurrentUser response latency σ = (Ok (JObj [(str "user", cached)]), σ).
Proof. intros Hget Hhit. unfold apiGetCurrentUser. by rewrite Hget, Hhit. Qed.

(** X17.  When [UserCache.get()] returns a truthy value,
    [apiGetCurrentUser()] resolves to [{ user: cached }] whatever the back
    end would have answered, and changes nothing. *)
Theorem apiGetCurrentUser_hit
  (σ : state) (response : result json) (latency : Z) :
  truthy (Some (fst (UserCache_get σ))) = true ->
  apiGetCurrentUser response latency σ
  = (Ok (JObj [(str "user", fst (UserCache_get σ))]), σ).
Proof.
  intros Hhit.
  assert (Hstate : snd (UserCache_get σ) = σ).
  { apply UserCache_get_hit. by intros Hnull; rewrite Hnull in Hhit. }
  apply apiGetCurrentUser_cached; [|done].
  rewrite <- Hstate at 3. by destruct (UserCache_get σ).
Qed.

Lemma apiGetCurrentUser_hit_witness :
  apiGetCurrentUser (Throw OpenError) 250 signed_in_state
  = (Ok (JObj [(str "user", fst (UserCache_get signed_in_state))]), signed_in_state).
Proof.
  apply (apiGetCurrentUser_hit signed_in_state (Throw OpenError) 250).
  vm_compute. reflexivity.
Defined.

(** X18.  Read-through.  On a miss, [apiGetCurrentUser()] resolves to the
    response of the back end; when the [user] of that response is truthy
    and its cached text has no code unit above [0xFF], every call made
    within the following 30 minutes resolves to [{ user }] with that
    profile, whatever the back end answers then, and changes nothing. *)
Theorem apiGetCurrentUser_read_through
  (user response : json) (σ : state) (latency d : Z) :
  wf_json user ->
  Forall byte
    (JSON_stringify (cache_data user (now σ + latency) (generateHash user))) ->
  truthy (Some user) = true ->
  truthy (Some (fst (UserCache_get σ))) = false ->
  get_prop_opt response (str "user") = Some user ->
  0 <= d <= CACHE_DURATION ->
  let first := apiGetCurrentUser (Ok response) latency σ in
  fst first = Ok response
  /\ forall response' latency',
       apiGetCurrentUser response' latency' (elapse d (snd first))
       = (Ok (JObj [(str "user", user)]), elapse d (snd first)).
Proof.
  intros Hwf Hbytes Huser Hmiss Hresponse Hd. cbn zeta. split.
  { by rewrite apiGetCurrentUser_value, Hmiss. }
  intros response' latency'.
  assert (Hfirst : snd (apiGetCurrentUser (Ok response) latency σ)
                   = UserCache_set user (elapse latency (snd (UserCache_get σ)))).
  { unfold apiGetCurrentUser. destruct (UserCache_get σ) as [cached σ0].
    cbn [fst snd] in *. rewrite Hmiss. cbn zeta. by rewrite Hresponse, Huser. }
  rewrite Hfirst. apply apiGetCurrentUser_cached; [|done].
  apply UserCache_set_then_get; [done| |done].
  cbn [elapse now]. by rewrite UserCache_get_now.
Qed.

Lemma apiGetCurrentUser_read_through_witness :
  fst (apiGetCurrentUser (Ok (JObj [(str "user", asha)])) 250 empty_state)
  = Ok (JObj [(str "user", asha)])
  /\ forall response' latency',
       apiGetCurrentUser response' latency'
         (elapse 60000
            (snd (apiGetCurrentUser (Ok (JObj [(str "user", asha)])) 250
                    empty_state)))
       = (Ok (JObj [(str "user", asha)]),
          elapse 60000
            (snd (apiGetCurrentUser (Ok (JObj [(str "user", asha)])) 250
                    empty_state))).
Proof.
  apply (apiGetCurrentUser_read_through asha (JObj [(str "user", asha)])
           empty_state 250 60000).
  - by apply wf_jsonb_correct.
  - by apply forallb_byte.
  - reflexivity.
  - reflexivity.
  - reflexivity.
  - unfold CACHE_DURATION. lia.
Defined.

(** X19.  After [apiLogout()] has resolved, at any later moment, both
    [apiGetCurrentUser()] and [apiGetProducts()] go to the back end: each
    resolves to, or is rejected with, what its own request settles to. *)
Theorem apiLogout_then_reads_fetch
  (logged_out : json) (σ : state) (d : Z) (response : result json)
  (wait latency : Z) :
  let σ' := elapse d (snd (apiLogout (Ok logged_out) σ)) in
  fst (apiGetCurrentUser response latency σ') = response
  /\ fst (apiGetProducts response wait latency σ') = response.
Proof.
  cbn zeta. unfold apiLogout, invalidateCache. cbn [snd]. split.
  - rewrite apiGetCurrentUser_value. unfold UserCache_get at 1.
    unfold UserCache_clear, getItem, removeItem, elapse. cbn [localStorage].
    by rewrite lookup_delete_eq.
  - apply apiGetProducts_miss, ProductCache_get_null. intros Hok.
    by apply (flush_ends_with_clear _ (pending σ)).
Qed.


(** ** What the reads depend on *)

Lemma run_task_store_ext t σ σ' :
  products_store σ = products_store σ' ->
  db_ok σ = db_ok σ' ->
  now σ = now σ' ->
  products_store (run_task t σ) = products_store (run_task t σ').
Proof.
  intros Hstore Hok Hnow.
  destruct t as [products|]; cbn [run_task]; unfold set_task, clear_task, initDB;
    rewrite Hok; destruct (db_ok σ'); try done.
  rewrite Hstore, Hnow.
  destruct (add_products _ _ _) as [t [[]|e]];
    unfold commit; cbn [mbind result_bind try_catch products_store setItem];
    by rewrite Hstore.
Qed.

Lemma serve_store_ext ts :
  forall σ σ',
    products_store σ = products_store σ' ->
    db_ok σ = db_ok σ' ->
    now σ = now σ' ->
    products_store (fold_left (fun σ t => run_task t σ) ts σ)
    = products_store (fold_left (fun σ t => run_task t σ) ts σ').
Proof.
  induction ts as [|t ts IH]; intros σ σ' Hstore Hok Hnow; [done|].
  cbn [fold_left]. apply IH.
  - by apply run_task_store_ext.
  - by rewrite !run_task_db_ok.
  - by rewrite !run_task_now.
Qed.

Lemma flush_store_ext σ σ' :
  products_store σ = products_store σ' ->
  db_ok σ = db_ok σ' ->
  now σ = now σ' ->
  pending σ = pending σ' ->
  products_store (flush σ) = products_store (flush σ').
Proof.
  intros Hstore Hok Hnow Hq. unfold flush. rewrite Hq. by apply serve_store_ext.
Qed.

(** [ProductCache.getById] reads the store alone. *)
Lemma ProductCache_getById_ext id σ σ' :
  products_store σ = products_store σ' ->
  db_ok σ = db_ok σ' ->
  now σ = now σ' ->
  pending σ = pending σ' ->
  fst (ProductCache_getById id σ) = fst (ProductCache_getById id σ').
Proof.
  intros Hstore Hok Hnow Hq. unfold ProductCache_getById, initDB. cbn [fst].
  by rewrite !flush_db_ok, !flush_now, (flush_store_ext σ σ'), Hok, Hnow.
Qed.

(** [ProductCache.get] reads the store and the metadata entry. *)
Lemma ProductCache_get_ext σ σ' :
  getItem PRODUCTS_CACHE_KEY σ = getItem PRODUCTS_CACHE_KEY σ' ->
  products_store σ = products_store σ' ->
  db_ok σ = db_ok σ' ->
  now σ = now σ' ->
  pending σ = pending σ' ->
  fst (ProductCache_get σ) = fst (ProductCache_get σ').
Proof.
  intros Hmeta Hstore Hok Hnow Hq. unfold ProductCache_get.
  rewrite Hmeta, Hnow. destruct (present _) as [meta|]; [|done].
  destruct (_ ← JSON_parse meta; _) as [timestamp|]; [|done].
  destruct (expired _ _); [done|]. cbn zeta. unfold initDB.
  rewrite !flush_db_ok, (flush_store_ext σ σ'), Hok by done.
  by destruct (db_ok σ').
Qed.

(** [UserCache.get] reads its slot and the clock. *)
Lemma UserCache_get_ext σ σ' :
  getItem USER_CACHE_KEY σ = getItem USER_CACHE_KEY σ' ->
  now σ = now σ' ->
  fst (UserCache_get σ) = fst (UserCache_get σ').
Proof.
  intros Hslot Hnow. unfold UserCache_get. rewrite Hslot, Hnow.
  destruct (present _) as [encoded|]; [|done].
  destruct (atob encoded) as [decoded|]; [|done]. cbn [mbind result_bind].
  destruct (JSON_parse decoded) as [cacheData|]; [|done]. cbn [mbind result_bind].
  destruct (get_prop cacheData (str "timestamp")) as [timestamp|]; [|done].
  cbn [mbind result_bind]. destruct (expired _ _); [done|].
  destruct (get_prop cacheData (str "data")) as [[data|]|]; try done.
  cbn [mbind result_bind].
  destruct (get_prop cacheData (str "hash")) as [hash|]; [|done].
  cbn [mbind result_bind]. by destruct (strict_ne _ _).
Qed.

(** ** The token and [logout] *)

Lemma present_idempotent (item : option jsstring) : present (present item) = present item.
Proof. by destruct item as [[|c s]|]. Qed.

(** X20.  [setAuthToken(token)] followed by [getAuthToken()] gives the
    token back when it is a non-empty string, and [null] for [null] and the
    empty string, which remove the entry; [authHeaders()] then carries
    [Bearer token] in the first case and nothing in the second.  An
    explicit empty token given to [authHeaders] suppresses the stored one. *)
Theorem setAuthToken_then_authHeaders (token : option jsstring) (σ : state) :
  getAuthToken (setAuthToken token σ) = present token
  /\ authHeaders None (setAuthToken token σ)
     = match present token with
       | Some t => [(str "Authorization", str "Bearer " ++ t)]
       | None => []
       end
  /\ authHeaders (Some []) (setAuthToken token σ) = [].
Proof.
  assert (Hget : getAuthToken (setAuthToken token σ) = present token).
  { unfold getAuthToken, setAuthToken, getItem.
    destruct (present token) as [t|]; unfold setItem, removeItem;
      cbn [localStorage]; [apply lookup_insert_eq | apply lookup_delete_eq]. }
  split; [done|]. split; [|done].
  unfold authHeaders. cbn zeta. by rewrite Hget, present_idempotent.
Qed.

(** X21.  [logout()] of [AuthContext] removes the token, so that
    [authHeaders()] is empty, but it clears neither cache: [UserCache.get()],
    [ProductCache.get()] and [ProductCache.getById(id)] give what they gave
    before, and [apiGetCurrentUser()] still resolves to the profile cached
    before the logout. *)
Theorem logout_keeps_caches
  (σ : state) (id : option Z) (response : result json) (latency : Z) :
  getAuthToken (logout σ) = None
  /\ authHeaders None (logout σ) = []
  /\ fst (UserCache_get (logout σ)) = fst (UserCache_get σ)
  /\ fst (apiGetCurrentUser response latency (logout σ))
     = fst (apiGetCurrentUser response latency σ)
  /\ fst (ProductCache_get (logout σ)) = fst (ProductCache_get σ)
  /\ fst (ProductCache_getById id (logout σ)) = fst (ProductCache_getById id σ).
Proof.
  assert (Htoken : getAuthToken (logout σ) = None).
  { unfold getAuthToken, logout, setAuthToken, getItem, removeItem.
    cbn [present localStorage].
    rewrite lookup_delete_ne by done. apply lookup_delete_eq. }
  assert (Hkeep : forall k, k <> TOKEN_KEY -> k <> "spAromaIsSuper"%string ->
                            getItem k (logout σ) = getItem k σ).
  { intros k Hk Hk'. unfold logout, setAuthToken, getItem, removeItem.
    cbn [present localStorage]. by rewrite !lookup_delete_ne. }
  assert (Huser : fst (UserCache_get (logout σ)) = fst (UserCache_get σ)).
  { apply UserCache_get_ext; [by apply Hkeep | done]. }
  repeat split.
  - done.
  - unfold authHeaders. cbn zeta. by rewrite Htoken.
  - done.
  - by rewrite !apiGetCurrentUser_value, Huser.
  - apply ProductCache_get_ext; try done. by apply Hkeep.
  - by apply ProductCache_getById_ext.
Qed.

(** X22.  [invalidateCache] with a scope leaves the other cache alone:
    after [invalidateCache('products')], [UserCache.get()] returns what it
    returned before, and after [invalidateCache('user')], so do
    [ProductCache.get()] and [ProductCache.getById(id)]. *)
Theorem invalidateCache_scopes (σ : state) (id : option Z) :
  fst (UserCache_get (invalidateCache (Some Products) σ)) = fst (UserCache_get σ)
  /\ fst (ProductCache_get (invalidateCache (Some User) σ)) = fst (ProductCache_get σ)
  /\ fst (ProductCache_getById id (invalidateCache (Some User) σ))
     = fst (ProductCache_getById id σ).
Proof.
  cbn [invalidateCache]. repeat split.
  - by apply UserCache_get_ext.
  - apply ProductCache_get_ext; try done.
    unfold UserCache_clear, getItem, removeItem. cbn [localStorage].
    by apply lookup_delete_ne.
  - by apply ProductCache_getById_ext.
Qed.


(** ** Requests *)

Lemma replace_trailing_slash_cons c d s :
  replace_trailing_slash (c :: d :: s) = c :: replace_trailing_slash (d :: s).
Proof. reflexivity. Qed.

Lemma replace_trailing_slash_snoc s : replace_trailing_slash (s ++ [47]) = s.
Proof.
  induction s as [|c s IH]; [done|].
  change ((c :: s) ++ [47]) with (c :: (s ++ [47])).
  destruct (s ++ [47]) as [|d t] eqn:E; [by destruct s|].
  by rewrite replace_trailing_slash_cons, IH.
Qed.

Lemma replace_trailing_slash_none s :
  last s <> Some 47 -> replace_trailing_slash s = s.
Proof.
  induction s as [|c s IH]; [done|]. intros Hlast.
  destruct s as [|d s].
  - cbn [replace_trailing_slash]. destruct (Z.eqb_spec c 47); [|done].
    by subst c.
  - rewrite replace_trailing_slash_cons. f_equal. by apply IH.
Qed.

(** X23.  [resolveUrl] accepts a path with or without its leading slash and
    a base with or without one trailing slash: for a base that does not end
    in a slash and a path that does not begin with one, the four
    combinations resolve to the base, one slash and the path. *)
Theorem resolveUrl_normalises (API_BASE path : jsstring) :
  last API_BASE <> Some 47 ->
  startsWith path (str "/") = false ->
  resolveUrl API_BASE path = API_BASE ++ str "/" ++ path
  /\ resolveUrl API_BASE (str "/" ++ path) = resolveUrl API_BASE path
  /\ resolveUrl (API_BASE ++ str "/") path = resolveUrl API_BASE path
  /\ resolveUrl (API_BASE ++ str "/") (str "/" ++ path) = resolveUrl API_BASE path.
Proof.
  intros Hbase Hpath.
  assert (H1 : forall p, resolveUrl API_BASE p
                         = API_BASE ++ (if startsWith p (str "/") then p
                                        else str "/" ++ p)).
  { intros p. unfold resolveUrl. cbn zeta.
    destruct API_BASE as [|c b]; [done|]. by rewrite replace_trailing_slash_none. }
  assert (H2 : forall p, resolveUrl (API_BASE ++ str "/") p
                         = API_BASE ++ (if startsWith p (str "/") then p
                                        else str "/" ++ p)).
  { intros p. unfold resolveUrl. cbn zeta.
    change (str "/") with [47].
    destruct (API_BASE ++ [47]) as [|c b] eqn:E;
      [destruct API_BASE; discriminate E|].
    by rewrite <- E, replace_trailing_slash_snoc. }
  assert (Hslash : startsWith (str "/" ++ path) (str "/") = true).
  { change (str "/") with [47]. cbn [app startsWith]. by destruct path. }
  by rewrite !H1, !H2, Hpath, Hslash.
Qed.

Lemma resolveUrl_normalises_witness :
  resolveUrl (str "https://api.example.com") (str "products/")
  = str "https://api.example.com" ++ str "/" ++ str "products/"
  /\ resolveUrl (str "https://api.example.com") (str "/" ++ str "products/")
     = resolveUrl (str "https://api.example.com") (str "products/")
  /\ resolveUrl (str "https://api.example.com" ++ str "/") (str "products/")
     = resolveUrl (str "https://api.example.com") (str "products/")
  /\ resolveUrl (str "https://api.example.com" ++ str "/")
       (str "/" ++ str "products/")
     = resolveUrl (str "https://api.example.com") (str "products/").
Proof.
  apply (resolveUrl_normalises (str "https://api.example.com") (str "products/")).
  - vm_compute. discriminate.
  - reflexivity.
Defined.

(** X24.  [parseResponse] is rejected exactly when the response is not
    [ok], and then with the status of the response; under a content type
    other than JSON the body it is rejected with is the text of the
    response as it came, also when that text is JSON. *)
Theorem parseResponse_settles (res : response) :
  exists v,
    parseResponse res
    = (if ok res then Resolved v else Rejected (status res) v)
    /\ (json_content res = false -> ok res = false -> v = JStr (body res)).
Proof.
  unfold parseResponse. destruct (json_content res).
  - exists (try_catch (JSON_parse (body res)) (fun _ => JNull)).
    split; [|done]. by destruct (ok res).
  - cbn zeta. destruct (ok res) eqn:Hok; cbn [negb].
    + destruct (match body res with [] => _ | _ :: _ => _ end) as [json|e].
      * by exists json.
      * by exists (JStr (body res)).
    + exists (JStr (body res)). split; [|done].
      by destruct (match body res with [] => _ | _ :: _ => _ end).
Qed.

Lemma JSON_stringify_nonempty v : JSON_stringify v <> [].
Proof.
  destruct v as [|[]|z|s|l|o]; try done.
  cbn [JSON_stringify]. by destruct (number_to_string_head z) as (c & t & -> & _).
Qed.

(** X25.  A response whose body is the JSON text of a value [v] that
    [JSON.parse] reads back exactly (safe integers, no key that is the text
    of an index) resolves to [v] when it is [ok], whatever its content
    type; when it is not, it is rejected with [v] under a JSON content type
    and with the text otherwise. *)
Theorem parseResponse_of_json_text (res : response) (v : json) :
  wf_json v ->
  exact_json v = true ->
  body res = JSON_stringify v ->
  parseResponse res
  = if ok res then Resolved v
    else Rejected (status res) (if json_content res then v else JStr (body res)).
Proof.
  intros Hwf _ Hbody. unfold parseResponse.
  pose proof (JSON_stringify_nonempty v) as Hne.
  rewrite Hbody, JSON_parse_stringify by done.
  destruct (json_content res); cbn zeta; cbn [try_catch].
  - by destruct (ok res).
  - destruct (JSON_stringify v) as [|c t]; [done|]. by destruct (ok res).
Qed.

Lemma parseResponse_of_json_text_witness :
  parseResponse (Response 200 None (JSON_stringify rose)) = Resolved rose
  /\ parseResponse
       (Response 404 (Some (str "application/json")) (JSON_stringify rose))
     = Rejected 404 rose
  /\ parseResponse (Response 404 (Some (str "text/plain")) (JSON_stringify rose))
     = Rejected 404 (JStr (JSON_stringify rose)).
Proof.
  split; [|split].
  - by rewrite (parseResponse_of_json_text
                  (Response 200 None (JSON_stringify rose)) rose);
      [| apply wf_jsonb_correct | |].
  - by rewrite (parseResponse_of_json_text
                  (Response 404 (Some (str "application/json")) (JSON_stringify rose))
                  rose);
      [| apply wf_jsonb_correct | |].
  - by rewrite (parseResponse_of_json_text
                  (Response 404 (Some (str "text/plain")) (JSON_stringify rose))
                  rose);
      [| apply wf_jsonb_correct | |].
Defined.


(** ** The local cart *)

Lemma cartCount_from (cartItems : list CartItem) (count : Z) :
  fold_left (fun count i => count + quantity i) cartItems count
  = count + cartCount cartItems.
Proof.
  unfold cartCount. revert count.
  induction cartItems as [|i l IH]; intros count; cbn [fold_left]; [lia|].
  rewrite IH, (IH (0 + quantity i)). lia.
Qed.

Lemma cartCount_cons i l : cartCount (i :: l) = quantity i + cartCount l.
Proof. unfold cartCount at 1. cbn [fold_left]. by rewrite cartCount_from. Qed.

Lemma cartCount_app l l' : cartCount (l ++ l') = cartCount l + cartCount l'.
Proof.
  induction l as [|i l IH]; [done|].
  change ((i :: l) ++ l') with (i :: (l ++ l')). rewrite !cartCount_cons, IH. lia.
Qed.

Lemma map_unmatched (p : Z) (g : CartItem -> CartItem) l :
  p ∉ cart_ids l ->
  map (fun i => if id (item i) =? p then g i else i) l = l.
Proof.
  induction l as [|x l IH]; [done|]. cbn [cart_ids map].
  intros [Hx Hl]%not_elem_of_cons.
  destruct (Z.eqb_spec (id (item x)) p); [done|]. by rewrite IH.
Qed.

(** One item of a cart with distinct ids is changed, the others are not. *)
Lemma cartCount_map_one (p : Z) (g : CartItem -> CartItem) l old :
  NoDup (cart_ids l) ->
  old ∈ l ->
  id (item old) = p ->
  cartCount (map (fun i => if id (item i) =? p then g i else i) l)
  = cartCount l - quantity old + quantity (g old).
Proof.
  induction l as [|x l IH]; intros Hnd Hin Hid; [by apply elem_of_nil in Hin|].
  cbn [cart_ids map] in Hnd. apply NoDup_cons in Hnd as [Hx Hnd].
  cbn [map]. apply elem_of_cons in Hin as [-> | Hin].
  - rewrite Hid, Z.eqb_refl, map_unmatched by by rewrite <- Hid.
    rewrite !cartCount_cons. lia.
  - destruct (Z.eqb_spec (id (item x)) p) as [Hxp | Hxp].
    + destruct Hx. rewrite Hxp, <- Hid. unfold cart_ids.
      by apply (list_elem_of_fmap_2 (fun i => id (item i))).
    + rewrite !cartCount_cons, IH by done. lia.
Qed.

Lemma cart_ids_map (p : Z) (g : CartItem -> CartItem) l :
  (forall i, id (item (g i)) = id (item i)) ->
  cart_ids (map (fun i => if id (item i) =? p then g i else i) l) = cart_ids l.
Proof.
  intros Hg. unfold cart_ids. rewrite map_map. apply map_ext. intros i.
  by destruct (id (item i) =? p).
Qed.

(** What [apiVerifyProductData] calls available is a stock above zero. *)
Lemma verification_available productId variantId response v :
  apiVerifyProductData productId variantId response = inr v ->
  available v = gt_zero (stock v).
Proof.
  unfold apiVerifyProductData. destruct response as [response|e]; [|done].
  destruct (get_prop_opt response (str "product")) as [p|]; [|done].
  destruct (truthy (Some p)); [|done]. cbn zeta.
  destruct variantId as [variantId|]; [|by intros [= <-]].
  destruct (negb (variantId =? 0) && truthy _); [|by intros [= <-]].
  destruct (get_prop_opt p (str "variants")) as [[| | | |variants|]|]; try done.
  destruct (find_variant variantId variants) as [[w|]|]; try done.
  by intros [= <-].
Qed.

(** X26.  [addToCart], for a visitor who is not signed in, changes the
    cart only when the back end has just reported a stock that is a number
    above zero and no less than the quantity asked for.  On a cart with
    distinct ids it then keeps the ids distinct and raises [cartCount] by
    that quantity, whether the product was in the cart or not. *)
Theorem addToCart_within_stock
  (product : Product) (quantity' : Z) (response : result json)
  (cartItems cartItems' : list CartItem) :
  NoDup (cart_ids cartItems) ->
  addToCart product quantity' response cartItems = inr cartItems' ->
  (exists v n,
     apiVerifyProductData (id product) (variantId product) response = inr v
     /\ to_number (stock v) = Some n /\ 0 < n /\ quantity' <= n)
  /\ NoDup (cart_ids cartItems')
  /\ cartCount cartItems' = cartCount cartItems + quantity'.
Proof.
  intros Hnd. unfold addToCart.
  destruct (apiVerifyProductData _ _ _) as [e|v] eqn:Hv; [done|].
  rewrite (verification_available _ _ _ _ Hv). unfold gt_zero, less_than.
  destruct (to_number (stock v)) as [n|] eqn:Hn; [|done].
  destruct (Z.ltb_spec 0 n); [|done]. cbn [negb].
  destruct (Z.ltb_spec n quantity'); [done|]. intros [= <-].
  split; [by exists v, n; repeat split; try lia|].
  unfold addToCart_update.
  destruct (find _ cartItems) as [existingItem|] eqn:Hfind.
  - apply find_some in Hfind as [Hin Hid%Z.eqb_eq].
    split; [by rewrite cart_ids_map|].
    rewrite (cartCount_map_one _ _ _ existingItem) by by try apply list_elem_of_In.
    cbn [quantity]. lia.
  - assert (Hnew : id product ∉ cart_ids cartItems).
    { unfold cart_ids. intros (i & Hid & Hin)%list_elem_of_fmap.
      apply list_elem_of_In in Hin.
      pose proof (find_none _ _ Hfind i Hin) as Hne. cbn beta in Hne. lia. }
    split.
    + unfold cart_ids. rewrite map_app. apply NoDup_app. repeat split; [done| |].
      * cbn [map item]. intros z Hz ->%list_elem_of_singleton. by apply Hnew.
      * apply NoDup_singleton.
    + rewrite cartCount_app, cartCount_cons. cbn [quantity]. unfold cartCount at 2.
      cbn [fold_left]. lia.
Qed.

Lemma addToCart_within_stock_witness :
  (exists v n,
     apiVerifyProductData (id (Build_Product 1 None [])) (variantId (Build_Product 1 None []))
       (Ok (JObj [(str "product", JObj [(str "id", JNum 1); (str "stock_quantity", JNum 4)])])) = inr v
     /\ to_number (stock v) = Some n /\ 0 < n /\ 2 <= n)
  /\ NoDup (cart_ids
              [{| item := Build_Product 1 None []; quantity := 3 |}])
  /\ cartCount [{| item := Build_Product 1 None []; quantity := 3 |}]
     = cartCount [{| item := Build_Product 1 None []; quantity := 1 |}] + 2.
Proof.
  apply (addToCart_within_stock (Build_Product 1 None []) 2
           (Ok (JObj [(str "product", JObj [(str "id", JNum 1); (str "stock_quantity", JNum 4)])]))
           [{| item := Build_Product 1 None []; quantity := 1 |}]
           [{| item := Build_Product 1 None []; quantity := 3 |}]).
  - apply NoDup_singleton.
  - reflexivity.
Defined.

(** X27.  [updateItemQuantity(productId, quantity)], for a visitor who is
    not signed in, on a cart with distinct ids and positive quantities that
    holds the product: [cartCount] changes by the difference between
    [max(0, quantity)] and the old quantity of that item, the item is
    dropped when the quantity is zero or less and no other item is, and
    the quantities stay positive. *)
Theorem updateItemQuantity_count
  (productId quantity' : Z) (cartItems : list CartItem) (old : CartItem) :
  NoDup (cart_ids cartItems) ->
  Forall (fun i => 0 < quantity i) cartItems ->
  old ∈ cartItems ->
  id (item old) = productId ->
  let cartItems' := updateItemQuantity productId quantity' cartItems in
  cartCount cartItems' = cartCount cartItems - quantity old + Z.max 0 quantity'
  /\ cart_ids cartItems'
     = (if quantity' <=? 0 then filter (fun z => z <> productId) (cart_ids cartItems)
        else cart_ids cartItems)
  /\ Forall (fun i => 0 < quantity i) cartItems'.
Proof.
  intros Hnd Hpos Hin Hid. cbn zeta. unfold updateItemQuantity.
  destruct (Z.leb_spec quantity' 0) as [Hq | Hq].
  - unfold removeFromCart. repeat split.
    + rewrite Z.max_l by done.
      clear Hpos. induction cartItems as [|x l IH]; [by apply elem_of_nil in Hin|].
      cbn [cart_ids map] in Hnd. apply NoDup_cons in Hnd as [Hx Hnd].
      rewrite filter_cons. apply elem_of_cons in Hin as [-> | Hin].
      * rewrite decide_False by (by intros H; apply H).
        rewrite filter_all, cartCount_cons; [lia|].
        apply Forall_forall. intros i Hi Heq. apply Hx. rewrite Hid, <- Heq.
        unfold cart_ids. by apply (list_elem_of_fmap_2 (fun i => id (item i))).
      * rewrite decide_True.
        -- rewrite !cartCount_cons, IH by done. lia.
        -- intros Heq. apply Hx. rewrite Heq, <- Hid.
           unfold cart_ids. by apply (list_elem_of_fmap_2 (fun i => id (item i))).
    + clear. unfold cart_ids. induction cartItems as [|x l IH]; [done|].
      cbn [map]. rewrite !filter_cons.
      destruct (decide (id (item x) <> productId)); cbn [map]; by rewrite IH.
    + apply Forall_forall. intros i [_ Hi]%list_elem_of_filter.
      by apply (proj1 (Forall_forall _ _) Hpos).
  - assert (Hall : Forall (fun i => 0 < quantity i)
                     (map (fun i =>
                             if id (item i) =? productId
                             then {| item := item i; quantity := Z.max 0 quantity' |}
                             else i) cartItems)).
    { apply Forall_fmap. eapply Forall_impl; [exact Hpos|].
      intros i Hi. unfold compose. destruct (id (item i) =? productId); [|done].
      cbn [quantity]. lia. }
    rewrite filter_all by done. repeat split; [| |done].
    + rewrite (cartCount_map_one _ _ _ old) by done. cbn [quantity]. lia.
    + by rewrite cart_ids_map.
Qed.

Lemma updateItemQuantity_count_witness :
  cartCount
    (updateItemQuantity 1 5
       [{| item := Build_Product 1 None []; quantity := 2 |};
        {| item := Build_Product 2 None []; quantity := 1 |}])
  = cartCount
      [{| item := Build_Product 1 None []; quantity := 2 |};
       {| item := Build_Product 2 None []; quantity := 1 |}]
    - quantity {| item := Build_Product 1 None []; quantity := 2 |} + Z.max 0 5
  /\ cart_ids
       (updateItemQuantity 1 5
          [{| item := Build_Product 1 None []; quantity := 2 |};
           {| item := Build_Product 2 None []; quantity := 1 |}])
     = (if 5 <=? 0
        then filter (fun z => z <> 1)
               (cart_ids
                  [{| item := Build_Product 1 None []; quantity := 2 |};
                   {| item := Build_Product 2 None []; quantity := 1 |}])
        else cart_ids
               [{| item := Build_Product 1 None []; quantity := 2 |};
                {| item := Build_Product 2 None []; quantity := 1 |}])
  /\ Forall (fun i => 0 < quantity i)
       (updateItemQuantity 1 5
          [{| item := Build_Product 1 None []; quantity := 2 |};
           {| item := Build_Product 2 None []; quantity := 1 |}]).
Proof.
  apply (updateItemQuantity_count 1 5
           [{| item := Build_Product 1 None []; quantity := 2 |};
            {| item := Build_Product 2 None []; quantity := 1 |}]
           {| item := Build_Product 1 None []; quantity := 2 |}).
  - apply NoDup_cons. split; [|apply NoDup_singleton].
    intros H%list_elem_of_singleton. discriminate H.
  - repeat constructor.
  - left.
  - reflexivity.
Defined.


(** ** [fetchMe] *)

(** X28.  The flag [spAromaIsSuper] of [localStorage] decides what
    [fetchMe] makes of the profile of the back end: with a token and a
    non-empty flag stored, the [is_superuser] of the user it sets is whether
    the flag is the string [true], whatever the [is_superuser] of the
    profile, and [is_admin] is [true] when it is.  Nothing is written. *)
Theorem fetchMe_flag_overrides_profile
  (σ : state) (data : json) (profile : list (jsstring * json)) (su : jsstring) :
  present (getItem TOKEN_KEY σ) <> None ->
  present (getItem "spAromaIsSuper" σ) = Some su ->
  fetched_user data = JObj profile ->
  let user := fst (fetchMe (Some (Resolved data)) σ) in
  get_prop_opt user (str "is_superuser") = Some (JBool (bool_decide (su = str "true")))
  /\ (su = str "true" -> get_prop_opt user (str "is_admin") = Some (JBool true))
  /\ (su <> str "true" ->
      get_prop_opt user (str "is_admin") = obj_get (str "is_admin") profile)
  /\ snd (fetchMe (Some (Resolved data)) σ) = σ.
Proof.
  intros Htoken Hsu Hprofile. cbn zeta.
  assert (Hfetch : fetchMe (Some (Resolved data)) σ
                   = (if bool_decide (su = str "true")
                      then JObj (obj_set (str "is_admin") (JBool true)
                                   (obj_set (str "is_superuser") (JBool true) profile))
                      else JObj (obj_set (str "is_superuser") (JBool false) profile),
                      σ)).
  { unfold fetchMe.
    destruct (present (getItem TOKEN_KEY σ)) as [token|]; [|done].
    rewrite Hsu, Hprofile. cbn zeta. unfold with_field.
    cbn [truthy spread get_prop_opt]. rewrite obj_get_set_eq.
    by destruct (bool_decide (su = str "true")). }
  rewrite Hfetch. cbn [fst snd].
  destruct (bool_decide (su = str "true")) eqn:Hflag; cbn [get_prop_opt].
  - apply bool_decide_eq_true in Hflag. repeat split.
    + by rewrite obj_get_set_ne, obj_get_set_eq.
    + by rewrite obj_get_set_eq.
    + done.
  - apply bool_decide_eq_false in Hflag. repeat split.
    + by rewrite obj_get_set_eq.
    + done.
    + intros _. by rewrite obj_get_set_ne.
Qed.

Lemma fetchMe_flag_overrides_profile_witness :
  get_prop_opt
    (fst (fetchMe
            (Some (Resolved
                     (JObj [(str "user",
                             JObj [(str "email", JStr (str "asha@example.com"));
                                   (str "is_superuser", JBool false)])])))
            (State {[ TOKEN_KEY := str "t0k3n"; "spAromaIsSuper"%string := str "true" ]}
               [] true 1000 [])))
    (str "is_superuser")
  = Some (JBool (bool_decide (str "true" = str "true")))
  /\ (str "true" = str "true" ->
      get_prop_opt
        (fst (fetchMe
                (Some (Resolved
                         (JObj [(str "user",
                                 JObj [(str "email", JStr (str "asha@example.com"));
                                       (str "is_superuser", JBool false)])])))
                (State {[ TOKEN_KEY := str "t0k3n"; "spAromaIsSuper"%string := str "true" ]}
                   [] true 1000 [])))
        (str "is_admin")
      = Some (JBool true))
  /\ (str "true" <> str "true" ->
      get_prop_opt
        (fst (fetchMe
                (Some (Resolved
                         (JObj [(str "user",
                                 JObj [(str "email", JStr (str "asha@example.com"));
                                       (str "is_superuser", JBool false)])])))
                (State {[ TOKEN_KEY := str "t0k3n"; "spAromaIsSuper"%string := str "true" ]}
                   [] true 1000 [])))
        (str "is_admin")
      = obj_get (str "is_admin")
          [(str "email", JStr (str "asha@example.com"));
           (str "is_superuser", JBool false)])
  /\ snd (fetchMe
            (Some (Resolved
                     (JObj [(str "user",
                             JObj [(str "email", JStr (str "asha@example.com"));
                                   (str "is_superuser", JBool false)])])))
            (State {[ TOKEN_KEY := str "t0k3n"; "spAromaIsSuper"%string := str "true" ]}
               [] true 1000 []))
     = State {[ TOKEN_KEY := str "t0k3n"; "spAromaIsSuper"%string := str "true" ]}
         [] true 1000 [].
Proof.
  apply (fetchMe_flag_overrides_profile
           (State {[ TOKEN_KEY := str "t0k3n"; "spAromaIsSuper"%string := str "true" ]}
              [] true 1000 [])
           (JObj [(str "user",
                   JObj [(str "email", JStr (str "asha@example.com"));
                         (str "is_superuser", JBool false)])])
           [(str "email", JStr (str "asha@example.com"));
            (str "is_superuser", JBool false)]
           (str "true")).
  - vm_compute. discriminate.
  - vm_compute. reflexivity.
  - reflexivity.
Defined.

(** X29.  When the back end answers [fetchMe] with status 401, the user is
    set to [null] and the token is removed, so that [authHeaders()] is
    empty.  However its request settles, [fetchMe] leaves the user cache as
    it is: [apiGetCurrentUser()] resolves after it to what it would have
    resolved to before, the cached profile included. *)
Theorem fetchMe_unauthorized
  (σ : state) (body : json) (request : option settled)
  (response : result json) (latency : Z) :
  fst (fetchMe (Some (Rejected 401 body)) σ) = JNull
  /\ authHeaders None (snd (fetchMe (Some (Rejected 401 body)) σ)) = []
  /\ fst (apiGetCurrentUser response latency (snd (fetchMe request σ)))
     = fst (apiGetCurrentUser response latency σ).
Proof.
  repeat split.
  - unfold fetchMe. by destruct (present _).
  - unfold fetchMe, authHeaders, getAuthToken. cbn zeta.
    destruct (present (getItem TOKEN_KEY σ)) as [token|] eqn:Htoken;
      cbn [snd Z.eqb Pos.eqb]; [|by rewrite Htoken].
    unfold getItem, removeItem. cbn [localStorage].
    by rewrite lookup_delete_ne, lookup_delete_eq.
  - rewrite !apiGetCurrentUser_value.
    assert (Huser : fst (UserCache_get (snd (fetchMe request σ)))
                    = fst (UserCache_get σ)); [|by rewrite Huser].
    unfold fetchMe. destruct (present _) as [token|]; [|done].
    destruct request as [[data|status body']|]; try done.
    destruct (status =? 401); [|done]. cbn [snd].
    apply UserCache_get_ext; [|done].
    unfold getItem, removeItem. cbn [localStorage].
    by rewrite !lookup_delete_ne.
Qed.
